(** * WAI-Aitf: context/session state and tool-calling orchestration

    A shallow embedding of the weather assistant's core:
    - [src/lib/weatherTools.ts]: [getCoordinates], [parseDate],
      [executeWeatherTool];
    - [src/lib/contextManager.ts]: the client-side [ContextManager], the
      server-side [SessionStore] and [resolveContextWithSession];
    - the two [POST] handlers: the single-tool one of
      [src/app/api/chat-optimized/route.ts] and the multi-tool one kept in
      [src/app/compare/page.tsx].

    JavaScript strings are sequences of UTF-16 code units, instants are
    milliseconds since the epoch ([Z]), the [Map] of sessions is a [gmap],
    and the outside world (clock, geocoder, weather API, completion
    provider) is an explicit environment; every [fetch] leaves an event in
    a log. *)

From Stdlib Require Import ZArith NArith List Ascii String Floats Lia Bool.
From stdpp Require Import gmap list option.

Set Warnings "-inexact-float".

(* ===================================================================== *)
(** ** JavaScript strings *)
(* ===================================================================== *)

Module Js.

(** A string value: the list of its UTF-16 code units. *)
Abbreviation str := (list N).

Definition bytes_of_literal (s : string) : list N :=
  map N_of_ascii (list_ascii_of_string s).

Definition cont (b : N) : N := N.land b 63.

(** Code units of a code point (surrogate pair above the BMP). *)
Definition units_of_code_point (cp : N) : list N :=
  if (cp <? 65536)%N then [cp]
  else let v := (cp - 65536)%N in
       [(55296 + N.shiftr v 10)%N; (56320 + N.land v 1023)%N].

(** Source literals are written in UTF-8; [u16_of_utf8] gives the code
    units the JavaScript engine holds for them. *)
Fixpoint u16_of_utf8 (bs : list N) : list N :=
  match bs with
  | [] => []
  | b :: r =>
      if (b <? 128)%N then b :: u16_of_utf8 r
      else if (b <? 224)%N then
        match r with
        | c1 :: r1 =>
            units_of_code_point (N.shiftl (N.land b 31) 6 + cont c1)
              ++ u16_of_utf8 r1
        | _ => []
        end
      else if (b <? 240)%N then
        match r with
        | c1 :: c2 :: r2 =>
            units_of_code_point
              (N.shiftl (N.land b 15) 12 + N.shiftl (cont c1) 6 + cont c2)
              ++ u16_of_utf8 r2
        | _ => []
        end
      else
        match r with
        | c1 :: c2 :: c3 :: r3 =>
            units_of_code_point
              (N.shiftl (N.land b 7) 18 + N.shiftl (cont c1) 12
               + N.shiftl (cont c2) 6 + cont c3)
              ++ u16_of_utf8 r3
        | _ => []
        end
  end.

Definition lit (s : string) : str := u16_of_utf8 (bytes_of_literal s).

(** [s.length] *)
Definition length (s : str) : Z := Z.of_nat (List.length s).

(** [a === b] on strings. *)
Definition eqb (a b : str) : bool := bool_decide (a = b).

(** [String.prototype.toLowerCase], code unit by code unit.  The ASCII
    capitals are mapped; so are the only two other code points whose
    lowercase form contains an ASCII letter (U+0130 and the Kelvin sign
    U+212A).  Every other code unit is kept: its lowercase form is not
    ASCII either, and this program only compares lowercased text with
    ASCII words. *)
Definition lowerUnit (c : N) : list N :=
  if ((65 <=? c) && (c <=? 90))%N then [(c + 32)%N]
  else if (c =? 304)%N then [105%N; 775%N]
  else if (c =? 8490)%N then [107%N]
  else [c].

Definition toLowerCase (s : str) : str := flat_map lowerUnit s.

(** WhiteSpace and LineTerminator code units, as [trim] strips them. *)
Definition isWhiteSpace (c : N) : bool :=
  ((9 <=? c) && (c <=? 13) || (c =? 32) || (c =? 160) || (c =? 5760)
   || (8192 <=? c) && (c <=? 8202) || (c =? 8232) || (c =? 8233)
   || (c =? 8239) || (c =? 8287) || (c =? 12288) || (c =? 65279))%N.

Fixpoint trimStart (s : str) : str :=
  match s with
  | c :: r => if isWhiteSpace c then trimStart r else s
  | [] => []
  end.

Definition trimEnd (s : str) : str := rev (trimStart (rev s)).

Definition trim (s : str) : str := trimEnd (trimStart s).

Fixpoint startsWith (p s : str) : bool :=
  match p, s with
  | [], _ => true
  | a :: p', b :: s' => (a =? b)%N && startsWith p' s'
  | _ :: _, [] => false
  end.

(** [s.includes(p)], which is also [/p/.test(s)] for a literal [p]. *)
Fixpoint includes (p s : str) : bool :=
  startsWith p s ||
  match s with
  | [] => false
  | _ :: s' => includes p s'
  end.

(** [s.split(sep)[0]] for a one-unit separator. *)
Fixpoint splitHead (sep : N) (s : str) : str :=
  match s with
  | [] => []
  | c :: r => if (c =? sep)%N then [] else c :: splitHead sep r
  end.

Definition isDigit (c : N) : bool := ((48 <=? c) && (c <=? 57))%N.

Definition digitVal (c : N) : Z := Z.of_N c - 48.

(** Truthiness of an optional string: [undefined], [null] and the empty
    string are falsy. *)
Definition truthy (o : option str) : bool :=
  match o with
  | Some (_ :: _) => true
  | _ => false
  end.

(** [o || null] on an optional string. *)
Definition orNull (o : option str) : option str :=
  if truthy o then o else None.

End Js.

Notation "'js' s" := (Js.lit s) (at level 1, s at level 0, only parsing).

(* ===================================================================== *)
(** ** Dates: the part of ECMAScript's [Date] the program uses *)
(* ===================================================================== *)

Module JsDate.
Local Open Scope Z_scope.

Definition msPerDay : Z := 86400000.

Definition Day (t : Z) : Z := t / msPerDay.
Definition TimeWithinDay (t : Z) : Z := t mod msPerDay.

(** Day of a 400-year era to (year of era, day of year), Gregorian. *)
Definition yearOfEra (doe : Z) : Z :=
  (doe - doe / 1460 + doe / 36524 - doe / 146096) / 365.

Definition dayOfYear (doe : Z) : Z :=
  let yoe := yearOfEra doe in
  doe - (365 * yoe + yoe / 4 - yoe / 100).

(** Civil date (year, month 1..12, day 1..31) of a day number; years
    start in March inside the computation. *)
Definition civil_of_day (z : Z) : Z * Z * Z :=
  let z := z + 719468 in
  let era := z / 146097 in
  let doe := z mod 146097 in
  let yoe := yearOfEra doe in
  let doy := dayOfYear doe in
  let mp := (5 * doy + 2) / 153 in
  let d := doy - (153 * mp + 2) / 5 + 1 in
  let m := if mp <? 10 then mp + 3 else mp - 9 in
  (yoe + era * 400 + (if m <=? 2 then 1 else 0), m, d).

(** Day number of a civil date. *)
Definition day_of_civil (y m d : Z) : Z :=
  let y := y - (if m <=? 2 then 1 else 0) in
  let era := y / 400 in
  let yoe := y mod 400 in
  let mp := if 2 <? m then m - 3 else m + 9 in
  let doy := (153 * mp + 2) / 5 + d - 1 in
  let doe := yoe * 365 + yoe / 4 - yoe / 100 + doy in
  era * 146097 + doe - 719468.

Definition YearFromTime (t : Z) : Z := fst (fst (civil_of_day (Day t))).
(** Months are 0..11 in ECMAScript. *)
Definition MonthFromTime (t : Z) : Z := snd (fst (civil_of_day (Day t))) - 1.
Definition DateFromTime (t : Z) : Z := snd (civil_of_day (Day t)).

Definition MakeDay (year month date : Z) : Z :=
  let ym := year + month / 12 in
  let mn := month mod 12 in
  day_of_civil ym (mn + 1) 1 + date - 1.

Definition MakeDate (day time : Z) : Z := day * msPerDay + time.

(** Local time, for a zone at a fixed offset [tza] (in ms) from UTC. *)
Definition LocalTime (tza t : Z) : Z := t + tza.
Definition UTC (tza t : Z) : Z := t - tza.

(** [d.getDate()] *)
Definition getDate (tza t : Z) : Z := DateFromTime (LocalTime tza t).

(** [d.setDate(dt)]: the new time value of [d]. *)
Definition setDate (tza t dt : Z) : Z :=
  let lt := LocalTime tza t in
  UTC tza (MakeDate (MakeDay (YearFromTime lt) (MonthFromTime lt) dt)
                    (TimeWithinDay lt)).

(** Decimal digits of [n], zero-padded to [width] places. *)
Fixpoint digits (width : nat) (n : Z) : list N :=
  match width with
  | O => []
  | S w => digits w (n / 10) ++ [Z.to_N (48 + n mod 10)]
  end.

(** The year of an ISO string: four digits, or a sign and six digits
    outside 0..9999. *)
Definition isoYear (y : Z) : Js.str :=
  if (0 <=? y) && (y <=? 9999) then digits 4 y
  else if y <? 0 then 45%N :: digits 6 (- y)
  else 43%N :: digits 6 y.

(** [d.toISOString()] *)
Definition toISOString (t : Z) : Js.str :=
  let '(y, m, d) := civil_of_day (Day t) in
  let w := TimeWithinDay t in
  isoYear y ++ [45%N] ++ digits 2 m ++ [45%N] ++ digits 2 d ++ [84%N]
    ++ digits 2 (w / 3600000) ++ [58%N]
    ++ digits 2 (w / 60000 mod 60) ++ [58%N]
    ++ digits 2 (w / 1000 mod 60) ++ [46%N]
    ++ digits 3 (w mod 1000) ++ [90%N].

(** The [YYYY-MM-DD] form of a day number. *)
Definition calendarDate (day : Z) : Js.str :=
  let '(y, m, d) := civil_of_day day in
  isoYear y ++ [45%N] ++ digits 2 m ++ [45%N] ++ digits 2 d.

(** [d.toISOString().split('T')[0]] *)
Definition isoDate (t : Z) : Js.str := Js.splitHead 84%N (toISOString t).

(** [/^\d{4}-\d{2}-\d{2}$/.test(s)] *)
Definition isDateLiteral (s : Js.str) : bool :=
  match s with
  | [y1; y2; y3; y4; h1; m1; m2; h2; d1; d2] =>
      forallb Js.isDigit [y1; y2; y3; y4; m1; m2; d1; d2]
      && (h1 =? 45)%N && (h2 =? 45)%N
  | _ => false
  end.

(** [new Date(s)] for [s] a date literal as above: the time value, or
    [None] for an Invalid Date.  A date-only form is UTC midnight.  As in
    V8 (the engine of the Node.js runtime that serves the routes), the
    month must be 1..12 and the day 1..31, and a day beyond the end of
    its month runs on into the next one. *)
Definition parseDateLiteral (s : Js.str) : option Z :=
  match s with
  | [y1; y2; y3; y4; _; m1; m2; _; d1; d2] =>
      let v := Js.digitVal in
      let y := 1000 * v y1 + 100 * v y2 + 10 * v y3 + v y4 in
      let m := 10 * v m1 + v m2 in
      let d := 10 * v d1 + v d2 in
      if (1 <=? m) && (m <=? 12) && (1 <=? d) && (d <=? 31)
      then Some (MakeDate (MakeDay y (m - 1) d) 0)
      else None
  | _ => None
  end.

(** [a < b] on two [Date]s, the left one possibly invalid (NaN). *)
Definition dateLt (a : option Z) (b : Z) : bool :=
  match a with
  | Some x => x <? b
  | None => false
  end.

End JsDate.

(* ===================================================================== *)
(** ** Payloads exchanged with the outside world *)
(* ===================================================================== *)

(** The union type ['current' | 'historical' | 'forecast']. *)
Inductive DateType := Current | Historical | Forecast.

#[global] Instance DateType_eq_dec : EqDecision DateType.
Proof. solve_decision. Defined.

Module Wire.

(** [WeatherToolParams] *)
Record WeatherToolParams := {
  location : Js.str;
  date : option Js.str
}.

(** [WeatherToolResponse] *)
Record WeatherToolResponse := {
  city : Js.str;
  country : Js.str;
  temperature : float;
  description : Js.str;
  humidity : float;
  windSpeed : float;
  precipitation : float;
  uvIndex : float;
  timestamp : Js.str;
  dateType : DateType;
  targetDate : option Js.str
}.

(** One entry of [data.results] of the geocoding API. *)
Record GeoResult := {
  geo_latitude : float;
  geo_longitude : float;
  geo_name : Js.str;
  geo_country : Js.str
}.

(** The parsed body of a geocoding reply; [results] may be missing. *)
Record GeoBody := { results : option (list GeoResult) }.

(** The three URLs [executeWeatherTool] builds. *)
Inductive WeatherUrl :=
| ArchiveDaily (latitude longitude : float) (day : Js.str)
| ForecastDaily (latitude longitude : float) (day : Js.str)
| ForecastCurrent (latitude longitude : float).

(** [data.current] *)
Record CurrentBlock := {
  temperature_2m : float;
  relative_humidity_2m : float;
  cur_precipitation : float;
  wind_speed_10m : float;
  uv_index : float;
  weather_code : Z;
  time : Js.str
}.

(** [data.daily]; a missing array element reads as NaN, a missing
    weather code as no code. *)
Record DailyBlock := {
  daily_time : option (list Js.str);
  temperature_2m_max : list float;
  temperature_2m_min : list float;
  relative_humidity_2m_max : list float;
  precipitation_sum : list float;
  wind_speed_10m_max : list float;
  uv_index_max : list float;
  daily_weather_code : list Z
}.

Record WeatherBody := {
  current : option CurrentBlock;
  daily : option DailyBlock
}.

(** What [await fetch(url)] followed by [response.json()] can give: the
    promise rejects, or a reply arrives with its [ok] flag, status and
    body ([None] when the body is not JSON). *)
Inductive Fetched (B : Type) :=
| Rejected
| Reply (ok : bool) (status : Z) (body : option B).
Arguments Rejected {B}.
Arguments Reply {B} ok status body.

Inductive Role := user | assistant | tool | system.

#[global] Instance Role_eq_dec : EqDecision Role.
Proof. solve_decision. Defined.

(** A message of the inbound history. *)
Record ChatMessage := { role : Role; content : Js.str }.

(** A requested tool invocation.  [arguments] stands for the JSON text of
    [toolCall.function.arguments], given by what [JSON.parse] makes of
    it: [None] when it is not valid JSON. *)
Record ToolCall := {
  id : Js.str;
  function_name : Js.str;
  arguments : option WeatherToolParams
}.

(** [completion.choices[0].message] *)
Record AssistantMessage := {
  a_content : option Js.str;
  tool_calls : option (list ToolCall)
}.

(** The system prompts of the two handlers (first request, second
    request); each text is fixed up to the response language and, in the
    dated variant, the date strings spliced in. *)
Inductive Prompt :=
| AssistantPrompt (japanese : bool)
| DatedAssistantPrompt (today : Js.str) (years : list Z) (japanese : bool)
| FormattingPrompt (japanese : bool)
| ComparisonFormattingPrompt (japanese : bool).

(** Entries of the [messages] array sent to the completion provider.
    A tool message carries [JSON.stringify(result)], held here as the
    result itself. *)
Inductive Msg :=
| MSystem (p : Prompt)
| MChat (m : ChatMessage)
| MAssistant (m : AssistantMessage)
| MTool (tool_call_id : Js.str) (result : WeatherToolResponse).

Record CompletionRequest := {
  messages : list Msg;
  with_tools : bool  (* [tools: [weatherTool], tool_choice: 'auto'] *)
}.

Record CompletionBody := { choices : list AssistantMessage }.

(** [weatherData]: a single observation or an array of them. *)
Inductive WeatherData :=
| Single (r : WeatherToolResponse)
| Many (rs : list WeatherToolResponse).

(** The [error] member: [true], or the text of the configuration error. *)
Inductive ErrorFlag := ErrorTrue | ErrorText (msg : Js.str).

(** The JSON body of a response; absent members are [None]. *)
Record Body := {
  response : option Js.str;
  weatherData : option WeatherData;
  toolsUsed : option Z;
  multiCity : option bool;
  toolUsed : option bool;
  error : option ErrorFlag
}.

(** [NextResponse.json(body, { status })] *)
Record HttpResponse := { http_status : Z; body : Body }.

(** The inbound request body. *)
Record ChatRequest := {
  req_messages : list ChatMessage;
  req_language : option Js.str
}.

End Wire.

(* ===================================================================== *)
(** ** Effects: clock, fetches, exceptions *)
(* ===================================================================== *)

Module Eff.
Import Wire.

(** The environment a run executes in. *)
Record World := {
  (** successive readings of the system clock, in ms since the epoch *)
  clock : nat -> Z;
  (** offset of the local time zone from UTC, in ms *)
  tza : Z;
  (** [process.env.OPENAI_API_KEY] *)
  apiKey : option Js.str;
  (** [typeof window !== 'undefined'] *)
  hasWindow : bool;
  geocoder : Js.str -> Fetched GeoBody;
  weatherApi : WeatherUrl -> Fetched WeatherBody;
  completions : CompletionRequest -> Fetched CompletionBody
}.

(** What a run leaves behind: its fetches, and the line
    [executeWeatherTool] logs on entry. *)
Inductive Event :=
| EvGeocode (name : Js.str)
| EvWeather (url : WeatherUrl)
| EvCompletion (req : CompletionRequest)
| EvExecuteTool (params : WeatherToolParams).

(** Thrown values. *)
Inductive Error :=
| LocationNotFound (location : Js.str)
| CoordinatesNotFound (location : Js.str)
| WeatherApiError (status : Z)
| NoWeatherData
| OpenAIError (status : Z)
| OpenAIFinalError (status : Z)
| FetchRejected
| SyntaxError
| TypeError
| ReferenceError (identifier : string).

Inductive Result (A : Type) :=
| Ok (a : A)
| Throw (e : Error).
Arguments Ok {A} a.
Arguments Throw {A} e.

(** The state threaded through a run: clock readings made so far, the
    event log (oldest first), and the program's own mutable data. *)
Record St (X : Type) := {
  ticks : nat;
  log : list Event;
  data : X
}.
Arguments ticks {X} s.
Arguments log {X} s.
Arguments data {X} s.

Definition M (X A : Type) : Type := World -> St X -> Result A * St X.

Definition ret {X A} (a : A) : M X A := fun _ s => (Ok a, s).

Definition bind {X A B} (m : M X A) (k : A -> M X B) : M X B :=
  fun w s =>
    match m w s with
    | (Ok a, s') => k a w s'
    | (Throw e, s') => (Throw e, s')
    end.

Definition throw {X A} (e : Error) : M X A := fun _ s => (Throw e, s).

(** [try { m } catch (e) { h e }] *)
Definition try_catch {X A} (m : M X A) (h : Error -> M X A) : M X A :=
  fun w s =>
    match m w s with
    | (Ok a, s') => (Ok a, s')
    | (Throw e, s') => h e w s'
    end.

Definition ask {X} : M X World := fun w s => (Ok w, s).

(** [new Date()] / [Date.now()]: the next reading of the clock. *)
Definition now {X} : M X Z :=
  fun w s =>
    (Ok (clock w (ticks s)),
     {| ticks := S (ticks s); log := log s; data := data s |}).

Definition emit {X} (e : Event) : M X unit :=
  fun _ s =>
    (Ok tt, {| ticks := ticks s; log := log s ++ [e]; data := data s |}).

Definition get {X} : M X X := fun _ s => (Ok (data s), s).

Definition put {X} (x : X) : M X unit :=
  fun _ s => (Ok tt, {| ticks := ticks s; log := log s; data := x |}).

Definition modify {X} (f : X -> X) : M X unit :=
  fun _ s => (Ok tt, {| ticks := ticks s; log := log s; data := f (data s) |}).

(** Settled outcome of a computation, for joins: never throws itself. *)
Definition settle {X A} (m : M X A) : M X (Result A) :=
  fun w s => let '(r, s') := m w s in (Ok r, s').

Fixpoint settle_all {X A} (ms : list (M X A)) : M X (list (Result A)) :=
  match ms with
  | [] => ret []
  | m :: rest =>
      bind (settle m) (fun r =>
      bind (settle_all rest) (fun rs => ret (r :: rs)))
  end.

(** The value [Promise.all] settles to: every result in order, or a
    rejection as soon as one outcome is a rejection. *)
Fixpoint join {A} (rs : list (Result A)) : Result (list A) :=
  match rs with
  | [] => Ok []
  | Throw e :: _ => Throw e
  | Ok a :: rest =>
      match join rest with
      | Ok l => Ok (a :: l)
      | Throw e => Throw e
      end
  end.

(** [await Promise.all(ms)]: all computations are started; their events
    are recorded in the order of [ms]. *)
Definition Promise_all {X A} (ms : list (M X A)) : M X (list A) :=
  bind (settle_all ms) (fun rs =>
    match join rs with
    | Ok l => ret l
    | Throw e => throw e
    end).

(** Run from a fresh log. *)
Definition initial {X} (x : X) : St X := {| ticks := 0; log := []; data := x |}.

End Eff.

Declare Scope eff_scope.
Delimit Scope eff_scope with eff.
Notation "x <- m ;; k" := (Eff.bind m (fun x => k))
  (at level 100, m at next level, right associativity) : eff_scope.
Notation "m ;;; k" := (Eff.bind m (fun _ => k))
  (at level 100, right associativity) : eff_scope.

(* ===================================================================== *)
(** ** [src/lib/weatherTools.ts] *)
(* ===================================================================== *)

Module WeatherTools.
Import Wire Eff.
Local Open Scope eff_scope.

Record CityEntry := { lat : float; lng : float; entry_country : Js.str }.

Definition entry (la ln : float) (c : string) : CityEntry :=
  {| lat := la; lng := ln; entry_country := js c |}.

(** City coordinates lookup (for common cities) *)
Definition CITY_COORDINATES : list (Js.str * CityEntry) :=
  [ (js"mumbai", entry 19.0760 72.8777 "India");
    (js"delhi", entry 28.7041 77.1025 "India");
    (js"bangalore", entry 12.9716 77.5946 "India");
    (js"varanasi", entry 25.3176 82.9739 "India");
    (js"kolkata", entry 22.5726 88.3639 "India");
    (js"chennai", entry 13.0827 80.2707 "India");
    (js"hyderabad", entry 17.3850 78.4867 "India");
    (js"pune", entry 18.5204 73.8567 "India");
    (js"tokyo", entry 35.6762 139.6503 "Japan");
    (js"london", entry 51.5074 (-0.1278) "UK");
    (js"paris", entry 48.8566 2.3522 "France");
    (js"new york", entry 40.7128 (-74.0060) "USA");
    (js"sydney", entry (-33.8688) 151.2093 "Australia");
    (js"berlin", entry 52.5200 13.4050 "Germany");
    (js"rome", entry 41.9028 12.4964 "Italy");
    (js"madrid", entry 40.4168 (-3.7038) "Spain") ].

(** Names every plain object inherits from [Object.prototype]; reading
    one of them off the table gives a function or object, not a city. *)
Definition inherited_names : list Js.str :=
  [ js"constructor"; js"__proto__"; js"hasOwnProperty"; js"isPrototypeOf";
    js"propertyIsEnumerable"; js"toLocaleString"; js"toString"; js"valueOf";
    js"__defineGetter__"; js"__defineSetter__"; js"__lookupGetter__";
    js"__lookupSetter__" ].

Fixpoint own_entry (table : list (Js.str * CityEntry)) (key : Js.str)
  : option CityEntry :=
  match table with
  | [] => None
  | (k, e) :: rest => if Js.eqb k key then Some e else own_entry rest key
  end.

(** The value of [CITY_COORDINATES[key]]. *)
Inductive Property :=
| Own (e : CityEntry)
| Inherited
| Undefined.

Definition table_get (key : Js.str) : Property :=
  match own_entry CITY_COORDINATES key with
  | Some e => Own e
  | None => if existsb (Js.eqb key) inherited_names then Inherited else Undefined
  end.

(** What [getCoordinates] resolves to.  [Hollow] is the object built
    from an inherited property: its [lat], [lng] and [country] are
    [undefined]. *)
Inductive Coords :=
| Known (lat lng : float) (city country : Js.str)
| Hollow (city : Js.str).

Definition fetchGeocode {X} (name : Js.str) : M X (Fetched GeoBody) :=
  emit (EvGeocode name) ;;;
  w <- ask ;;
  ret (geocoder w name).

Definition fetchWeather {X} (url : WeatherUrl) : M X (Fetched WeatherBody) :=
  emit (EvWeather url) ;;;
  w <- ask ;;
  ret (weatherApi w url).

(** Get coordinates for a city *)
Definition getCoordinates {X} (location : Js.str) : M X Coords :=
  let normalizedLocation := Js.trim (Js.toLowerCase location) in
  match table_get normalizedLocation with
  | Own coords => ret (Known (lat coords) (lng coords) location (entry_country coords))
  | Inherited => ret (Hollow location)
  | Undefined =>
      try_catch
        (r <- fetchGeocode location ;;
         match r with
         | Rejected => throw FetchRejected
         | Reply _ _ None => throw SyntaxError
         | Reply _ _ (Some data) =>
             match results data with
             | None | Some [] => throw (LocationNotFound location)
             | Some (result :: _) =>
                 ret (Known (geo_latitude result) (geo_longitude result)
                            (geo_name result) (geo_country result))
             end
         end)
        (fun _ => throw (CoordinatesNotFound location))
  end.

Record ParsedDate := { targetDate : option Js.str; dateType : DateType }.

(** Convert date string to proper format.  [today] is the reading
    [new Date()] makes on entry; [tza] the zone offset. *)
Definition parseDate (tza today : Z) (dateStr : option Js.str) : ParsedDate :=
  let dateStr := default (js"today") dateStr in
  let lowered := Js.toLowerCase dateStr in
  if Js.eqb lowered (js"today") || Js.eqb lowered (js"now") then
    {| targetDate := None; dateType := Current |}
  else if Js.eqb lowered (js"tomorrow") then
    let tomorrow := JsDate.setDate tza today (JsDate.getDate tza today + 1) in
    {| targetDate := Some (JsDate.isoDate tomorrow); dateType := Forecast |}
  else if Js.eqb lowered (js"yesterday") then
    let yesterday := JsDate.setDate tza today (JsDate.getDate tza today - 1) in
    {| targetDate := Some (JsDate.isoDate yesterday); dateType := Historical |}
  else if JsDate.isDateLiteral dateStr then
    let targetDate := JsDate.parseDateLiteral dateStr in
    let isHistorical := JsDate.dateLt targetDate today in
    {| targetDate := Some dateStr;
       dateType := if isHistorical then Historical else Forecast |}
  else
    {| targetDate := None; dateType := Current |}.

(** Weather code descriptions *)
Definition weatherDescriptions : list (Z * Js.str) :=
  [ (0, js"Clear sky"); (1, js"Mainly clear"); (2, js"Partly cloudy");
    (3, js"Overcast"); (45, js"Fog"); (48, js"Depositing rime fog");
    (51, js"Light drizzle"); (53, js"Moderate drizzle"); (55, js"Dense drizzle");
    (61, js"Slight rain"); (63, js"Moderate rain"); (65, js"Heavy rain");
    (71, js"Slight snow fall"); (73, js"Moderate snow fall");
    (75, js"Heavy snow fall"); (80, js"Slight rain showers");
    (81, js"Moderate rain showers"); (82, js"Violent rain showers");
    (95, js"Thunderstorm") ]%Z.

(** [weatherDescriptions[code] || 'Unknown'] *)
Definition describe (code : option Z) : Js.str :=
  match code with
  | Some c =>
      match find (fun kv => (fst kv =? c)%Z) weatherDescriptions with
      | Some (_, d) => d
      | None => js"Unknown"
      end
  | None => js"Unknown"
  end.

(** [Math.round]: nearest integer, halves towards +infinity. *)
Definition Math_round (x : float) : float :=
  let a := PrimFloat.abs x in
  if (a <? 4503599627370496)%float && negb (a =? 0)%float then
    let r := ((a + 4503599627370496) - 4503599627370496)%float in
    let fl := if (a <? r)%float then (r - 1)%float else r in
    let frac := (a - fl)%float in
    if (x <? 0)%float
    then (- (if (0.5 <? frac)%float then fl + 1 else fl))%float
    else (if (0.5 <=? frac)%float then fl + 1 else fl)%float
  else x.

Definition first (l : list float) : float := nth 0 l PrimFloat.nan.

(** Execute weather tool *)
Definition executeWeatherTool {X} (params : WeatherToolParams)
  : M X WeatherToolResponse :=
  emit (EvExecuteTool params) ;;;
  try_catch
    ((* 1. Get coordinates *)
     coords <- getCoordinates (location params) ;;
     (* 2. Parse date *)
     w <- ask ;;
     today <- now ;;
     let parsed := parseDate (tza w) today (date params) in
     (* 3. Build weather API URL *)
     match coords with
     | Hollow _ => throw TypeError
     | Known la ln cty ctry =>
         let url :=
           match dateType parsed, targetDate parsed with
           | Historical, Some (c :: d) => ArchiveDaily la ln (c :: d)
           | Forecast, Some (c :: d) => ForecastDaily la ln (c :: d)
           | _, _ => ForecastCurrent la ln
           end in
         (* 4. Fetch weather data *)
         r <- fetchWeather url ;;
         match r with
         | Rejected => throw FetchRejected
         | Reply false status _ => throw (WeatherApiError status)
         | Reply true _ None => throw SyntaxError
         | Reply true _ (Some data) =>
             (* 5. Process weather data *)
             match dateType parsed with
             | Current =>
                 match current data with
                 | None => throw TypeError
                 | Some cur =>
                     ret {| city := cty;
                            country := ctry;
                            temperature := Math_round (temperature_2m cur);
                            description := describe (Some (weather_code cur));
                            humidity := relative_humidity_2m cur;
                            windSpeed := wind_speed_10m cur;
                            precipitation := cur_precipitation cur;
                            uvIndex := uv_index cur;
                            timestamp := time cur;
                            Wire.dateType := Current;
                            Wire.targetDate := None |}
                 end
             | _ =>
                 match daily data with
                 | None => throw NoWeatherData
                 | Some dl =>
                     match daily_time dl with
                     | None | Some [] => throw NoWeatherData
                     | Some (t0 :: _) =>
                         ret {| city := cty;
                                country := ctry;
                                temperature :=
                                  Math_round ((first (temperature_2m_max dl)
                                               + first (temperature_2m_min dl)) / 2)%float;
                                description := describe (head (daily_weather_code dl));
                                humidity := first (relative_humidity_2m_max dl);
                                windSpeed := first (wind_speed_10m_max dl);
                                precipitation := first (precipitation_sum dl);
                                uvIndex := first (uv_index_max dl);
                                timestamp := t0;
                                Wire.dateType := dateType parsed;
                                Wire.targetDate := targetDate parsed |}
                     end
                 end
             end
         end
     end)
    (fun error => throw error).

End WeatherTools.


(* ===================================================================== *)
(** ** The chat routes *)
(* ===================================================================== *)

(** What the two [POST] handlers share. *)
Module Route.
Import Wire Eff.
Local Open Scope eff_scope.

(** [NextResponse.json(b)] and [NextResponse.json(b, { status: 500 })] *)
Definition json (b : Body) : HttpResponse := {| http_status := 200; body := b |}.
Definition json500 (b : Body) : HttpResponse := {| http_status := 500; body := b |}.

(** [language === 'ja'], with the default ['en'] of the destructuring. *)
Definition japanese (language : option Js.str) : bool :=
  Js.eqb (default (js"en") language) (js"ja").

Definition fetchCompletion {X} (req : CompletionRequest)
  : M X (Fetched CompletionBody) :=
  emit (EvCompletion req) ;;;
  w <- ask ;;
  ret (completions w req).

(** [if (!response.ok) throw ...; await response.json()] *)
Definition checked {X B} (notOk : Z -> Error) (r : Fetched B) : M X B :=
  match r with
  | Rejected => throw FetchRejected
  | Reply false status _ => throw (notOk status)
  | Reply true _ None => throw SyntaxError
  | Reply true _ (Some b) => ret b
  end.

(** [completion.choices[0].message] *)
Definition firstChoice {X} (c : CompletionBody) : M X AssistantMessage :=
  match choices c with
  | [] => throw TypeError
  | m :: _ => ret m
  end.

Definition keyMissing : HttpResponse :=
  json500 {| response := None; weatherData := None; toolsUsed := None;
             multiCity := None; toolUsed := None;
             error := Some (ErrorText (js"OpenAI API key not found")) |}.

Definition fallbackMessage (language : option Js.str) : Js.str :=
  if japanese language
  then js"すみません、エラーが発生しました。もう一度お試しください。"
  else js"Sorry, an error occurred. Please try again.".

Definition fallback (language : option Js.str) : HttpResponse :=
  json500 {| response := Some (fallbackMessage language);
             weatherData := None; toolsUsed := None; multiCity := None;
             toolUsed := None; error := Some ErrorTrue |}.

Definition direct (message : AssistantMessage) : HttpResponse :=
  json {| response := a_content message; weatherData := None;
          toolsUsed := None; multiCity := None;
          toolUsed := Some false; error := None |}.

Definition failed (errorMessage : Js.str) : HttpResponse :=
  json {| response := Some errorMessage; weatherData := None;
          toolsUsed := None; multiCity := None;
          toolUsed := None; error := Some ErrorTrue |}.

End Route.

(** [src/app/api/chat-optimized/route.ts]: one tool call per turn. *)
Module ChatOptimized.
Import Wire Eff Route.
Local Open Scope eff_scope.

Definition errorMessage (language : option Js.str) (toolArgs : WeatherToolParams)
  : Js.str :=
  if japanese language
  then js"申し訳ございませんが、" ++ location toolArgs
       ++ js"の天気情報を取得できませんでした。別の都市名をお試しください。"
  else js"Sorry, I couldn't get weather information for " ++ location toolArgs
       ++ js". Please try a different city name.".

Definition POST {X} (req : ChatRequest) : M X HttpResponse :=
  let messages := req_messages req in
  let language := req_language req in
  w <- ask ;;
  match apiKey w with
  | None | Some [] => ret keyMissing
  | Some (_ :: _) =>
      try_catch
        ((* Single OpenAI call with tool calling *)
         response <- fetchCompletion
           {| Wire.messages :=
                MSystem (AssistantPrompt (japanese language)) :: map MChat messages;
              with_tools := true |} ;;
         completion <- checked OpenAIError response ;;
         message <- firstChoice completion ;;
         (* Check if OpenAI wants to call the weather tool *)
         match tool_calls message with
         | Some (toolCall :: _) =>
             match arguments toolCall with
             | None => throw SyntaxError
             | Some toolArgs =>
                 try_catch
                   ((* Execute the weather tool *)
                    weatherResult <- WeatherTools.executeWeatherTool toolArgs ;;
                    (* Send the tool result back to OpenAI for final formatting *)
                    finalResponse <- fetchCompletion
                      {| Wire.messages :=
                           MSystem (FormattingPrompt (japanese language))
                           :: map MChat messages
                           ++ [MAssistant message; MTool (id toolCall) weatherResult];
                         with_tools := false |} ;;
                    finalCompletion <- checked OpenAIFinalError finalResponse ;;
                    finalMessage <- firstChoice finalCompletion ;;
                    ret (json {| response := a_content finalMessage;
                                 weatherData := Some (Single weatherResult);
                                 toolsUsed := None; multiCity := None;
                                 toolUsed := Some true; error := None |}))
                   (fun toolError => ret (failed (errorMessage language toolArgs)))
             end
         | _ =>
             (* No tool call needed, return direct response *)
             ret (direct message)
         end)
        (fun error => ret (fallback language))
  end.

End ChatOptimized.

(** The multi-tool handler (the second [POST] of
    [src/app/compare/page.tsx], served as [/api/chat]): every requested
    tool call is executed, in parallel. *)
Module Chat.
Import Wire Eff Route.
Local Open Scope eff_scope.

Definition errorMessage (language : option Js.str) : Js.str :=
  if japanese language
  then js"申し訳ございませんが、天気情報を取得できませんでした。別の都市名をお試しください。"
  else js"Sorry, I couldn't get weather information. Please try different city names.".

Definition defaultMessage (language : option Js.str) : Js.str :=
  if japanese language
  then js"こんにちは！天気や旅行、ファッションについて何でもお聞きください。"
  else js"Hello! Ask me anything about weather, travel, or fashion recommendations.".

(** [d.getFullYear()] of a fresh [new Date()] *)
Definition currentYear {X} : M X Z :=
  w <- ask ;;
  t <- now ;;
  ret (JsDate.YearFromTime (JsDate.LocalTime (tza w) t)).

(** The first system prompt reads the clock five times. *)
Definition datedPrompt {X} (language : option Js.str) : M X Prompt :=
  t <- now ;;
  y1 <- currentYear ;;
  y2 <- currentYear ;;
  y3 <- currentYear ;;
  y4 <- currentYear ;;
  ret (DatedAssistantPrompt (JsDate.isoDate t) [y1; y2; y3; y4] (japanese language)).

(** The callback mapped over [message.tool_calls]. *)
Definition runToolCall {X} (toolCall : ToolCall)
  : M X (Js.str * WeatherToolResponse) :=
  match arguments toolCall with
  | None => throw SyntaxError
  | Some toolArgs =>
      result <- WeatherTools.executeWeatherTool toolArgs ;;
      ret (id toolCall, result)
  end.

(** [toolResults.map(({ tool_call_id, result }) => ({ role: 'tool', ... }))] *)
Definition toolMessages (toolResults : list (Js.str * WeatherToolResponse))
  : list Msg :=
  map (fun r => MTool (fst r) (snd r)) toolResults.

Definition finalRequest (language : option Js.str) (messages : list ChatMessage)
    (message : AssistantMessage)
    (toolResults : list (Js.str * WeatherToolResponse)) : CompletionRequest :=
  {| Wire.messages :=
       MSystem (ComparisonFormattingPrompt (japanese language))
       :: map MChat messages ++ [MAssistant message] ++ toolMessages toolResults;
     with_tools := false |}.

Definition POST {X} (req : ChatRequest) : M X HttpResponse :=
  let messages := req_messages req in
  let language := req_language req in
  w <- ask ;;
  match apiKey w with
  | None | Some [] => ret keyMissing
  | Some (_ :: _) =>
      match list.last messages with
      | Some {| role := user |} =>
          try_catch
            (prompt <- datedPrompt language ;;
             (* Single OpenAI call with tool calling *)
             response <- fetchCompletion
               {| Wire.messages := MSystem prompt :: map MChat messages;
                  with_tools := true |} ;;
             completion <- checked OpenAIError response ;;
             message <- firstChoice completion ;;
             (* Check if OpenAI wants to call weather tools *)
             match tool_calls message with
             | Some (toolCall :: more) =>
                 try_catch
                   ((* Execute all tool calls in parallel *)
                    toolResults <- Promise_all (map runToolCall (toolCall :: more)) ;;
                    (* Send all tool results back to OpenAI for final formatting *)
                    finalResponse <- fetchCompletion
                      (finalRequest language messages message toolResults) ;;
                    finalCompletion <- checked OpenAIFinalError finalResponse ;;
                    finalMessage <- firstChoice finalCompletion ;;
                    ret (json {| response := a_content finalMessage;
                                 weatherData := Some (Many (map snd toolResults));
                                 toolsUsed := Some (Z.of_nat (length toolResults));
                                 multiCity := Some (1 <? Z.of_nat (length toolResults))%Z;
                                 toolUsed := None; error := None |}))
                   (fun toolError => ret (failed (errorMessage language)))
             | _ =>
                 (* No tool call needed, return direct response *)
                 ret (direct message)
             end)
            (fun error => ret (fallback language))
      | _ =>
          (* If no valid message, return default response *)
          ret (json {| response := Some (defaultMessage language);
                       weatherData := None; toolsUsed := None;
                       multiCity := None; toolUsed := Some false;
                       error := None |})
      end
  end.

End Chat.

(* ===================================================================== *)
(** ** [src/lib/contextManager.ts]: the context data model *)
(* ===================================================================== *)

Module Context.

Record LocationData := {
  city : Js.str;
  country : Js.str;
  latitude : float;
  longitude : float;
  timezone : option Js.str;
  confidence : option float;
  lastUsed : option Js.str
}.

(** An entry of [recentDates]. *)
Record RecentDate := {
  date : Js.str;
  type : DateType;
  date_lastUsed : Js.str
}.

Record TemporalContext := {
  currentTimeframe : DateType;
  targetDate : option Js.str;
  recentDates : list RecentDate;
  relativeDateContext : option Js.str
}.

Inductive QueryIntent := weather | clothing | travel | comparison | general.

Inductive FlowType := FlowLocation | FlowDate | FlowIntent.

(** An entry of [conversationFlow]. *)
Record FlowItem := {
  flow_type : FlowType;
  value : Js.str;
  timestamp : Js.str
}.

Record ConversationContext := {
  lastWeatherQuery : Js.str;
  queryIntent : QueryIntent;
  followUpContext : option Js.str;
  conversationFlow : list FlowItem;
  lastResponse : option Js.str
}.

Inductive Language := en | ja.
Inductive Units := metric | imperial.
Inductive DetailLevel := basic | detailed.

Record UserPreferences := {
  language : Language;
  units : Units;
  detailLevel : DetailLevel;
  favoriteLocations : list LocationData;
  defaultLocation : option LocationData
}.

(** [WeatherContext['location']] *)
Record LocationContext := {
  current : option LocationData;
  recent : list LocationData;
  location_preferences : list Js.str
}.

(** [WeatherContext['session']] *)
Record SessionInfo := {
  startTime : Js.str;
  lastActivity : Js.str;
  messageCount : Z
}.

Record WeatherContext := {
  location : LocationContext;
  temporal : TemporalContext;
  conversation : ConversationContext;
  preferences : UserPreferences;
  session : SessionInfo
}.

(** [Partial<WeatherContext>] *)
Record PartialContext := {
  p_location : option LocationContext;
  p_temporal : option TemporalContext;
  p_conversation : option ConversationContext;
  p_preferences : option UserPreferences;
  p_session : option SessionInfo
}.

Definition nothing : PartialContext :=
  {| p_location := None; p_temporal := None; p_conversation := None;
     p_preferences := None; p_session := None |}.

(** [{ ...c, ...p }] *)
Definition spread (c : WeatherContext) (p : PartialContext) : WeatherContext :=
  {| location := default (location c) (p_location p);
     temporal := default (temporal c) (p_temporal p);
     conversation := default (conversation c) (p_conversation p);
     preferences := default (preferences c) (p_preferences p);
     session := default (session c) (p_session p) |}.

Definition with_location (l : LocationContext) (c : WeatherContext) : WeatherContext :=
  {| location := l; temporal := temporal c; conversation := conversation c;
     preferences := preferences c; session := session c |}.

Definition with_temporal (t : TemporalContext) (c : WeatherContext) : WeatherContext :=
  {| location := location c; temporal := t; conversation := conversation c;
     preferences := preferences c; session := session c |}.

Definition with_conversation (v : ConversationContext) (c : WeatherContext)
  : WeatherContext :=
  {| location := location c; temporal := temporal c; conversation := v;
     preferences := preferences c; session := session c |}.

Definition with_session (i : SessionInfo) (c : WeatherContext) : WeatherContext :=
  {| location := location c; temporal := temporal c;
     conversation := conversation c; preferences := preferences c;
     session := i |}.

(** [loc.city === location.city && loc.country === location.country] *)
Definition samePlace (location loc : LocationData) : bool :=
  Js.eqb (city loc) (city location) && Js.eqb (country loc) (country location).

(** The identity of a location. *)
Definition place (l : LocationData) : Js.str * Js.str := (city l, country l).

(** The context both stores start from, up to the default language. *)
Definition emptyContext (lang : Language) (startTime lastActivity : Js.str)
  : WeatherContext :=
  {| location := {| current := None; recent := []; location_preferences := [] |};
     temporal := {| currentTimeframe := Current; targetDate := None;
                    recentDates := []; relativeDateContext := None |};
     conversation := {| lastWeatherQuery := []; queryIntent := general;
                        followUpContext := None; conversationFlow := [];
                        lastResponse := None |};
     preferences := {| language := lang; units := metric;
                       detailLevel := detailed; favoriteLocations := [];
                       defaultLocation := None |};
     session := {| startTime := startTime; lastActivity := lastActivity;
                   messageCount := 0 |} |}.

Definition intentName (i : QueryIntent) : Js.str :=
  match i with
  | weather => js"weather"
  | clothing => js"clothing"
  | travel => js"travel"
  | comparison => js"comparison"
  | general => js"general"
  end.

(** [l.slice(-n)] *)
Definition lastN {A} (n : nat) (l : list A) : list A := drop (length l - n) l.

End Context.

(* ===================================================================== *)
(** ** [ContextManager]: the client-side store *)
(* ===================================================================== *)

Module ContextManager.
Import Eff Context.
Local Open Scope eff_scope.

(** The manager's mutable state: [this.context], and the item kept in
    [localStorage] under [STORAGE_KEY] (held as the context its JSON
    text encodes).  The methods are embedded; the restore step of the
    constructor ([loadPersistedContext]) is not. *)
Record Manager := {
  context : WeatherContext;
  stored : option WeatherContext
}.

Definition MAX_RECENT_LOCATIONS : nat := 5.
Definition MAX_RECENT_DATES : nat := 10.

Definition initializeContext : M Manager WeatherContext :=
  t1 <- now ;;
  t2 <- now ;;
  ret (emptyContext ja (JsDate.toISOString t1) (JsDate.toISOString t2)).

Definition getContext : M Manager WeatherContext :=
  m <- get ;; ret (context m).

Definition setContext (c : WeatherContext) : M Manager unit :=
  modify (fun m => {| context := c; stored := stored m |}).

Definition persistContext : M Manager unit :=
  w <- ask ;;
  if hasWindow w then
    t <- now ;;
    c <- getContext ;;
    let c' := with_session {| startTime := startTime (session c);
                              lastActivity := JsDate.toISOString t;
                              messageCount := messageCount (session c) |} c in
    put {| context := c'; stored := Some c' |}
  else ret tt.

Definition clearPersistedContext : M Manager unit :=
  w <- ask ;;
  if hasWindow w
  then modify (fun m => {| context := context m; stored := None |})
  else ret tt.

Definition addToConversationFlow (ty : FlowType) (v : Js.str) : M Manager unit :=
  t <- now ;;
  c <- getContext ;;
  let cv := conversation c in
  let pushed := conversationFlow cv
                ++ [{| flow_type := ty; value := v;
                       timestamp := JsDate.toISOString t |}] in
  (* Keep only recent flow items (last 20) *)
  let flow := if (20 <? length pushed)%nat then lastN 20 pushed else pushed in
  setContext
    (with_conversation
       {| lastWeatherQuery := lastWeatherQuery cv;
          queryIntent := queryIntent cv;
          followUpContext := followUpContext cv;
          conversationFlow := flow;
          lastResponse := lastResponse cv |} c).

(** [location.confidence || 1.0] *)
Definition confidenceOr1 (c : option float) : float :=
  match c with
  | Some x => if (x =? 0)%float || negb (x =? x)%float then 1%float else x
  | None => 1%float
  end.

(** Location Management *)
Definition updateLocation (location : LocationData) : M Manager unit :=
  t <- now ;;
  c <- getContext ;;
  (* Set as current location *)
  let cur := {| city := city location; country := country location;
                latitude := latitude location; longitude := longitude location;
                timezone := timezone location;
                confidence := Some (confidenceOr1 (confidence location));
                lastUsed := Some (JsDate.toISOString t) |} in
  (* Add to recent locations (avoid duplicates) *)
  let filtered :=
    filter (fun loc => negb (samePlace location loc) = true)
           (recent (Context.location c)) in
  let unshifted := cur :: filtered in
  (* Keep only recent locations *)
  let kept := if (MAX_RECENT_LOCATIONS <? length unshifted)%nat
              then take MAX_RECENT_LOCATIONS unshifted else unshifted in
  setContext
    (with_location
       {| current := Some cur; recent := kept;
          location_preferences := location_preferences (Context.location c) |} c) ;;;
  addToConversationFlow FlowLocation
    (city location ++ js", " ++ country location) ;;;
  persistContext.

Definition getCurrentLocation : M Manager (option LocationData) :=
  c <- getContext ;; ret (current (location c)).

Definition getRecentLocations : M Manager (list LocationData) :=
  c <- getContext ;; ret (recent (location c)).

(** Temporal Context Management *)
Definition updateTemporalContext (timeframe : DateType)
    (targetDate relativeDateContext : option Js.str) : M Manager unit :=
  c <- getContext ;;
  let tc := temporal c in
  setContext
    (with_temporal
       {| currentTimeframe := timeframe;
          Context.targetDate := Js.orNull targetDate;
          recentDates := recentDates tc;
          Context.relativeDateContext := relativeDateContext |} c) ;;;
  (match targetDate with
   | Some (u :: d) =>
       if bool_decide (timeframe <> Current) then
         let targetDate := u :: d in
         t <- now ;;
         c <- getContext ;;
         let tc := temporal c in
         (* Add to recent dates *)
         let filtered :=
           filter (fun r => negb (Js.eqb (date r) targetDate) = true)
                  (recentDates tc) in
         let unshifted :=
           {| date := targetDate; type := timeframe;
              date_lastUsed := JsDate.toISOString t |} :: filtered in
         (* Keep only recent dates *)
         let kept := if (MAX_RECENT_DATES <? length unshifted)%nat
                     then take MAX_RECENT_DATES unshifted else unshifted in
         setContext
           (with_temporal
              {| currentTimeframe := currentTimeframe tc;
                 Context.targetDate := Context.targetDate tc;
                 recentDates := kept;
                 Context.relativeDateContext := Context.relativeDateContext tc |} c) ;;;
         addToConversationFlow FlowDate
           (if Js.truthy relativeDateContext
            then default [] relativeDateContext else targetDate)
       else ret tt
   | _ => ret tt
   end) ;;;
  persistContext.

Definition getCurrentTimeframe : M Manager TemporalContext :=
  c <- getContext ;; ret (temporal c).

(** Conversation Context Management *)
Definition updateConversationContext (query : Js.str) (intent : QueryIntent)
    (followUpContext : option Js.str) : M Manager unit :=
  c <- getContext ;;
  let cv := conversation c in
  let si := session c in
  setContext
    (with_session
       {| startTime := startTime si; lastActivity := lastActivity si;
          messageCount := messageCount si + 1 |}
       (with_conversation
          {| lastWeatherQuery := query;
             queryIntent := intent;
             Context.followUpContext := Js.orNull followUpContext;
             conversationFlow := conversationFlow cv;
             lastResponse := lastResponse cv |} c)) ;;;
  addToConversationFlow FlowIntent (intentName intent) ;;;
  persistContext.

(** The result of [resolveImplicitContext]. *)
Record Resolution := {
  res_location : option LocationData;
  res_temporal : TemporalContext;
  needsLocationInput : bool;
  needsTimeInput : bool;
  contextualQuery : Js.str
}.

(** [/の天気|で|に/.test(query)] *)
Definition japaneseMarker (query : Js.str) : bool :=
  Js.includes (js"の天気") query || Js.includes (js"で") query
  || Js.includes (js"に") query.

(** [/in |at |for /.test(query.toLowerCase())] *)
Definition englishMarker (query : Js.str) : bool :=
  let q := Js.toLowerCase query in
  Js.includes (js"in ") q || Js.includes (js"at ") q || Js.includes (js"for ") q.

Definition hasExplicitLocation (query : Js.str) (language : option Js.str) : bool :=
  if Js.eqb (default (js"en") language) (js"ja")
  then japaneseMarker query
  else englishMarker query.

(** [`${city}の${query}`] or [`${query} in ${city}`] *)
Definition withCity (language : option Js.str) (cty query : Js.str) : Js.str :=
  if Js.eqb (default (js"en") language) (js"ja")
  then cty ++ js"の" ++ query
  else query ++ js" in " ++ cty.

(** Simple Context Resolution (client-side) *)
Definition resolveImplicitContext (query : Js.str) (language : option Js.str)
  : M Manager Resolution :=
  c <- getContext ;;
  let explicit := hasExplicitLocation query language in
  let cur := current (location c) in
  (* Determine if we need more input *)
  let needsLocationInput := negb explicit && negb (bool_decide (is_Some cur)) in
  let needsTimeInput := false in
  (* Create enhanced query with context *)
  let contextualQuery :=
    match cur with
    | Some l => if negb explicit then withCity language (city l) query else query
    | None => query
    end in
  ret {| res_location := cur; res_temporal := temporal c;
         needsLocationInput := needsLocationInput;
         needsTimeInput := needsTimeInput;
         contextualQuery := contextualQuery |}.

Definition clearContext : M Manager unit :=
  c <- initializeContext ;;
  setContext c ;;;
  clearPersistedContext.

End ContextManager.

(* ===================================================================== *)
(** ** [SessionStore] and [resolveContextWithSession]: the server side *)
(* ===================================================================== *)

Module SessionStore.
Import Eff Context.
Local Open Scope eff_scope.
Local Open Scope Z_scope.

(** [WeatherSession]; the two [Date]s are held as time values. *)
Record WeatherSession := {
  sessionId : Js.str;
  context : WeatherContext;
  lastActivity : Z;
  expiresAt : Z
}.

(** [this.sessions] *)
Abbreviation Sessions := (gmap Js.str WeatherSession).

Definition SESSION_TIMEOUT : Z := 24 * 60 * 60 * 1000. (* 24 hours *)

(** Decimal numeral of a non-negative integer ([fuel] digits at most). *)
Fixpoint numeral (fuel : nat) (n : Z) : Js.str :=
  match fuel with
  | O => []
  | S f => (if n <? 10 then [] else numeral f (n / 10))
           ++ [Z.to_N (48 + n mod 10)]
  end.

(** [generateSessionId]; [suffix] is what
    [Math.random().toString(36).substr(2, 9)] evaluates to. *)
Definition generateSessionId (suffix : Js.str) : M Sessions Js.str :=
  t <- now ;;
  ret (js"session_" ++ numeral 20 t ++ js"_" ++ suffix).

Definition createSession (suffix : Js.str) (initialContext : PartialContext)
  : M Sessions WeatherSession :=
  sessionId <- generateSessionId suffix ;;
  t <- now ;;
  let session :=
    {| sessionId := sessionId;
       context := spread (emptyContext en (JsDate.toISOString t)
                                       (JsDate.toISOString t))
                         initialContext;
       lastActivity := t;
       expiresAt := t + SESSION_TIMEOUT |} in
  modify (fun sessions : Sessions => <[sessionId := session]> sessions) ;;;
  ret session.

Definition getSession (sessionId : Js.str) : M Sessions (option WeatherSession) :=
  sessions <- get ;;
  match (sessions : Sessions) !! sessionId with
  | None => ret None
  | Some session =>
      (* Check if session is expired *)
      t <- now ;;
      if expiresAt session <? t then
        modify (fun sessions : Sessions => delete sessionId sessions) ;;;
        ret None
      else ret (Some session)
  end.

Definition updateSession (sessionId : Js.str) (updates : PartialContext)
  : M Sessions (option WeatherSession) :=
  o <- getSession sessionId ;;
  match o with
  | None => ret None
  | Some session =>
      t1 <- now ;;
      (* Update context *)
      let context' :=
        with_session
          {| startTime := startTime (Context.session (context session));
             Context.lastActivity := JsDate.toISOString t1;
             messageCount := messageCount (Context.session (context session)) + 1 |}
          (spread (context session) updates) in
      t2 <- now ;;
      t3 <- now ;;
      let session' :=
        {| sessionId := SessionStore.sessionId session;
           context := context';
           lastActivity := t2;
           expiresAt := t3 + SESSION_TIMEOUT |} in
      (* the session object held by the map is mutated in place *)
      modify (fun sessions : Sessions => <[sessionId := session']> sessions) ;;;
      ret (Some session')
  end.

Definition updateLocation (sessionId : Js.str) (location : LocationData)
  : M Sessions (option WeatherSession) :=
  o <- getSession sessionId ;;
  match o with
  | None => ret None
  | Some session =>
      let loc := Context.location (context session) in
      (* Update location context *)
      let updatedContext :=
        {| p_location :=
             Some {| current := Some location;
                     recent :=
                       take 5 (* Keep only 5 recent locations *)
                         (location ::
                          filter (fun l => negb (samePlace location l) = true)
                                 (recent loc));
                     location_preferences := location_preferences loc |};
           p_temporal := None; p_conversation := None;
           p_preferences := None; p_session := None |} in
      updateSession sessionId updatedContext
  end.

Definition updateTemporal (sessionId : Js.str) (timeframe : DateType)
    (targetDate : option Js.str) : M Sessions (option WeatherSession) :=
  o <- getSession sessionId ;;
  match o with
  | None => ret None
  | Some session =>
      let tc := temporal (context session) in
      recentDates' <-
        match targetDate with
        | Some (u :: d) =>
            t <- now ;;
            ret (take 10
                   ({| date := u :: d; type := timeframe;
                       date_lastUsed := JsDate.toISOString t |} ::
                    filter (fun r => negb (Js.eqb (date r) (u :: d)) = true)
                           (recentDates tc)))
        | _ => ret (recentDates tc)
        end ;;
      let updatedContext :=
        {| p_location := None;
           p_temporal :=
             Some {| currentTimeframe := timeframe;
                     Context.targetDate := Js.orNull targetDate;
                     recentDates := recentDates';
                     relativeDateContext := None |};
           p_conversation := None; p_preferences := None; p_session := None |} in
      updateSession sessionId updatedContext
  end.

Definition updateConversation (sessionId : Js.str) (query : Js.str)
    (intent : QueryIntent) : M Sessions (option WeatherSession) :=
  o <- getSession sessionId ;;
  match o with
  | None => ret None
  | Some session =>
      t <- now ;;
      let updatedContext :=
        {| p_location := None; p_temporal := None;
           p_conversation :=
             Some {| lastWeatherQuery := query;
                     queryIntent := intent;
                     followUpContext := None;
                     conversationFlow :=
                       lastN 20 (* Keep only last 20 flow items *)
                         (conversationFlow (conversation (context session))
                          ++ [{| flow_type := FlowIntent;
                                 value := intentName intent;
                                 timestamp := JsDate.toISOString t |}]);
                     lastResponse := None |};
           p_preferences := None; p_session := None |} in
      updateSession sessionId updatedContext
  end.

(** Cleanup expired sessions *)
Definition cleanup : M Sessions unit :=
  t <- now ;;
  modify (fun sessions : Sessions =>
            filter (fun kv => ~ (expiresAt (snd kv) < t)) sessions).

(** The result of [resolveContextWithSession]. *)
Record Resolution := {
  session : option WeatherSession;
  needsLocationInput : bool;
  needsTimeInput : bool;
  contextualQuery : Js.str
}.

(** Check for basic location indicators *)
Definition hasLocationIndicators (query : Js.str) (language : option Js.str) : bool :=
  if Js.eqb (default (js"en") language) (js"ja")
  then ContextManager.japaneseMarker query || (10 <? Js.length query)
  else (let q := Js.toLowerCase query in
        Js.includes (js"in ") q || Js.includes (js"at ") q
        || Js.includes (js"for ") q || Js.includes (js"weather") q)
       || (10 <? Js.length query).

(** Context resolution with session.  With a live session the function
    goes on to read [hasExplicitLocation], an identifier that is declared
    nowhere in its scope: evaluating it throws a ReferenceError. *)
Definition resolveContextWithSession (sessionId query : Js.str)
    (language : option Js.str) : M Sessions Resolution :=
  o <- getSession sessionId ;;
  let indicators := hasLocationIndicators query language in
  match o with
  | None =>
      (* Only ask for location if query is very short and has no location
         indicators *)
      let needsLocationInput :=
        negb indicators && (Js.length (Js.trim query) <? 8) in
      ret {| session := None;
             needsLocationInput := needsLocationInput;
             needsTimeInput := false;
             contextualQuery := query |}
  | Some session =>
      throw (ReferenceError "hasExplicitLocation")
  end.

End SessionStore.

(* ===================================================================== *)
(** ** Vocabulary of the statements below *)
(* ===================================================================== *)

Module Vocabulary.

(** The four words [parseDate] switches on. *)
Definition dateKeywords : list Js.str :=
  [js"today"; js"now"; js"tomorrow"; js"yesterday"].

(** The identities of a list of locations, in order. *)
Definition places (l : list Context.LocationData) : list (Js.str * Js.str) :=
  map Context.place l.

(** Using a place moves it to the front of the order. *)
Definition touch (p : Js.str * Js.str) (order : list (Js.str * Js.str))
  : list (Js.str * Js.str) :=
  p :: filter (fun q => q <> p) order.

(** The most-recently-used order, unbounded: the places of [before], each
    call of [calls] (oldest first) moved to the front in turn. *)
Definition mru (calls before : list (Js.str * Js.str)) : list (Js.str * Js.str) :=
  fold_left (fun order p => touch p order) calls before.

(** The temporal invariant of the data model: a current timeframe has no
    target date. *)
Definition temporalInvariant (t : Context.TemporalContext) : Prop :=
  Context.currentTimeframe t = Current -> Context.targetDate t = None.

End Vocabulary.

(** Sequences of calls. *)
Module Sequences.
Import Eff Context.
Local Open Scope eff_scope.

(** [contextManager.updateLocation(l)] for each [l] of [locs], in order. *)
Fixpoint managerUpdateLocations (locs : list LocationData)
  : M ContextManager.Manager unit :=
  match locs with
  | [] => ret tt
  | l :: rest => ContextManager.updateLocation l ;;; managerUpdateLocations rest
  end.

(** [sessionStore.updateLocation(sessionId, l)] for each [l] of [locs], in
    order, whatever each call returns. *)
Fixpoint storeUpdateLocations (sessionId : Js.str) (locs : list LocationData)
  : M (gmap Js.str SessionStore.WeatherSession) unit :=
  match locs with
  | [] => ret tt
  | l :: rest =>
      SessionStore.updateLocation sessionId l ;;;
      storeUpdateLocations sessionId rest
  end.

End Sequences.

(* ===================================================================== *)
(** ** Describing runs *)
(* ===================================================================== *)

Module Runs.
Import Eff Context SessionStore.
Local Open Scope Z_scope.

(** The next clock reading of a state. *)
Definition reading (w : World) {X} (s : St X) : Z := clock w (ticks s).

(** The state after one clock reading. *)
Definition ticked {X} (s : St X) : St X :=
  {| ticks := S (ticks s); log := log s; data := data s |}.

(** The state with its data replaced. *)
Definition holding {X} (s : St X) (x : X) : St X :=
  {| ticks := ticks s; log := log s; data := x |}.

(** What [updateSession] does to a session it finds alive. *)
Definition updated (w : World) (s : St Sessions) (session : WeatherSession)
    (updates : PartialContext) : WeatherSession :=
  {| sessionId := sessionId session;
     context :=
       with_session
         {| startTime := startTime (Context.session (context session));
            Context.lastActivity := JsDate.toISOString (clock w (S (ticks s)));
            messageCount := messageCount (Context.session (context session)) + 1 |}
         (spread (context session) updates);
     lastActivity := clock w (S (S (ticks s)));
     expiresAt := clock w (S (S (S (ticks s)))) + SESSION_TIMEOUT |}.

End Runs.

(* ===================================================================== *)
(** ** Phases of a turn *)
(* ===================================================================== *)

Module Rounds.
Import Wire Eff Route.
Local Open Scope eff_scope.

(** The first round trip of the multi-tool handler, up to the assistant
    message it reads off the completion. *)
Definition chatFirstRound {X} (req : ChatRequest) : M X AssistantMessage :=
  prompt <- Chat.datedPrompt (req_language req) ;;
  response <- fetchCompletion
    {| Wire.messages := MSystem prompt :: map MChat (req_messages req);
       with_tools := true |} ;;
  completion <- checked OpenAIError response ;;
  firstChoice completion.

(** The first round trip of the single-tool handler. *)
Definition optimizedFirstRound {X} (req : ChatRequest) : M X AssistantMessage :=
  response <- fetchCompletion
    {| Wire.messages :=
         MSystem (AssistantPrompt (japanese (req_language req)))
         :: map MChat (req_messages req);
       with_tools := true |} ;;
  completion <- checked OpenAIError response ;;
  firstChoice completion.

(** The second completion request of the single-tool handler. *)
Definition optimizedFinalRequest (req : ChatRequest) (message : AssistantMessage)
    (toolCall : ToolCall) (weatherResult : WeatherToolResponse) : CompletionRequest :=
  {| Wire.messages :=
       MSystem (FormattingPrompt (japanese (req_language req)))
       :: map MChat (req_messages req)
       ++ [MAssistant message; MTool (id toolCall) weatherResult];
     with_tools := false |}.

(** The weather lookups a log records, oldest first: the arguments of each
    [executeWeatherTool] call. *)
Fixpoint lookups (l : list Event) : list WeatherToolParams :=
  match l with
  | [] => []
  | EvExecuteTool params :: rest => params :: lookups rest
  | _ :: rest => lookups rest
  end.

(** A computation that performs no lookup, however it ends. *)
Definition quiet {X A} (m : M X A) : Prop :=
  forall (w : World) (s s' : St X) r,
    m w s = (r, s') -> lookups (log s') = lookups (log s).

End Rounds.

(* ===================================================================== *)
(** ** Sample worlds *)
(* ===================================================================== *)

Module Samples.
Import Wire Eff.

(** A world in which every request is rejected. *)
Definition offline : World :=
  {| clock := fun _ => 0%Z; tza := 0%Z; apiKey := None; hasWindow := false;
     geocoder := fun _ => Rejected;
     weatherApi := fun _ => Rejected;
     completions := fun _ => Rejected |}.

(** Noon (UTC) of 2025-06-01, and a clock that advances one millisecond
    per reading from there. *)
Definition noon : Z := 1748779200000.

Definition server : World :=
  {| clock := fun n => (noon + Z.of_nat n)%Z; tza := 0%Z;
     apiKey := Some (js"sk-test"); hasWindow := false;
     geocoder := fun _ => Rejected;
     weatherApi := fun _ => Rejected;
     completions := fun _ => Rejected |}.

Definition browser : World :=
  {| clock := fun n => (noon + Z.of_nat n)%Z; tza := 0%Z;
     apiKey := None; hasWindow := true;
     geocoder := fun _ => Rejected;
     weatherApi := fun _ => Rejected;
     completions := fun _ => Rejected |}.

Definition located (c k : string) (la ln : float) : Context.LocationData :=
  {| Context.city := js c; Context.country := js k;
     Context.latitude := la; Context.longitude := ln;
     Context.timezone := None; Context.confidence := None;
     Context.lastUsed := None |}.

Definition varanasi : Context.LocationData := located "Varanasi" "India" 25.3176 82.9739.
Definition tokyo : Context.LocationData := located "Tokyo" "Japan" 35.6762 139.6503.
Definition london : Context.LocationData := located "London" "UK" 51.5074 (-0.1278).

Definition freshContext : Context.WeatherContext :=
  Context.emptyContext Context.en (js"2025-06-01T11:00:00.000Z")
                       (js"2025-06-01T11:00:00.000Z").

(** A session created an hour before noon. *)
Definition freshSession : SessionStore.WeatherSession :=
  {| SessionStore.sessionId := js"session_1";
     SessionStore.context := freshContext;
     SessionStore.lastActivity := (noon - 3600000)%Z;
     SessionStore.expiresAt := (noon - 3600000 + SessionStore.SESSION_TIMEOUT)%Z |}.

(** The same session after Varanasi was resolved. *)
Definition varanasiSession : SessionStore.WeatherSession :=
  {| SessionStore.sessionId := js"session_1";
     SessionStore.context :=
       Context.with_location
         {| Context.current := Some varanasi; Context.recent := [varanasi];
            Context.location_preferences := [] |} freshContext;
     SessionStore.lastActivity := (noon - 3600000)%Z;
     SessionStore.expiresAt := (noon - 3600000 + SessionStore.SESSION_TIMEOUT)%Z |}.

(** A session whose expiry has passed at noon. *)
Definition staleSession : SessionStore.WeatherSession :=
  {| SessionStore.sessionId := js"session_0";
     SessionStore.context := freshContext;
     SessionStore.lastActivity := (noon - 2 * SessionStore.SESSION_TIMEOUT)%Z;
     SessionStore.expiresAt := (noon - SessionStore.SESSION_TIMEOUT)%Z |}.

Definition registry (session : SessionStore.WeatherSession)
  : Eff.St (gmap Js.str SessionStore.WeatherSession) :=
  initial {[ SessionStore.sessionId session := session ]}.

Definition manager (c : Context.WeatherContext) : Eff.St ContextManager.Manager :=
  initial {| ContextManager.context := c; ContextManager.stored := None |}.

(** A live observation, as the weather API words it. *)
Definition sunny : WeatherBody :=
  {| current := Some {| temperature_2m := 21.4; relative_humidity_2m := 60;
                        cur_precipitation := 0; wind_speed_10m := 7.5;
                        uv_index := 5; weather_code := 0;
                        time := js"2025-06-01T12:00" |};
     daily := None |}.

Definition call (i city : string) : ToolCall :=
  {| id := js i; function_name := js"get_weather";
     arguments := Some {| location := js city; date := None |} |}.

(** The assistant asks for Tokyo and for a second city. *)
Definition asksFor (second : string) : AssistantMessage :=
  {| a_content := None;
     tool_calls := Some [call "call_1" "Tokyo"; call "call_2" second] |}.

Definition formatted : AssistantMessage :=
  {| a_content := Some (js"Tokyo is sunny."); tool_calls := None |}.

(** A provider that asks for two lookups, then formats ([formats = true])
    or answers the second request with status 500. *)
Definition provider (second : string) (formats : bool)
    (req : CompletionRequest) : Fetched CompletionBody :=
  if with_tools req
  then Reply true 200 (Some {| choices := [asksFor second] |})
  else if formats
       then Reply true 200 (Some {| choices := [formatted] |})
       else Reply false 500 None.

(** A geocoder that knows no place, a weather API that is always sunny. *)
Definition online (second : string) (formats : bool) : World :=
  {| clock := fun n => (noon + Z.of_nat n)%Z; tza := 0%Z;
     apiKey := Some (js"sk-test"); hasWindow := false;
     geocoder := fun _ => Reply true 200 (Some {| results := None |});
     weatherApi := fun _ => Reply true 200 (Some sunny);
     completions := provider second formats |}.

Definition userAsks (text : string) : ChatRequest :=
  {| req_messages := [{| role := user; content := js text |}];
     req_language := None |}.

(** A tool call whose arguments are not JSON. *)
Definition garbled : AssistantMessage :=
  {| a_content := None;
     tool_calls := Some [{| id := js"call_1"; function_name := js"get_weather";
                            arguments := None |}] |}.

Definition garbling : World :=
  {| clock := fun n => (noon + Z.of_nat n)%Z; tza := 0%Z;
     apiKey := Some (js"sk-test"); hasWindow := false;
     geocoder := fun _ => Rejected;
     weatherApi := fun _ => Rejected;
     completions := fun _ => Reply true 200 (Some {| choices := [garbled] |}) |}.

End Samples.

Arguments JsDate.toISOString : simpl never.
Arguments JsDate.isoDate : simpl never.
Arguments Js.lit : simpl never.
Arguments Js.toLowerCase : simpl never.
Arguments Js.trim : simpl never.

(* ===================================================================== *)
(** ** Further vocabulary *)
(* ===================================================================== *)

Module Further.
Import Wire Eff.

(** The days whose year [toISOString] writes with four digits. *)
Definition fourDigitYear (day : Z) : Prop :=
  (0 <= fst (fst (JsDate.civil_of_day day)) <= 9999)%Z.

(** The part of a log a selector picks, oldest first. *)
Definition selected {T} (sel : Event -> option T) (l : list Event) : list T :=
  omap sel l.

Definition asGeocode (e : Event) : option Js.str :=
  match e with EvGeocode name => Some name | _ => None end.

Definition asWeather (e : Event) : option WeatherUrl :=
  match e with EvWeather url => Some url | _ => None end.

Definition asCompletion (e : Event) : option CompletionRequest :=
  match e with EvCompletion req => Some req | _ => None end.

Definition asLookup (e : Event) : option WeatherToolParams :=
  match e with EvExecuteTool params => Some params | _ => None end.

(** How many of the events [sel] picks. *)
Definition count {T} (sel : Event -> option T) (l : list Event) : nat :=
  length (selected sel l).

(** The state with [evs] added to its log. *)
Definition logged {X} (s : St X) (evs : list Event) : St X :=
  {| ticks := ticks s; log := log s ++ evs; data := data s |}.

(** The request [executeWeatherTool] builds (its step 3) for coordinates
    and a parsed date. *)
Definition weatherRequest (la ln : float) (parsed : WeatherTools.ParsedDate)
  : WeatherUrl :=
  match WeatherTools.dateType parsed, WeatherTools.targetDate parsed with
  | Historical, Some (c :: d) => ArchiveDaily la ln (c :: d)
  | Forecast, Some (c :: d) => ForecastDaily la ln (c :: d)
  | _, _ => ForecastCurrent la ln
  end.

(** The dates of a list of recent dates, in order. *)
Definition dates (l : list Context.RecentDate) : list Js.str :=
  map Context.date l.

(** Using a date moves it to the front. *)
Definition touchDate (d : Js.str) (order : list Js.str) : list Js.str :=
  d :: filter (fun q => q <> d) order.

(** The five operations of the session store on one session. *)
Inductive Operation :=
| GetSession
| UpdateSession (updates : Context.PartialContext)
| UpdateLocation (location : Context.LocationData)
| UpdateTemporal (timeframe : DateType) (targetDate : option Js.str)
| UpdateConversation (query : Js.str) (intent : Context.QueryIntent).

Definition perform (sessionId : Js.str) (op : Operation)
  : M SessionStore.Sessions (option SessionStore.WeatherSession) :=
  match op with
  | GetSession => SessionStore.getSession sessionId
  | UpdateSession updates => SessionStore.updateSession sessionId updates
  | UpdateLocation location => SessionStore.updateLocation sessionId location
  | UpdateTemporal timeframe targetDate =>
      SessionStore.updateTemporal sessionId timeframe targetDate
  | UpdateConversation query intent =>
      SessionStore.updateConversation sessionId query intent
  end.

(** The three updates of the client-side manager. *)
Inductive Mutation :=
| SetLocation (location : Context.LocationData)
| SetTemporal (timeframe : DateType) (targetDate relativeDateContext : option Js.str)
| SetConversation (query : Js.str) (intent : Context.QueryIntent)
                  (followUpContext : option Js.str).

Definition mutate (m : Mutation) : M ContextManager.Manager unit :=
  match m with
  | SetLocation location => ContextManager.updateLocation location
  | SetTemporal timeframe targetDate relativeDateContext =>
      ContextManager.updateTemporalContext timeframe targetDate relativeDateContext
  | SetConversation query intent followUpContext =>
      ContextManager.updateConversationContext query intent followUpContext
  end.

(** Whether [updateTemporalContext] records the date among the recent
    ones: [if (targetDate && timeframe !== 'current')]. *)
Definition recorded (timeframe : DateType) (targetDate : option Js.str) : bool :=
  Js.truthy targetDate && bool_decide (timeframe <> Current).

(** [{ totalSessions, activeSessions }] *)
Record Stats := { totalSessions : Z; activeSessions : Z }.

(** Get session stats *)
Definition getStats : M SessionStore.Sessions Stats :=
  bind now (fun t =>
  bind get (fun sessions : SessionStore.Sessions =>
  let activeSessions :=
    map_fold (fun _ session n =>
                if (t <=? SessionStore.expiresAt session)%Z then (n + 1)%Z else n)
             0%Z sessions in
  ret {| totalSessions := Z.of_nat (size sessions);
         activeSessions := activeSessions |})).

End Further.

(** Further sample worlds. *)
Module Cases.
Import Wire Eff Samples.

(** Three tool calls: arguments that are no JSON, a place nobody knows,
    and Tokyo. *)
Definition mixed : AssistantMessage :=
  {| a_content := None;
     tool_calls :=
       Some [ {| id := js"call_1"; function_name := js"get_weather";
                 arguments := None |};
              call "call_2" "Atlantis"; call "call_3" "Tokyo" ] |}.

Definition mixing : World :=
  {| clock := fun n => (noon + Z.of_nat n)%Z; tza := 0%Z;
     apiKey := Some (js"sk-test"); hasWindow := false;
     geocoder := fun _ => Reply true 200 (Some {| results := None |});
     weatherApi := fun _ => Reply true 200 (Some sunny);
     completions := fun _ => Reply true 200 (Some {| choices := [mixed] |}) |}.

(** An answer that needs no tool: the list of tool calls is there, and
    empty. *)
Definition plain : AssistantMessage :=
  {| a_content := Some (js"Hello!"); tool_calls := Some [] |}.

Definition chatting : World :=
  {| clock := fun n => (noon + Z.of_nat n)%Z; tza := 0%Z;
     apiKey := Some (js"sk-test"); hasWindow := false;
     geocoder := fun _ => Rejected;
     weatherApi := fun _ => Rejected;
     completions := fun _ => Reply true 200 (Some {| choices := [plain] |}) |}.

End Cases.
(* ===================================================================== *)
(** ** Calendar arithmetic *)
(* ===================================================================== *)

Module CalendarFacts.
Import JsDate.
Local Open Scope Z_scope.

(** Inside a 400-year era the year and the day of the year stay in
    range. *)
Lemma era_bounds doe :
  0 <= doe < 146097 ->
  0 <= yearOfEra doe <= 399 /\ 0 <= dayOfYear doe <= 365.
Proof.
  intros Hdoe. unfold dayOfYear, yearOfEra.
  Z.to_euclidean_division_equations; lia.
Qed.

(** The month computed from a day of the year, and back. *)
Lemma month_index_inverse doy :
  0 <= doy <= 365 ->
  let mp := (5 * doy + 2) / 153 in
  let m := if mp <? 10 then mp + 3 else mp - 9 in
  0 <= mp <= 11 /\ (if 2 <? m then m - 3 else m + 9) = mp.
Proof.
  intros Hdoy mp m.
  assert (Hmp : 0 <= mp <= 11).
  { subst mp. split.
    - apply Z.div_pos; lia.
    - apply Z.lt_succ_r. apply Z.div_lt_upper_bound; lia. }
  split; [exact Hmp|]. subst m.
  destruct (mp <? 10) eqn:E.
  - apply Z.ltb_lt in E.
    destruct (2 <? mp + 3) eqn:E2; [lia|]. apply Z.ltb_ge in E2. lia.
  - apply Z.ltb_ge in E.
    destruct (2 <? mp - 9) eqn:E2; [|lia]. apply Z.ltb_lt in E2. lia.
Qed.

Lemma day_of_civil_of_day z :
  let '(y, m, d) := civil_of_day z in day_of_civil y m d = z.
Proof.
  unfold civil_of_day.
  set (z' := z + 719468).
  set (era := z' / 146097). set (doe := z' mod 146097).
  assert (Hdoe : 0 <= doe < 146097) by (apply Z.mod_pos_bound; lia).
  destruct (era_bounds doe Hdoe) as [Hyoe Hdoy].
  set (yoe := yearOfEra doe) in *.
  pose proof (month_index_inverse (dayOfYear doe) Hdoy) as Hm.
  cbv zeta in Hm.
  set (doy := dayOfYear doe) in *.
  set (mp := (5 * doy + 2) / 153) in *.
  set (m := if mp <? 10 then mp + 3 else mp - 9) in *.
  destruct Hm as [Hmp Hinv].
  unfold day_of_civil. rewrite Hinv.
  replace (yoe + era * 400 + (if m <=? 2 then 1 else 0)
           - (if m <=? 2 then 1 else 0)) with (yoe + era * 400) by lia.
  rewrite Z.div_add by lia. rewrite Z.mod_add by lia.
  rewrite Z.div_small by lia. rewrite Z.mod_small by lia.
  assert (Hdoy' : doy = doe - (365 * yoe + yoe / 4 - yoe / 100)) by reflexivity.
  assert (Hz : z' = 146097 * era + doe) by (apply Z.div_mod; lia).
  lia.
Qed.

(** Moving the day of the month by [k] moves the day number by [k]. *)
Lemma MakeDay_shift t k :
  MakeDay (YearFromTime t) (MonthFromTime t) (DateFromTime t + k) = Day t + k.
Proof.
  unfold MakeDay, YearFromTime, MonthFromTime, DateFromTime.
  pose proof (day_of_civil_of_day (Day t)) as Hrt.
  assert (Hm : 1 <= snd (fst (civil_of_day (Day t))) <= 12).
  { unfold civil_of_day. cbn [fst snd].
    set (doe := (Day t + 719468) mod 146097).
    assert (Hdoe : 0 <= doe < 146097) by (apply Z.mod_pos_bound; lia).
    destruct (era_bounds doe Hdoe) as [_ Hdoy].
    destruct (month_index_inverse _ Hdoy) as [Hmp _].
    destruct ((5 * dayOfYear doe + 2) / 153 <? 10) eqn:E;
      [apply Z.ltb_lt in E|apply Z.ltb_ge in E]; lia. }
  destruct (civil_of_day (Day t)) as [[y m] d]. cbn [fst snd] in *.
  rewrite Z.div_small by lia. rewrite Z.mod_small by lia.
  replace (y + 0) with y by lia. replace (m - 1 + 1) with m by lia.
  assert (Hlin : day_of_civil y m 1 = day_of_civil y m d - d + 1).
  { unfold day_of_civil. lia. }
  lia.
Qed.

Lemma Day_add_day t k : Day (t + k * msPerDay) = Day t + k.
Proof. unfold Day, msPerDay. apply Z.div_add. lia. Qed.

(** [d.setDate(d.getDate() + k)] moves the instant by [k] days, whatever
    the (fixed) zone offset. *)
Lemma setDate_getDate tza t k :
  setDate tza t (getDate tza t + k) = t + k * msPerDay.
Proof.
  unfold setDate, getDate, UTC, MakeDate. rewrite MakeDay_shift.
  unfold LocalTime, Day, TimeWithinDay.
  pose proof (Z.div_mod (t + tza) msPerDay) as Hdm.
  unfold msPerDay in *. lia.
Qed.

End CalendarFacts.

(* ===================================================================== *)
(** ** Sample evaluations *)
(* ===================================================================== *)

Example lit_ascii : js"Tokyo" = [84; 111; 107; 121; 111]%N.
Proof. reflexivity. Qed.

Example lit_kana : js"の天気" = [12398; 22825; 27671]%N.
Proof. reflexivity. Qed.

Example toISOString_sample :
  JsDate.toISOString 1748779200123 = js"2025-06-01T12:00:00.123Z".
Proof. vm_compute. reflexivity. Qed.

Example isoDate_sample : JsDate.isoDate 1748779200123 = js"2025-06-01".
Proof. vm_compute. reflexivity. Qed.

Example isoDate_before_epoch : JsDate.isoDate (-1) = js"1969-12-31".
Proof. vm_compute. reflexivity. Qed.

Example parseDateLiteral_sample :
  JsDate.parseDateLiteral js"2024-01-15" = Some 1705276800000%Z.
Proof. vm_compute. reflexivity. Qed.

Example parseDateLiteral_overflow :
  JsDate.parseDateLiteral js"2024-02-30" = JsDate.parseDateLiteral js"2024-03-01".
Proof. vm_compute. reflexivity. Qed.

Example parseDateLiteral_invalid : JsDate.parseDateLiteral js"2024-13-01" = None.
Proof. vm_compute. reflexivity. Qed.

Example Math_round_samples :
  map WeatherTools.Math_round [2.5; -2.5; 2.4; -2.6; 0.49999999999999994; 21.5; -0.2]%float
  = [3; -2; 2; -3; 0; 22; -0]%float.
Proof. vm_compute. reflexivity. Qed.

Example table_get_tokyo :
  WeatherTools.table_get (Js.trim (Js.toLowerCase js"  Tokyo "))
  = WeatherTools.Own (WeatherTools.entry 35.6762 139.6503 "Japan").
Proof. vm_compute. reflexivity. Qed.

Example table_get_inherited :
  WeatherTools.table_get js"constructor" = WeatherTools.Inherited.
Proof. vm_compute. reflexivity. Qed.

(* ===================================================================== *)
(** ** Strings *)
(* ===================================================================== *)

Module JsFacts.

Lemma eqb_eq (a b : Js.str) : Js.eqb a b = true <-> a = b.
Proof. unfold Js.eqb. apply bool_decide_eq_true. Qed.

Lemma eqb_neq (a b : Js.str) : Js.eqb a b = false <-> a <> b.
Proof. unfold Js.eqb. apply bool_decide_eq_false. Qed.

Lemma startsWith_app (p s : Js.str) : Js.startsWith p (p ++ s) = true.
Proof.
  induction p as [|c p IH]; [reflexivity|].
  cbn. rewrite N.eqb_refl. exact IH.
Qed.

Lemma includes_prefix (p s : Js.str) :
  Js.startsWith p s = true -> Js.includes p s = true.
Proof. intros H. destruct s; cbn [Js.includes]; rewrite H; reflexivity. Qed.

(** A string contains each of its substrings. *)
Lemma includes_app (p a b : Js.str) : Js.includes p (a ++ p ++ b) = true.
Proof.
  induction a as [|c a IH].
  - cbn [app]. apply includes_prefix, startsWith_app.
  - cbn [app Js.includes]. rewrite IH. apply orb_true_r.
Qed.

Lemma splitHead_app (sep : N) (a b : Js.str) :
  Forall (fun c => c <> sep) a ->
  Js.splitHead sep (a ++ sep :: b) = a.
Proof.
  induction 1 as [|c a Hc _ IH]; cbn.
  - rewrite N.eqb_refl. reflexivity.
  - apply N.eqb_neq in Hc. rewrite Hc, IH. reflexivity.
Qed.

Lemma lowerUnit_digit c : Js.isDigit c = true -> Js.lowerUnit c = [c].
Proof.
  unfold Js.isDigit, Js.lowerUnit. intros H.
  apply andb_prop in H as [H1 H2].
  apply N.leb_le in H1. apply N.leb_le in H2.
  destruct (65 <=? c)%N eqn:E1; [apply N.leb_le in E1; lia|].
  cbn [andb].
  destruct (c =? 304)%N eqn:E2; [apply N.eqb_eq in E2; lia|].
  destruct (c =? 8490)%N eqn:E3; [apply N.eqb_eq in E3; lia|].
  reflexivity.
Qed.

End JsFacts.

(* ===================================================================== *)
(** ** ISO date strings *)
(* ===================================================================== *)

Module IsoFacts.
Import JsDate.
Local Open Scope Z_scope.

Lemma digits_are_digits width n :
  Forall (fun c => (48 <= c <= 57)%N) (digits width n).
Proof.
  revert n. induction width as [|w IH]; intros n; cbn [digits].
  - constructor.
  - apply Forall_app. split; [apply IH|].
    constructor; [|constructor].
    pose proof (Z.mod_pos_bound n 10). lia.
Qed.

Lemma digits_no_T width n : Forall (fun c => c <> 84%N) (digits width n).
Proof.
  eapply Forall_impl; [|apply digits_are_digits]. cbn. intros c Hc. lia.
Qed.

Lemma isoYear_no_T y : Forall (fun c => c <> 84%N) (isoYear y).
Proof.
  unfold isoYear.
  destruct ((0 <=? y) && (y <=? 9999)); [apply digits_no_T|].
  destruct (y <? 0); (constructor; [lia|apply digits_no_T]).
Qed.

(** The date part of [toISOString] is the calendar date of the day the
    instant falls in. *)
Lemma isoDate_calendarDate t : isoDate t = calendarDate (Day t).
Proof.
  unfold isoDate, toISOString, calendarDate.
  destruct (civil_of_day (Day t)) as [[y m] d].
  set (w := TimeWithinDay t).
  set (clock := digits 2 (w / 3600000) ++ [58%N]
                ++ digits 2 (w / 60000 mod 60) ++ [58%N]
                ++ digits 2 (w / 1000 mod 60) ++ [46%N]
                ++ digits 3 (w mod 1000) ++ [90%N]).
  set (day := isoYear y ++ [45%N] ++ digits 2 m ++ [45%N] ++ digits 2 d).
  transitivity (Js.splitHead 84%N (day ++ 84%N :: clock)).
  - f_equal. subst day. repeat rewrite <- app_assoc. reflexivity.
  - apply JsFacts.splitHead_app. subst day.
    apply Forall_app; split; [apply isoYear_no_T|].
    constructor; [lia|].
    apply Forall_app; split; [apply digits_no_T|].
    constructor; [lia|apply digits_no_T].
Qed.

End IsoFacts.

(* ===================================================================== *)
(** ** [parseDate] *)
(* ===================================================================== *)

Module ParseDateFacts.
Import JsDate WeatherTools Vocabulary.
Local Open Scope Z_scope.

Lemma parseDate_default tza today :
  parseDate tza today None = {| targetDate := None; dateType := Current |}.
Proof. reflexivity. Qed.

Lemma parseDate_today tza today s :
  Js.toLowerCase s = js"today" \/ Js.toLowerCase s = js"now" ->
  parseDate tza today (Some s) = {| targetDate := None; dateType := Current |}.
Proof.
  intros [H|H]; unfold parseDate; cbn [from_option id]; rewrite H; reflexivity.
Qed.

Lemma parseDate_tomorrow tza today s :
  Js.toLowerCase s = js"tomorrow" ->
  parseDate tza today (Some s)
  = {| targetDate := Some (calendarDate (Day today + 1)); dateType := Forecast |}.
Proof.
  intros H. unfold parseDate. cbn [from_option id]. rewrite H.
  change (Js.eqb (js"tomorrow") (js"today")) with false.
  change (Js.eqb (js"tomorrow") (js"now")) with false.
  change (Js.eqb (js"tomorrow") (js"tomorrow")) with true.
  cbn [orb].
  rewrite CalendarFacts.setDate_getDate, IsoFacts.isoDate_calendarDate.
  rewrite CalendarFacts.Day_add_day. reflexivity.
Qed.

Lemma parseDate_yesterday tza today s :
  Js.toLowerCase s = js"yesterday" ->
  parseDate tza today (Some s)
  = {| targetDate := Some (calendarDate (Day today - 1)); dateType := Historical |}.
Proof.
  intros H. unfold parseDate. cbn [from_option id]. rewrite H.
  change (Js.eqb (js"yesterday") (js"today")) with false.
  change (Js.eqb (js"yesterday") (js"now")) with false.
  change (Js.eqb (js"yesterday") (js"tomorrow")) with false.
  change (Js.eqb (js"yesterday") (js"yesterday")) with true.
  cbn [orb].
  replace (getDate tza today - 1) with (getDate tza today + -1) by lia.
  rewrite CalendarFacts.setDate_getDate, IsoFacts.isoDate_calendarDate.
  rewrite CalendarFacts.Day_add_day. f_equal.
Qed.

(** A date literal has no letters to lowercase. *)
Lemma literal_lowercase s :
  isDateLiteral s = true -> Js.toLowerCase s = s.
Proof.
  intros H.
  do 11 (destruct s as [|? s]; try discriminate H).
  cbn [isDateLiteral] in H.
  apply andb_prop in H as [H H2]. apply andb_prop in H as [H H1].
  apply N.eqb_eq in H1, H2. subst.
  cbn [forallb] in H.
  do 8 (let D := fresh "D" in apply andb_prop in H as [D H]).
  unfold Js.toLowerCase. cbn [flat_map].
  repeat match goal with
         | E : Js.isDigit ?c = true |- _ =>
             rewrite (JsFacts.lowerUnit_digit c E); clear E
         end.
  reflexivity.
Qed.

Lemma literal_not_keyword s :
  isDateLiteral s = true -> ~ In (Js.toLowerCase s) dateKeywords.
Proof.
  intros H Hin. rewrite (literal_lowercase s H) in Hin.
  cbn [dateKeywords In] in Hin.
  destruct Hin as [<-|[<-|[<-|[<-|[]]]]]; vm_compute in H; discriminate H.
Qed.

Lemma not_keyword_eqb k :
  ~ In k dateKeywords ->
  Js.eqb k (js"today") = false /\ Js.eqb k (js"now") = false
  /\ Js.eqb k (js"tomorrow") = false /\ Js.eqb k (js"yesterday") = false.
Proof.
  intros H. cbn [dateKeywords In] in H.
  repeat split; apply JsFacts.eqb_neq; intros ->; tauto.
Qed.

Lemma parseDate_literal tza today s :
  isDateLiteral s = true ->
  parseDate tza today (Some s)
  = {| targetDate := Some s;
       dateType := if dateLt (parseDateLiteral s) today
                   then Historical else Forecast |}.
Proof.
  intros H. unfold parseDate. cbn [from_option id].
  destruct (not_keyword_eqb _ (literal_not_keyword s H)) as (-> & -> & -> & ->).
  cbn [orb]. rewrite H. reflexivity.
Qed.

Lemma parseDate_other tza today s :
  ~ In (Js.toLowerCase s) dateKeywords ->
  isDateLiteral s = false ->
  parseDate tza today (Some s) = {| targetDate := None; dateType := Current |}.
Proof.
  intros Hk H. unfold parseDate. cbn [from_option id].
  destruct (not_keyword_eqb _ Hk) as (-> & -> & -> & ->).
  cbn [orb]. rewrite H. reflexivity.
Qed.

Lemma Day_lt_instant t today : Day t < Day today -> t < today.
Proof.
  unfold Day, msPerDay. intros H.
  destruct (Z.lt_ge_cases t today) as [|Hge]; [assumption|].
  apply (Z.div_le_mono _ _ 86400000) in Hge; lia.
Qed.

End ParseDateFacts.

Module ParseDateClaims.
Import JsDate WeatherTools Vocabulary ParseDateFacts.
Local Open Scope Z_scope.




(** The round trip of the specification: the same literal is historical
    on 2025-06-01 and forecast on 2023-01-01. *)
Example parseDate_round_trip :
  dateType (parseDate 0 1748779200000 (Some js"2024-01-15")) = Historical
  /\ dateType (parseDate 0 1672531200000 (Some js"2024-01-15")) = Forecast.
Proof. split; vm_compute; reflexivity. Qed.

(** Today's own date is compared as UTC midnight with the current
    instant: at noon of 2025-06-01 the literal [2025-06-01] already counts
    as historical. *)
Example parseDate_today_literal :
  parseDate 0 1748779200000 (Some js"2025-06-01")
  = {| targetDate := Some js"2025-06-01"; dateType := Historical |}.
Proof. vm_compute. reflexivity. Qed.

End ParseDateClaims.

(* ===================================================================== *)
(** ** [getCoordinates] *)
(* ===================================================================== *)

Module CoordinatesClaims.
Import Wire Eff WeatherTools Samples.

Lemma own_entry_of_table key e :
  In (key, e) CITY_COORDINATES -> own_entry CITY_COORDINATES key = Some e.
Proof.
  unfold CITY_COORDINATES. cbn [In]. intros H.
  repeat (destruct H as [H|H];
          [injection H as <- <-; vm_compute; reflexivity|]).
  destruct H.
Qed.

(** C10.  When the lowercased, trimmed location is a key of the table,
    [getCoordinates] answers from the table: the city is the caller's
    string untouched, the country is the table's, and the run leaves the
    state as it was: no geocoding request (no event at all) is logged. *)
Theorem getCoordinates_table_hit {X} (w : World) (s : St X)
    (location : Js.str) (e : CityEntry) :
  In (Js.trim (Js.toLowerCase location), e) CITY_COORDINATES ->
  getCoordinates location w s
  = (Ok (Known (lat e) (lng e) location (entry_country e)), s)
  /\ log (snd (getCoordinates location w s)) = log s.
Proof.
  intros Hin. apply own_entry_of_table in Hin.
  assert (Hrun : getCoordinates location w s
                 = (Ok (Known (lat e) (lng e) location (entry_country e)), s)).
  { unfold getCoordinates, table_get. rewrite Hin. reflexivity. }
  split; [exact Hrun|]. rewrite Hrun. reflexivity.
Qed.

Lemma getCoordinates_table_hit_witness :
  getCoordinates js"  TOKYO " offline (initial tt)
  = (Ok (Known 35.6762 139.6503 js"  TOKYO " js"Japan"), initial tt).
Proof.
  apply (getCoordinates_table_hit offline (initial tt) js"  TOKYO "
           (entry 35.6762 139.6503 "Japan")).
  vm_compute. do 8 right. left. reflexivity.
Defined.

(** Off the table the geocoder is asked, under the caller's spelling. *)
Example getCoordinates_miss :
  getCoordinates js"Osaka" offline (initial tt)
  = (Throw (CoordinatesNotFound js"Osaka"),
     {| ticks := 0; log := [EvGeocode js"Osaka"]; data := tt |}).
Proof. vm_compute. reflexivity. Qed.

End CoordinatesClaims.

(* ===================================================================== *)
(** ** Runs of effectful code *)
(* ===================================================================== *)

Module EffFacts.
Import Eff Runs.

Lemma run_bind {X A B} (m : M X A) (k : A -> M X B) (w : World) (s s1 : St X) a :
  m w s = (Ok a, s1) -> bind m k w s = k a w s1.
Proof. unfold bind. intros ->. reflexivity. Qed.

Lemma run_bind_throw {X A B} (m : M X A) (k : A -> M X B) (w : World)
    (s s1 : St X) e :
  m w s = (Throw e, s1) -> bind m k w s = (Throw e, s1).
Proof. unfold bind. intros ->. reflexivity. Qed.

Lemma now_run {X} (w : World) (s : St X) : now w s = (Ok (reading w s), ticked s).
Proof. reflexivity. Qed.

Lemma ask_run {X} (w : World) (s : St X) : ask w s = (Ok w, s).
Proof. reflexivity. Qed.

Lemma bind_inv_ok {X A B} (m : M X A) (k : A -> M X B) (w : World)
    (s s' : St X) b :
  bind m k w s = (Ok b, s') ->
  exists a s1, m w s = (Ok a, s1) /\ k a w s1 = (Ok b, s').
Proof.
  unfold bind. destruct (m w s) as [[a|e] s1]; [eauto|discriminate].
Qed.

(** Take the next step of a run whose first computation is known. *)
Ltac step H := rewrite (run_bind _ _ _ _ _ _ H).

(** Settling never throws, and yields one outcome per computation. *)
Lemma settle_all_total {X A} (w : World) (ms : list (M X A)) :
  forall s : St X, exists rs s',
    settle_all ms w s = (Ok rs, s') /\ length rs = length ms.
Proof.
  induction ms as [|m ms IH]; intros s.
  - exists [], s. split; reflexivity.
  - cbn [settle_all]. unfold bind at 1, settle.
    destruct (m w s) as [r s1]. destruct (IH s1) as (rs & s' & Hrs & Hlen).
    exists (r :: rs), s'. unfold bind. rewrite Hrs. cbn.
    split; [reflexivity|]. rewrite Hlen. reflexivity.
Qed.

(** A join is a rejection exactly when some outcome is one. *)
Lemma join_throw {A} (rs : list (Result A)) :
  (exists e, In (Throw e) rs) <-> (exists e, join rs = Throw e).
Proof.
  induction rs as [|[a|e] rs IH]; cbn [join In].
  - split; intros [e H]; [destruct H|discriminate H].
  - split.
    + intros [e [H|H]]; [discriminate H|].
      destruct (proj1 IH (ex_intro _ e H)) as [e' ->]. eauto.
    + intros [e H]. destruct (join rs) as [l|e'] eqn:E; [discriminate H|].
      destruct (proj2 IH (ex_intro _ e' eq_refl)) as [e'' H'']. eauto.
  - split; eauto.
Qed.

(** A join succeeds exactly when every outcome does, and keeps them in
    order. *)
Lemma join_ok {A} (rs : list (Result A)) (l : list A) :
  join rs = Ok l <-> rs = map Ok l.
Proof.
  revert l. induction rs as [|[a|e] rs IH]; intros l; cbn [join].
  - split; intros H.
    + injection H as <-. reflexivity.
    + destruct l; [reflexivity|discriminate H].
  - destruct (join rs) as [l'|e'] eqn:E.
    + split; intros H.
      * injection H as <-. cbn [map]. f_equal. apply IH. reflexivity.
      * destruct l as [|b l]; [discriminate H|]. cbn [map] in H.
        injection H as <- H. apply IH in H. injection H as <-. reflexivity.
    + split; intros H; [discriminate H|].
      destruct l as [|b l]; [discriminate H|]. cbn [map] in H.
      injection H as <- H. apply IH in H. discriminate H.
  - split; intros H; [discriminate H|].
    destruct l; discriminate H.
Qed.

End EffFacts.

(* ===================================================================== *)
(** ** The session registry *)
(* ===================================================================== *)

Module SessionFacts.
Import Eff Context SessionStore Runs.
Local Open Scope Z_scope.

Lemma getSession_run (w : World) (s : St Sessions) (sid : Js.str) :
  getSession sid w s =
  match data s !! sid with
  | None => (Ok None, s)
  | Some session =>
      if expiresAt session <? reading w s
      then (Ok None, holding (ticked s) (delete sid (data s)))
      else (Ok (Some session), ticked s)
  end.
Proof.
  unfold getSession, bind, get, now, modify, ret, reading. cbn.
  destruct (data s !! sid) as [session|]; [|reflexivity].
  cbn. destruct (expiresAt session <? clock w (ticks s)); reflexivity.
Qed.

Lemma updateSession_run (w : World) (s : St Sessions) (sid : Js.str) updates :
  updateSession sid updates w s =
  match data s !! sid with
  | None => (Ok None, s)
  | Some session =>
      if expiresAt session <? reading w s
      then (Ok None, holding (ticked s) (delete sid (data s)))
      else (Ok (Some (updated w s session updates)),
            {| ticks := 4 + ticks s; log := log s;
               data := <[sid := updated w s session updates]> (data s) |})
  end.
Proof.
  unfold updateSession, bind. rewrite getSession_run.
  destruct (data s !! sid) as [session|]; [|reflexivity].
  destruct (expiresAt session <? reading w s); reflexivity.
Qed.

(** A successful [updateSession] stores the session it returns, whose
    expiry is the last clock reading of the call plus the timeout. *)
Lemma updateSession_slides (w : World) (s s' : St Sessions) (sid : Js.str)
    updates x :
  updateSession sid updates w s = (Ok (Some x), s') ->
  expiresAt x = clock w (Nat.pred (ticks s')) + SESSION_TIMEOUT
  /\ data s' !! sid = Some x.
Proof.
  rewrite updateSession_run.
  destruct (data s !! sid) as [session|]; [|discriminate].
  destruct (expiresAt session <? reading w s); [discriminate|].
  intros H. injection H as <- <-. cbn. split; [reflexivity|].
  apply lookup_insert_eq.
Qed.

(** A new session is stored under its identifier and expires 24 hours
    after the reading taken at creation. *)
Lemma createSession_run (w : World) (s : St Sessions) (suffix : Js.str)
    (initialContext : PartialContext) :
  exists x s',
    createSession suffix initialContext w s = (Ok x, s')
    /\ data s' !! sessionId x = Some x
    /\ expiresAt x = clock w (S (ticks s)) + SESSION_TIMEOUT
    /\ lastActivity x = clock w (S (ticks s)).
Proof.
  cbv [createSession generateSessionId bind now modify ret].
  eexists. eexists. split; [reflexivity|]. cbn [data sessionId expiresAt lastActivity].
  split; [apply lookup_insert_eq|split; reflexivity].
Qed.

(** The convenience mutators succeed only through [updateSession]. *)
Lemma updateLocation_through (w : World) (s s' : St Sessions) (sid : Js.str)
    location x :
  updateLocation sid location w s = (Ok (Some x), s') ->
  exists updates s1, updateSession sid updates w s1 = (Ok (Some x), s').
Proof.
  unfold updateLocation, bind. rewrite getSession_run.
  destruct (data s !! sid) as [session|]; [|discriminate].
  destruct (expiresAt session <? reading w s); [discriminate|].
  intros H. eauto.
Qed.

Lemma updateTemporal_through (w : World) (s s' : St Sessions) (sid : Js.str)
    timeframe targetDate x :
  updateTemporal sid timeframe targetDate w s = (Ok (Some x), s') ->
  exists updates s1, updateSession sid updates w s1 = (Ok (Some x), s').
Proof.
  unfold updateTemporal, bind. rewrite getSession_run.
  destruct (data s !! sid) as [session|]; [|discriminate].
  destruct (expiresAt session <? reading w s); [discriminate|].
  destruct targetDate as [[|u d]|]; cbn; intros H; eauto.
Qed.

Lemma updateConversation_through (w : World) (s s' : St Sessions) (sid : Js.str)
    query intent x :
  updateConversation sid query intent w s = (Ok (Some x), s') ->
  exists updates s1, updateSession sid updates w s1 = (Ok (Some x), s').
Proof.
  unfold updateConversation, bind. rewrite getSession_run.
  destruct (data s !! sid) as [session|]; [|discriminate].
  destruct (expiresAt session <? reading w s); [discriminate|].
  cbn. intros H. eauto.
Qed.

(** The three ways a call of [updateLocation] can go: the session is
    unknown; it has expired at one of the two expiry checks and is purged;
    or it is alive and its location part is replaced. *)
Lemma updateLocation_cases (w : World) (s : St Sessions) (sid : Js.str)
    (l : LocationData) :
  (data s !! sid = None /\ updateLocation sid l w s = (Ok None, s))
  \/ (exists s', updateLocation sid l w s = (Ok None, s')
                 /\ data s' = delete sid (data s))
  \/ (exists old x s',
        data s !! sid = Some old
        /\ updateLocation sid l w s = (Ok (Some x), s')
        /\ data s' = <[sid := x]> (data s)
        /\ location (context x)
           = {| current := Some l;
                recent := take 5 (l :: filter (fun q => negb (samePlace l q) = true)
                                              (recent (location (context old))));
                location_preferences :=
                  location_preferences (location (context old)) |}).
Proof.
  unfold updateLocation, bind. rewrite getSession_run.
  destruct (data s !! sid) as [old|] eqn:Hs; [|left; split; reflexivity].
  right.
  destruct (expiresAt old <? reading w s); [left; eexists; split; reflexivity|].
  rewrite updateSession_run. cbn [data ticked]. rewrite Hs.
  destruct (expiresAt old <? reading w (ticked s));
    [left; eexists; split; reflexivity|].
  right. eexists old, _, _. repeat split; reflexivity.
Qed.

(** Once the session is gone, further calls change nothing. *)
Lemma storeUpdateLocations_gone (w : World) (sid : Js.str)
    (locs : list LocationData) (s : St Sessions) :
  data s !! sid = None ->
  Sequences.storeUpdateLocations sid locs w s = (Ok tt, s).
Proof.
  intros Hs. induction locs as [|l locs IH]; [reflexivity|].
  cbn [Sequences.storeUpdateLocations]. unfold bind at 1.
  destruct (updateLocation_cases w s sid l)
    as [[_ ->]|[(s' & Hrun & Hdata)|(old & x & s' & Hold & _)]].
  - exact IH.
  - revert Hrun. unfold updateLocation, bind. rewrite getSession_run, Hs.
    intros H. injection H as <-. exact IH.
  - congruence.
Qed.

End SessionFacts.

Module SessionClaims.
Import Eff Context SessionStore Runs SessionFacts Samples.
Local Open Scope Z_scope.



(** Without a live session the resolver takes its first branch. *)
Lemma resolve_run_without_session (w : World) (s : St Sessions)
    (sid query : Js.str) language :
  fst (getSession sid w s) = Ok None ->
  resolveContextWithSession sid query language w s
  = (Ok {| session := None;
           needsLocationInput :=
             negb (hasLocationIndicators query language)
             && (Js.length (Js.trim query) <? 8);
           needsTimeInput := false;
           contextualQuery := query |},
     snd (getSession sid w s)).
Proof.
  unfold resolveContextWithSession, bind.
  destruct (getSession sid w s) as [[[x|]|e] s1]; cbn [fst snd];
    intros H; try discriminate H; reflexivity.
Qed.

(** C9.  For a session identifier that is unknown, or whose session has
    expired at the reading [getSession] takes, [resolveContextWithSession]
    returns normally with [session = null], the query unchanged as
    [contextualQuery], [needsTimeInput = false], and [needsLocationInput]
    true exactly when the query has no location indicator and its trimmed
    length is below 8. *)
Theorem resolve_without_session (w : World) (s : St Sessions)
    (sid query : Js.str) (language : option Js.str) :
  (data s !! sid = None
   \/ exists old, data s !! sid = Some old /\ expiresAt old < reading w s) ->
  exists r s',
    resolveContextWithSession sid query language w s = (Ok r, s')
    /\ session r = None
    /\ contextualQuery r = query
    /\ needsTimeInput r = false
    /\ (needsLocationInput r = true <->
        hasLocationIndicators query language = false
        /\ Js.length (Js.trim query) < 8).
Proof.
  intros Hgone.
  assert (Hnone : fst (getSession sid w s) = Ok None).
  { rewrite getSession_run.
    destruct Hgone as [->|(old & -> & Hexp)]; [reflexivity|].
    apply Z.ltb_lt in Hexp. rewrite Hexp. reflexivity. }
  rewrite (resolve_run_without_session w s sid query language Hnone).
  eexists. eexists. split; [reflexivity|].
  cbn [session contextualQuery needsTimeInput needsLocationInput].
  repeat split; try reflexivity.
  - apply andb_prop in H as [H _]. apply negb_true_iff in H. exact H.
  - apply andb_prop in H as [_ H]. apply Z.ltb_lt in H. exact H.
  - intros [H1 H2]. rewrite H1. apply Z.ltb_lt in H2. rewrite H2. reflexivity.
Qed.

Lemma resolve_without_session_witness :
  exists s',
    resolveContextWithSession (js"session_9") (js"hi") None server
                              (registry freshSession)
    = (Ok {| session := None; needsLocationInput := true;
             needsTimeInput := false; contextualQuery := js"hi" |}, s').
Proof.
  destruct (resolve_without_session server (registry freshSession)
              (js"session_9") (js"hi") None) as (r & s' & Hrun & H1 & H2 & H3 & H4).
  - left. apply lookup_singleton_ne. vm_compute. discriminate.
  - exists s'. rewrite Hrun. destruct r as [a b c q]. cbn in H1, H2, H3, H4.
    subst. assert (Hb : b = true) by (apply H4; split; vm_compute; reflexivity).
    rewrite Hb. reflexivity.
Defined.

(** With a live session the resolver always reaches the undeclared
    identifier. *)
Lemma resolve_with_session_throws (w : World) (s : St Sessions)
    (sid query : Js.str) language old :
  data s !! sid = Some old -> reading w s <= expiresAt old ->
  fst (resolveContextWithSession sid query language w s)
  = Throw (ReferenceError "hasExplicitLocation").
Proof.
  intros Hs Hlive. unfold resolveContextWithSession, bind.
  rewrite getSession_run, Hs.
  apply Z.ltb_ge in Hlive. rewrite Hlive. reflexivity.
Qed.

Example createSession_sample :
  match fst (createSession (js"k3j9x0q2a") nothing server (initial ∅)) with
  | Ok x => (sessionId x, expiresAt x)
  | Throw _ => ([], 0)
  end = (js"session_1748779200000_k3j9x0q2a", 1748865600001).
Proof. vm_compute. reflexivity. Qed.

End SessionClaims.

(* ===================================================================== *)
(** ** Most-recently-used lists *)
(* ===================================================================== *)

Module MruFacts.
Import Context Vocabulary.

Lemma samePlace_place (location loc : LocationData) :
  negb (samePlace location loc) = true <-> place loc <> place location.
Proof.
  unfold samePlace, place. rewrite negb_true_iff, andb_false_iff.
  rewrite !JsFacts.eqb_neq. split.
  - intros [H|H] E; injection E as E1 E2; contradiction.
  - intros H. destruct (decide (city loc = city location)) as [E1|]; [|tauto].
    right. intros E2. apply H. congruence.
Qed.

(** Filtering locations by identity is filtering their places. *)
Lemma places_filter (location : LocationData) (l : list LocationData) :
  places (filter (fun loc => negb (samePlace location loc) = true) l)
  = filter (fun q => q <> place location) (places l).
Proof.
  induction l as [|x l IH]; [reflexivity|].
  cbn [places map]. rewrite !filter_cons.
  destruct (decide (negb (samePlace location x) = true)) as [H|H];
    destruct (decide (place x <> place location)) as [H'|H'].
  - cbn [places map]. f_equal. exact IH.
  - apply samePlace_place in H. contradiction.
  - apply samePlace_place in H'. contradiction.
  - exact IH.
Qed.

Lemma filter_absent {A} `{EqDecision A} (p : A) (l : list A) :
  p ∉ l -> filter (fun q => q <> p) l = l.
Proof.
  induction l as [|x l IH]; intros Hp; [reflexivity|].
  rewrite not_elem_of_cons in Hp. destruct Hp as [Hx Hl].
  rewrite filter_cons_True by congruence. f_equal. auto.
Qed.

(** Cutting an order without repetition one entry beyond [n] loses nothing
    of the first [n] entries that survive the removal of [p]. *)
Lemma take_filter_take {A} `{EqDecision A} (p : A) (order : list A) :
  NoDup order ->
  forall n, take n (filter (fun q => q <> p) (take (S n) order))
            = take n (filter (fun q => q <> p) order).
Proof.
  induction 1 as [|x order Hx Hnd IH]; intros n; [reflexivity|].
  cbn [take]. rewrite !filter_cons.
  destruct (decide (x <> p)) as [Hne|Heq].
  - destruct n as [|n]; [reflexivity|]. cbn [take]. f_equal. apply IH.
  - assert (x = p) as -> by (destruct (decide (x = p)); tauto).
    rewrite (filter_absent p order Hx).
    rewrite filter_absent.
    + rewrite take_take. f_equal. lia.
    + intros Hin. apply Hx. eapply subseteq_take. exact Hin.
Qed.

Lemma NoDup_touch p order : NoDup order -> NoDup (touch p order).
Proof.
  intros H. unfold touch. apply list.NoDup_cons. split.
  - rewrite list_elem_of_filter. tauto.
  - apply list.NoDup_filter. exact H.
Qed.

Lemma NoDup_mru calls before : NoDup before -> NoDup (mru calls before).
Proof.
  revert before. induction calls as [|p calls IH]; intros before H; [exact H|].
  cbn [mru fold_left]. apply IH, NoDup_touch, H.
Qed.

Lemma NoDup_take_of {A} (n : nat) (l : list A) : NoDup l -> NoDup (take n l).
Proof. intros H. exact (sublist_NoDup _ _ H (sublist_take l n)). Qed.

(** One bounded step follows one unbounded step. *)
Lemma bounded_touch p order :
  NoDup order ->
  take 5 (touch p (take 5 order)) = take 5 (touch p order).
Proof.
  intros H. unfold touch. cbn [take]. f_equal.
  apply (take_filter_take p order H 4).
Qed.

Lemma mru_snoc calls p before :
  mru (calls ++ [p]) before = touch p (mru calls before).
Proof. unfold mru. rewrite fold_left_app. reflexivity. Qed.

(** The place used last heads the order. *)
Lemma mru_head calls before p :
  list.last calls = Some p -> head (take 5 (mru calls before)) = Some p.
Proof.
  intros Hlast. apply last_Some in Hlast as [calls' ->].
  rewrite mru_snoc. reflexivity.
Qed.

(** What a bounded list that follows the unbounded order satisfies. *)
Lemma bounded_order (recent order : list (Js.str * Js.str)) :
  recent = take 5 order -> NoDup order ->
  NoDup recent /\ length recent <= 5.
Proof.
  intros -> H. split; [apply NoDup_take_of, H|].
  rewrite length_take. lia.
Qed.

End MruFacts.

(* ===================================================================== *)
(** ** The client-side manager *)
(* ===================================================================== *)

Module ManagerFacts.
Import Eff Context ContextManager Vocabulary Sequences Runs EffFacts.

Lemma getContext_run (w : World) (s : St Manager) :
  getContext w s = (Ok (context (data s)), s).
Proof. reflexivity. Qed.

Lemma setContext_run (w : World) (s : St Manager) (c : WeatherContext) :
  setContext c w s = (Ok tt, holding s {| context := c; stored := stored (data s) |}).
Proof. reflexivity. Qed.

(** Logging a flow item touches the conversation only. *)
Lemma addToConversationFlow_keeps (w : World) (s : St Manager) ty v :
  exists s',
    addToConversationFlow ty v w s = (Ok tt, s')
    /\ location (context (data s')) = location (context (data s))
    /\ temporal (context (data s')) = temporal (context (data s)).
Proof.
  unfold addToConversationFlow.
  step (now_run w s). step (getContext_run w (ticked s)).
  rewrite setContext_run. eexists. split; [reflexivity|].
  split; reflexivity.
Qed.

(** Persisting touches the session part only. *)
Lemma persistContext_keeps (w : World) (s : St Manager) :
  exists s',
    persistContext w s = (Ok tt, s')
    /\ location (context (data s')) = location (context (data s))
    /\ temporal (context (data s')) = temporal (context (data s)).
Proof.
  unfold persistContext, bind, ask.
  destruct (hasWindow w); eexists; (split; [reflexivity|split; reflexivity]).
Qed.

Lemma take_if_longer {A} (n : nat) (l : list A) :
  (if (n <? length l)%nat then take n l else l) = take n l.
Proof.
  destruct (n <? length l)%nat eqn:E; [reflexivity|].
  apply Nat.ltb_ge in E. symmetry. apply take_ge. exact E.
Qed.

(** One call: the list of recent places is the bounded update of the
    previous one, the current location is the caller's place, and the
    temporal part is not touched. *)
Lemma updateLocation_run (w : World) (s : St Manager) (l : LocationData) :
  exists s',
    updateLocation l w s = (Ok tt, s')
    /\ places (recent (location (context (data s'))))
       = take 5 (touch (place l) (places (recent (location (context (data s))))))
    /\ place <$> current (location (context (data s'))) = Some (place l)
    /\ temporal (context (data s')) = temporal (context (data s)).
Proof.
  unfold updateLocation.
  step (now_run w s). step (getContext_run w (ticked s)).
  rewrite take_if_longer.
  match goal with
  | |- context [setContext ?c] =>
      step (setContext_run w (ticked s) c);
      destruct (addToConversationFlow_keeps w
                  (holding (ticked s) {| context := c; stored := stored (data (ticked s)) |})
                  FlowLocation (city l ++ js", " ++ country l))
        as (s1 & Hflow & Hloc1 & Htemp1)
  end.
  step Hflow.
  destruct (persistContext_keeps w s1) as (s2 & Hpersist & Hloc2 & Htemp2).
  exists s2. split; [exact Hpersist|].
  rewrite Hloc2, Hloc1, Htemp2, Htemp1. cbn [data holding context with_location
    location recent current temporal ticked].
  split; [|split; reflexivity].
  unfold touch, MAX_RECENT_LOCATIONS.
  rewrite <- MruFacts.places_filter. unfold places.
  rewrite <- firstn_map. reflexivity.
Qed.

(** A sequence of calls follows the unbounded most-recently-used order,
    cut to five entries. *)
Lemma managerUpdateLocations_run (w : World) (locs : list LocationData) :
  forall (s : St Manager) (order : list (Js.str * Js.str)),
    NoDup order ->
    places (recent (location (context (data s)))) = take 5 order ->
    exists s',
      managerUpdateLocations locs w s = (Ok tt, s')
      /\ places (recent (location (context (data s'))))
         = take 5 (mru (places locs) order).
Proof.
  induction locs as [|l locs IH]; intros s order Hnd Hrec.
  - exists s. split; [reflexivity|exact Hrec].
  - destruct (updateLocation_run w s l) as (s1 & Hrun & Hplaces & _).
    rewrite Hrec, (MruFacts.bounded_touch _ _ Hnd) in Hplaces.
    destruct (IH s1 (touch (place l) order) (MruFacts.NoDup_touch _ _ Hnd) Hplaces)
      as (s' & Hrest & Hfinal).
    exists s'. split; [|exact Hfinal].
    cbn [managerUpdateLocations]. unfold bind. rewrite Hrun. exact Hrest.
Qed.

End ManagerFacts.

(* ===================================================================== *)
(** ** Recent locations *)
(* ===================================================================== *)

Module RecentLocationsFacts.
Import Eff Context Vocabulary Sequences SessionStore SessionFacts.

Lemma storeUpdateLocations_run (w : World) (sid : Js.str)
    (locs : list LocationData) :
  forall (s : St Sessions) (old : WeatherSession) (order : list (Js.str * Js.str)),
    data s !! sid = Some old ->
    NoDup order ->
    places (recent (location (context old))) = take 5 order ->
    forall r s' x,
      storeUpdateLocations sid locs w s = (r, s') ->
      data s' !! sid = Some x ->
      places (recent (location (context x))) = take 5 (mru (places locs) order).
Proof.
  induction locs as [|l locs IH]; intros s old order Hs Hnd Hrec r s' x Hrun Hx.
  - cbn in Hrun. injection Hrun as <- <-. rewrite Hs in Hx.
    injection Hx as <-. exact Hrec.
  - cbn [storeUpdateLocations] in Hrun. unfold bind at 1 in Hrun.
    destruct (updateLocation_cases w s sid l)
      as [[Hnone _]|[(s1 & Hcall & Hdata)|(old' & x1 & s1 & Hold & Hcall & Hdata & Hloc)]].
    + congruence.
    + rewrite Hcall in Hrun.
      rewrite storeUpdateLocations_gone in Hrun
        by (rewrite Hdata; apply lookup_delete_eq).
      injection Hrun as <- <-. rewrite Hdata, lookup_delete_eq in Hx. discriminate.
    + rewrite Hcall in Hrun. rewrite Hs in Hold. injection Hold as <-.
      apply (IH s1 x1 (touch (place l) order)) with (r := r) (s' := s'); try assumption.
      * rewrite Hdata. apply lookup_insert_eq.
      * apply MruFacts.NoDup_touch, Hnd.
      * rewrite Hloc. cbn [recent].
        rewrite <- (MruFacts.bounded_touch _ _ Hnd), <- Hrec.
        unfold touch. rewrite <- MruFacts.places_filter. unfold places.
        rewrite <- firstn_map. reflexivity.
Qed.

(** When no reading of the clock is a full timeout ahead of another (a run
    that lasts less than 24 hours), a call on a live session succeeds and
    leaves it live. *)
Lemma updateLocation_alive (w : World) (s : St Sessions) (sid : Js.str)
    (l : LocationData) (old : WeatherSession) :
  (forall n m, (clock w n <= clock w m + SESSION_TIMEOUT)%Z) ->
  data s !! sid = Some old ->
  (forall n, (clock w n <= expiresAt old)%Z) ->
  exists x s',
    updateLocation sid l w s = (Ok (Some x), s')
    /\ data s' !! sid = Some x
    /\ (forall n, (clock w n <= expiresAt x)%Z).
Proof.
  intros Hclock Hs Hlive.
  unfold updateLocation, bind. rewrite getSession_run, Hs.
  assert (Hno : forall s0 : St Sessions,
             (expiresAt old <? Runs.reading w s0)%Z = false).
  { intros s0. apply Z.ltb_ge. apply Hlive. }
  rewrite Hno, updateSession_run. cbn [data Runs.ticked]. rewrite Hs, Hno.
  eexists. eexists. split; [reflexivity|]. cbn [data].
  split; [apply lookup_insert_eq|].
  intros n. cbn [expiresAt Runs.updated]. apply Hclock.
Qed.

(** In such a run a live session outlives any sequence of calls, so the
    list of recent locations described above is there at the end. *)
Lemma storeUpdateLocations_alive (w : World) (sid : Js.str)
    (locs : list LocationData) :
  (forall n m, (clock w n <= clock w m + SESSION_TIMEOUT)%Z) ->
  forall (s : St Sessions) (old : WeatherSession),
    data s !! sid = Some old ->
    (forall n, (clock w n <= expiresAt old)%Z) ->
    exists x s',
      storeUpdateLocations sid locs w s = (Ok tt, s')
      /\ data s' !! sid = Some x.
Proof.
  intros Hclock. induction locs as [|l locs IH]; intros s old Hs Hlive.
  - exists old, s. split; [reflexivity|exact Hs].
  - destruct (updateLocation_alive w s sid l old Hclock Hs Hlive)
      as (x1 & s1 & Hcall & Hx1 & Hlive1).
    destruct (IH s1 x1 Hx1 Hlive1) as (x & s' & Hrest & Hx).
    exists x, s'. split; [|exact Hx].
    cbn [storeUpdateLocations]. unfold bind at 1. rewrite Hcall. exact Hrest.
Qed.

End RecentLocationsFacts.

Module RecentLocationsClaims.
Import Eff Context Vocabulary Sequences Samples.

(** C4.  Start from a list of recent locations without repeated places and
    of at most five entries (the empty list both stores start with is
    one).  After any sequence of [updateLocation] calls the list is the
    most-recently-used order of the places used, cut to five entries: it
    repeats no (city, country) pair, has at most five entries, and the
    place of the latest call heads it.  This holds of the client-side
    manager, and of a session of the store for as long as the session is
    there. *)
Theorem recent_locations_mru (w : World) (locs : list LocationData) :
  (forall (s : St ContextManager.Manager),
      let before := places (recent (location (ContextManager.context (data s)))) in
      NoDup before -> length before <= 5 ->
      exists s',
        managerUpdateLocations locs w s = (Ok tt, s')
        /\ let after := places (recent (location (ContextManager.context (data s')))) in
           after = take 5 (mru (places locs) before)
           /\ NoDup after
           /\ length after <= 5
           /\ (forall l, list.last locs = Some l -> head after = Some (place l)))
  /\ (forall (s : St (gmap Js.str SessionStore.WeatherSession)) (sid : Js.str)
             (old : SessionStore.WeatherSession),
         data s !! sid = Some old ->
         let before := places (recent (location (SessionStore.context old))) in
         NoDup before -> length before <= 5 ->
         forall r s' x,
           storeUpdateLocations sid locs w s = (r, s') ->
           data s' !! sid = Some x ->
           let after := places (recent (location (SessionStore.context x))) in
           after = take 5 (mru (places locs) before)
           /\ NoDup after
           /\ length after <= 5
           /\ (forall l, list.last locs = Some l -> head after = Some (place l))).
Proof.
  assert (Hsummary : forall before after : list (Js.str * Js.str),
             NoDup before ->
             after = take 5 (mru (places locs) before) ->
             after = take 5 (mru (places locs) before)
             /\ NoDup after /\ length after <= 5
             /\ (forall l, list.last locs = Some l -> head after = Some (place l))).
  { intros before after Hnd Hafter.
    destruct (MruFacts.bounded_order after _ Hafter (MruFacts.NoDup_mru _ _ Hnd))
      as [H1 H2].
    repeat split; try assumption.
    intros l Hl. rewrite Hafter. apply MruFacts.mru_head.
    unfold places. apply last_Some in Hl as [locs' ->].
    rewrite map_app. apply last_snoc. }
  split.
  - intros s before Hnd Hlen.
    destruct (ManagerFacts.managerUpdateLocations_run w locs s before Hnd)
      as (s' & Hrun & Hafter).
    { symmetry. apply take_ge. exact Hlen. }
    exists s'. split; [exact Hrun|]. apply Hsummary; assumption.
  - intros s sid old Hs before Hnd Hlen r s' x Hrun Hx.
    apply Hsummary; [assumption|].
    apply (RecentLocationsFacts.storeUpdateLocations_run
             w sid locs s old before Hs Hnd) with (r := r) (s' := s');
      [|assumption|assumption].
    symmetry. apply take_ge. exact Hlen.
Qed.

(** Four calls, Tokyo twice: on the client and in a live session alike the
    list ends up as Varanasi, Tokyo, London. *)
Lemma recent_locations_mru_witness :
  (exists s',
      managerUpdateLocations [tokyo; london; tokyo; varanasi] browser
                             (manager freshContext) = (Ok tt, s')
      /\ places (recent (location (ContextManager.context (data s'))))
         = places [varanasi; tokyo; london])
  /\ (exists x,
        data (snd (storeUpdateLocations (js"session_1")
                     [tokyo; london; tokyo; varanasi] server
                     (registry freshSession))) !! js"session_1" = Some x
        /\ places (recent (location (SessionStore.context x)))
           = places [varanasi; tokyo; london]).
Proof.
  destruct (recent_locations_mru browser [tokyo; london; tokyo; varanasi])
    as [Hmanager _].
  destruct (recent_locations_mru server [tokyo; london; tokyo; varanasi])
    as [_ Hstore].
  split.
  - destruct (Hmanager (manager freshContext)) as (s' & Hrun & Hafter & _).
    + apply NoDup_nil_2.
    + cbn. lia.
    + exists s'. split; [exact Hrun|]. rewrite Hafter. vm_compute. reflexivity.
  - destruct (storeUpdateLocations (js"session_1")
                [tokyo; london; tokyo; varanasi] server (registry freshSession))
      as [r s'] eqn:Hrun.
    assert (Hsome : is_Some (data s' !! js"session_1")).
    { replace s' with (snd (storeUpdateLocations (js"session_1")
                              [tokyo; london; tokyo; varanasi] server
                              (registry freshSession)))
        by (rewrite Hrun; reflexivity).
      vm_compute. eauto. }
    destruct Hsome as [x Hx]. exists x. split; [exact Hx|].
    destruct (Hstore (registry freshSession) (js"session_1") freshSession)
      with (r := r) (s' := s') (x := x) as (Hafter & _).
    + apply lookup_singleton_eq.
    + apply NoDup_nil_2.
    + cbn. lia.
    + exact Hrun.
    + exact Hx.
    + rewrite Hafter. vm_compute. reflexivity.
Defined.

End RecentLocationsClaims.

(* ===================================================================== *)
(** ** Temporal updates *)
(* ===================================================================== *)

Module TemporalFacts.
Import Eff Context Vocabulary SessionFacts Runs.

(** The manager stores both arguments as given (an empty target date as
    [null]). *)
Lemma updateTemporalContext_run (w : World) (s : St ContextManager.Manager)
    (timeframe : DateType) (targetDate relativeDateContext : option Js.str) :
  exists s',
    ContextManager.updateTemporalContext timeframe targetDate
      relativeDateContext w s = (Ok tt, s')
    /\ currentTimeframe (temporal (ContextManager.context (data s'))) = timeframe
    /\ Context.targetDate (temporal (ContextManager.context (data s')))
       = Js.orNull targetDate.
Proof.
  unfold ContextManager.updateTemporalContext.
  EffFacts.step (ManagerFacts.getContext_run w s).
  match goal with
  | |- context [ContextManager.setContext ?c] =>
      EffFacts.step (ManagerFacts.setContext_run w s c);
      set (s1 := holding s {| ContextManager.context := c;
                              ContextManager.stored := ContextManager.stored (data s) |})
  end.
  match goal with
  | |- exists s', bind ?m _ w s1 = _ /\ _ =>
      assert (Hmid : exists s2,
                 m w s1 = (Ok tt, s2)
                 /\ currentTimeframe (temporal (ContextManager.context (data s2)))
                    = timeframe
                 /\ Context.targetDate (temporal (ContextManager.context (data s2)))
                    = Js.orNull targetDate)
  end.
  { destruct targetDate as [[|u d]|];
      try (exists s1; split; [reflexivity|split; reflexivity]).
    destruct (bool_decide (timeframe <> Current));
      [|exists s1; split; [reflexivity|split; reflexivity]].
    EffFacts.step (EffFacts.now_run w s1).
    EffFacts.step (ManagerFacts.getContext_run w (ticked s1)).
    match goal with
    | |- context [ContextManager.setContext ?c] =>
        EffFacts.step (ManagerFacts.setContext_run w (ticked s1) c);
        match goal with
        | |- exists s2, ContextManager.addToConversationFlow ?ty ?v w ?s = _ /\ _ =>
            destruct (ManagerFacts.addToConversationFlow_keeps w s ty v)
              as (s2 & Hflow & _ & Htemp)
        end
    end.
    exists s2. split; [exact Hflow|]. rewrite Htemp. split; reflexivity. }
  destruct Hmid as (s2 & Hmid & Htf & Htd).
  EffFacts.step Hmid.
  destruct (ManagerFacts.persistContext_keeps w s2) as (s3 & Hpersist & _ & Htemp).
  exists s3. split; [exact Hpersist|]. rewrite Htemp. split; assumption.
Qed.

(** So does the store, when the session is alive. *)
Lemma updateTemporal_run (w : World) (s s' : St SessionStore.Sessions)
    (sid : Js.str) (timeframe : DateType) (targetDate : option Js.str) x :
  SessionStore.updateTemporal sid timeframe targetDate w s = (Ok (Some x), s') ->
  data s' !! sid = Some x
  /\ currentTimeframe (temporal (SessionStore.context x)) = timeframe
  /\ Context.targetDate (temporal (SessionStore.context x)) = Js.orNull targetDate.
Proof.
  unfold SessionStore.updateTemporal, bind. rewrite getSession_run.
  destruct (data s !! sid) as [old|]; [|discriminate].
  destruct (SessionStore.expiresAt old <? reading w s)%Z; [discriminate|].
  destruct targetDate as [[|u d]|]; cbn -[Js.orNull];
    rewrite updateSession_run;
    match goal with
    | |- context [match ?o with Some _ => _ | None => _ end] => destruct o
    end; try discriminate;
    match goal with
    | |- context [if ?b then _ else _] => destruct b
    end; try discriminate;
    intros H; injection H as <- <-; cbn -[Js.orNull];
    (split; [apply lookup_insert_eq|split; reflexivity]).
Qed.

End TemporalFacts.

Module TemporalClaims.
Import Eff Context Vocabulary Samples.

(** C5, as amended.  A temporal update stores its two arguments as they
    come: the timeframe, and the target date (an absent or empty one as
    [null]); nothing checks one against the other.  So after
    [updateTemporalContext] or a successful [updateTemporal] the invariant
    (current timeframe, hence no target date) holds whenever the call did
    not pass a non-empty target date together with the timeframe
    ['current']. *)
Theorem temporal_update_keeps_invariant (w : World) (timeframe : DateType)
    (targetDate : option Js.str) :
  (timeframe = Current -> Js.truthy targetDate = false) ->
  (forall (s : St ContextManager.Manager) relativeDateContext,
      exists s',
        ContextManager.updateTemporalContext timeframe targetDate
          relativeDateContext w s = (Ok tt, s')
        /\ currentTimeframe (temporal (ContextManager.context (data s'))) = timeframe
        /\ Context.targetDate (temporal (ContextManager.context (data s')))
           = Js.orNull targetDate
        /\ temporalInvariant (temporal (ContextManager.context (data s'))))
  /\ (forall (s s' : St SessionStore.Sessions) (sid : Js.str) x,
        SessionStore.updateTemporal sid timeframe targetDate w s
        = (Ok (Some x), s') ->
        data s' !! sid = Some x
        /\ currentTimeframe (temporal (SessionStore.context x)) = timeframe
        /\ Context.targetDate (temporal (SessionStore.context x))
           = Js.orNull targetDate
        /\ temporalInvariant (temporal (SessionStore.context x))).
Proof.
  intros Hcall.
  assert (Hinv : forall t : TemporalContext,
             currentTimeframe t = timeframe ->
             Context.targetDate t = Js.orNull targetDate ->
             temporalInvariant t).
  { intros t Htf Htd Hcur. rewrite Htd. unfold Js.orNull.
    rewrite Hcall by congruence. reflexivity. }
  split.
  - intros s rel.
    destruct (TemporalFacts.updateTemporalContext_run w s timeframe targetDate rel)
      as (s' & Hrun & Htf & Htd).
    exists s'. repeat split; try assumption. apply Hinv; assumption.
  - intros s s' sid x Hrun.
    destruct (TemporalFacts.updateTemporal_run w s s' sid timeframe targetDate x Hrun)
      as (Hx & Htf & Htd).
    repeat split; try assumption. apply Hinv; assumption.
Qed.

(** Tomorrow's forecast, as [parseDate] would hand it over. *)
Lemma temporal_update_keeps_invariant_witness :
  exists s',
    ContextManager.updateTemporalContext Forecast (Some js"2025-06-02")
      (Some js"tomorrow") browser (manager freshContext) = (Ok tt, s')
    /\ temporalInvariant (temporal (ContextManager.context (data s'))).
Proof.
  destruct (temporal_update_keeps_invariant browser Forecast (Some js"2025-06-02"))
    as [Hmanager _].
  - discriminate.
  - destruct (Hmanager (manager freshContext) (Some js"tomorrow"))
      as (s' & Hrun & _ & _ & Hinv).
    exists s'. split; assumption.
Defined.

(** The unamended claim fails: a call with timeframe ['current'] and a date leaves
    the current timeframe with a target date, on the client and in the
    session store. *)
Lemma temporal_update_breaks_invariant :
  (exists s',
      ContextManager.updateTemporalContext Current (Some js"2024-01-15") None
        browser (manager freshContext) = (Ok tt, s')
      /\ ~ temporalInvariant (temporal (ContextManager.context (data s'))))
  /\ (exists x s',
        SessionStore.updateTemporal (js"session_1") Current (Some js"2024-01-15")
          server (registry freshSession) = (Ok (Some x), s')
        /\ data s' !! js"session_1" = Some x
        /\ ~ temporalInvariant (temporal (SessionStore.context x))).
Proof.
  split.
  - destruct (TemporalFacts.updateTemporalContext_run browser (manager freshContext)
                Current (Some js"2024-01-15") None) as (s' & Hrun & Htf & Htd).
    exists s'. split; [exact Hrun|].
    intros Hinv. specialize (Hinv Htf). rewrite Htd in Hinv.
    vm_compute in Hinv. discriminate Hinv.
  - destruct (SessionStore.updateTemporal (js"session_1") Current
                (Some js"2024-01-15") server (registry freshSession))
      as [r s'] eqn:Hrun.
    assert (Hok : exists x, r = Ok (Some x)).
    { replace r with (fst (SessionStore.updateTemporal (js"session_1") Current
                             (Some js"2024-01-15") server (registry freshSession)))
        by (rewrite Hrun; reflexivity).
      vm_compute. eauto. }
    destruct Hok as [x ->]. exists x, s'. split; [reflexivity|].
    destruct (TemporalFacts.updateTemporal_run _ _ _ _ _ _ _ Hrun) as (Hx & Htf & Htd).
    split; [exact Hx|].
    intros Hinv. specialize (Hinv Htf). rewrite Htd in Hinv.
    vm_compute in Hinv. discriminate Hinv.
Qed.

End TemporalClaims.

(* ===================================================================== *)
(** ** Context resolution with a stored location *)
(* ===================================================================== *)

Module ResolverClaims.
Import Eff Context Samples.

Lemma withCity_includes (language : option Js.str) (cty query : Js.str) :
  Js.includes cty (ContextManager.withCity language cty query) = true.
Proof.
  unfold ContextManager.withCity.
  destruct (Js.eqb (default (js"en") language) (js"ja")).
  - apply (JsFacts.includes_app cty [] (js"の" ++ query)).
  - replace (query ++ js" in " ++ cty) with ((query ++ js" in ") ++ cty ++ [])
      by (rewrite app_nil_r, app_assoc; reflexivity).
    apply JsFacts.includes_app.
Qed.

(** The client-side resolver does what the specification describes:
    without a locative marker and with a current location, it asks for no
    location and splices the stored city into the query. *)
Lemma resolveImplicitContext_uses_location (w : World)
    (s : St ContextManager.Manager) (query : Js.str) (language : option Js.str)
    (l : LocationData) :
  ContextManager.hasExplicitLocation query language = false ->
  current (location (ContextManager.context (data s))) = Some l ->
  exists r,
    ContextManager.resolveImplicitContext query language w s = (Ok r, s)
    /\ ContextManager.needsLocationInput r = false
    /\ ContextManager.contextualQuery r
       = ContextManager.withCity language (city l) query
    /\ Js.includes (city l) (ContextManager.contextualQuery r) = true.
Proof.
  intros Hno Hcur. unfold ContextManager.resolveImplicitContext.
  EffFacts.step (ManagerFacts.getContext_run w s).
  rewrite Hno, Hcur. eexists. split; [reflexivity|].
  cbn [ContextManager.needsLocationInput ContextManager.contextualQuery negb andb].
  split; [|split; [reflexivity|apply withCity_includes]].
  apply negb_false_iff, bool_decide_eq_true. eauto.
Qed.

(** C6, at the input where the code fails it.  A live session holds
    Varanasi as its current location and the follow-up [Tomorrow?] carries
    no locative marker: [resolveContextWithSession] throws a
    ReferenceError, on the identifier [hasExplicitLocation] that its scope
    does not declare, instead of returning a rewritten query.  On the same
    context the client-side [resolveImplicitContext] returns
    [Tomorrow? in Varanasi] and asks for no location. *)
Theorem resolveContextWithSession_follow_up :
  fst (SessionStore.resolveContextWithSession (js"session_1") (js"Tomorrow?")
         (Some js"en") server (registry varanasiSession))
  = Throw (ReferenceError "hasExplicitLocation")
  /\ fst (ContextManager.resolveImplicitContext (js"Tomorrow?") (Some js"en")
            browser (manager (SessionStore.context varanasiSession)))
     = Ok {| ContextManager.res_location := Some varanasi;
             ContextManager.res_temporal :=
               temporal (SessionStore.context varanasiSession);
             ContextManager.needsLocationInput := false;
             ContextManager.needsTimeInput := false;
             ContextManager.contextualQuery := js"Tomorrow? in Varanasi" |}.
Proof.
  split.
  - apply (SessionClaims.resolve_with_session_throws server
             (registry varanasiSession) (js"session_1") (js"Tomorrow?")
             (Some js"en") varanasiSession).
    + apply lookup_singleton_eq.
    + vm_compute. discriminate.
  - vm_compute. reflexivity.
Qed.

End ResolverClaims.

(* ===================================================================== *)
(** ** The multi-tool handler *)
(* ===================================================================== *)

Module ChatFacts.
Import Wire Eff Route Rounds EffFacts.

(** The handler up to the inspection of the first completion: past the
    guards it runs the first round and carries on from the state that
    round leaves. *)
Lemma POST_after_first_round {X} (w : World) (s s1 : St X) (req : ChatRequest)
    (k : N) (key : Js.str) (m : ChatMessage) (message : AssistantMessage)
    (toolCall : ToolCall) (more : list ToolCall) :
  apiKey w = Some (k :: key) ->
  list.last (req_messages req) = Some m ->
  role m = user ->
  chatFirstRound req w s = (Ok message, s1) ->
  tool_calls message = Some (toolCall :: more) ->
  Chat.POST req w s =
  match
    try_catch
      (bind (Promise_all (map Chat.runToolCall (toolCall :: more)))
         (fun toolResults =>
          bind (fetchCompletion
                  (Chat.finalRequest (req_language req) (req_messages req)
                                     message toolResults))
            (fun finalResponse =>
             bind (checked OpenAIFinalError finalResponse)
               (fun finalCompletion =>
                bind (firstChoice finalCompletion)
                  (fun finalMessage =>
                   ret (json {| response := a_content finalMessage;
                                weatherData := Some (Many (map snd toolResults));
                                toolsUsed := Some (Z.of_nat (length toolResults));
                                multiCity := Some (1 <? Z.of_nat (length toolResults))%Z;
                                toolUsed := None; error := None |}))))))
      (fun _ => ret (failed (Chat.errorMessage (req_language req)))) w s1
  with
  | (Ok a, s') => (Ok a, s')
  | (Throw e, s') => (Ok (fallback (req_language req)), s')
  end.
Proof.
  intros Hkey Hlast Hrole Hfirst Htools.
  unfold chatFirstRound in Hfirst.
  apply bind_inv_ok in Hfirst as (prompt & sa & Hprompt & Hfirst).
  apply bind_inv_ok in Hfirst as (response & sb & Hfetch & Hfirst).
  apply bind_inv_ok in Hfirst as (completion & sc & Hchecked & Hchoice).
  unfold Chat.POST. step (ask_run w s). rewrite Hkey, Hlast.
  destruct m as [r c]. cbn in Hrole. subst r.
  unfold try_catch at 1.
  step Hprompt. step Hfetch. step Hchecked. step Hchoice.
  rewrite Htools. reflexivity.
Qed.

(** Outcome [i] of a settled map is the outcome of call [i]. *)
Lemma settle_all_pointwise {X A C} (f : C -> M X A) (w : World) (calls : list C) :
  forall (s s' : St X) (rs : list (Result A)),
    settle_all (map f calls) w s = (Ok rs, s') ->
    Forall2 (fun c r => exists sa sb, f c w sa = (r, sb)) calls rs.
Proof.
  induction calls as [|c calls IH]; intros s s' rs H.
  - cbn in H. injection H as <- <-. constructor.
  - cbn [map settle_all] in H. unfold bind at 1, settle in H.
    destruct (f c w s) as [r s1] eqn:Hc.
    destruct (settle_all_total w (map f calls) s1) as (rs' & s2 & Hrs & _).
    unfold bind in H. rewrite Hrs in H. cbn in H. injection H as <- <-.
    constructor; [eauto|]. eapply IH, Hrs.
Qed.

(** A tool call that succeeds had parsable arguments, ran the lookup on
    them, and tags the result with its own identifier. *)
Lemma runToolCall_ok {X} (w : World) (sa sb : St X) (toolCall : ToolCall)
    (r : Js.str * WeatherToolResponse) :
  Chat.runToolCall toolCall w sa = (Ok r, sb) ->
  fst r = id toolCall
  /\ exists toolArgs,
       arguments toolCall = Some toolArgs
       /\ WeatherTools.executeWeatherTool toolArgs w sa = (Ok (snd r), sb).
Proof.
  unfold Chat.runToolCall. destruct (arguments toolCall) as [toolArgs|];
    [|discriminate].
  intros H. apply bind_inv_ok in H as (result & s1 & Hexec & Hret).
  cbv [ret] in Hret. injection Hret as <- <-. eauto.
Qed.

Lemma Forall2_map_Ok {A C} (P : C -> Result A -> Prop) (calls : list C) (l : list A) :
  Forall2 P calls (map Ok l) -> Forall2 (fun c a => P c (Ok a)) calls l.
Proof.
  revert calls. induction l as [|a l IH]; intros calls H; inversion H; subst;
    constructor; auto.
Qed.

(** When every call of a settled map succeeded, result [i] belongs to call
    [i]. *)
Lemma settled_calls {X} (w : World) (calls : list ToolCall) (s s' : St X)
    (results : list (Js.str * WeatherToolResponse)) :
  settle_all (map Chat.runToolCall calls) w s = (Ok (map Ok results), s') ->
  Forall2 (fun call r =>
             fst r = id call
             /\ exists toolArgs (sa sb : St X),
                  arguments call = Some toolArgs
                  /\ WeatherTools.executeWeatherTool toolArgs w sa
                     = (Ok (snd r), sb))
          calls results.
Proof.
  intros Hsettle.
  pose proof (settle_all_pointwise _ _ _ _ _ _ Hsettle) as Hp.
  apply Forall2_map_Ok in Hp. clear Hsettle.
  induction Hp as [|call r calls' results' (sa & sb & Hcall) _ IH];
    [constructor|].
  constructor; [|exact IH].
  destruct (runToolCall_ok w sa sb call r Hcall) as (Hid & toolArgs & Hargs & Hexec).
  split; [exact Hid|]. eauto.
Qed.

End ChatFacts.

Module ChatClaims.
Import Wire Eff Route Rounds EffFacts ChatFacts Samples.

(** C1.  Once the first completion asks for tool calls, every requested
    lookup is run and the outcomes are joined.  If any outcome is a
    rejection, the handler answers from the state the lookups left (no
    second completion is requested) with status 200, [error: true], the
    localized could-not-retrieve message, and no [weatherData],
    [toolsUsed] or [multiCity]: nothing of the lookups that succeeded. *)
Theorem failed_lookup_fails_turn {X} (w : World) (s s1 s2 : St X)
    (req : ChatRequest) (k : N) (key : Js.str) (m : ChatMessage)
    (message : AssistantMessage) (toolCall : ToolCall) (more : list ToolCall)
    (outcomes : list (Result (Js.str * WeatherToolResponse))) :
  apiKey w = Some (k :: key) ->
  list.last (req_messages req) = Some m ->
  role m = user ->
  chatFirstRound req w s = (Ok message, s1) ->
  tool_calls message = Some (toolCall :: more) ->
  settle_all (map Chat.runToolCall (toolCall :: more)) w s1 = (Ok outcomes, s2) ->
  (exists e, In (Throw e) outcomes) ->
  length outcomes = length (toolCall :: more)
  /\ Chat.POST req w s
     = (Ok {| http_status := 200;
              body := {| response := Some (Chat.errorMessage (req_language req));
                         weatherData := None; toolsUsed := None;
                         multiCity := None; toolUsed := None;
                         error := Some ErrorTrue |} |},
        s2).
Proof.
  intros Hkey Hlast Hrole Hfirst Htools Hsettle Hfail.
  split.
  { destruct (settle_all_total w (map Chat.runToolCall (toolCall :: more)) s1)
      as (rs & s' & Hrs & Hlen).
    rewrite Hsettle in Hrs. injection Hrs as <- <-.
    rewrite Hlen. apply length_map. }
  apply join_throw in Hfail as [e Hjoin].
  rewrite (POST_after_first_round w s s1 req k key m message toolCall more)
    by assumption.
  unfold try_catch.
  rewrite (run_bind_throw _ _ w s1 s2 e); [reflexivity|].
  unfold Promise_all. step Hsettle. rewrite Hjoin. reflexivity.
Qed.

(** Tokyo is on the table; Atlantis is not, and the geocoder knows no such
    place. *)
Lemma failed_lookup_fails_turn_witness :
  exists s',
    Chat.POST (userAsks "Tokyo and Atlantis weather") (online "Atlantis" true)
              (initial tt)
    = (Ok (failed (js"Sorry, I couldn't get weather information. Please try different city names.")),
       s')
    /\ lookups (log s')
       = [ {| location := js"Tokyo"; date := None |};
           {| location := js"Atlantis"; date := None |} ].
Proof.
  destruct (settle_all (map Chat.runToolCall [call "call_1" "Tokyo"; call "call_2" "Atlantis"])
              (online "Atlantis" true)
              (snd (chatFirstRound (userAsks "Tokyo and Atlantis weather")
                      (online "Atlantis" true) (initial tt))))
    as [[outcomes|e] s2] eqn:Hsettle; [|vm_compute in Hsettle; discriminate Hsettle].
  destruct (failed_lookup_fails_turn (online "Atlantis" true) (initial tt)
              (snd (chatFirstRound (userAsks "Tokyo and Atlantis weather")
                      (online "Atlantis" true) (initial tt)))
              s2 (userAsks "Tokyo and Atlantis weather")
              115%N (tl (js"sk-test"))
              {| role := user; content := js"Tokyo and Atlantis weather" |}
              (asksFor "Atlantis") (call "call_1" "Tokyo") [call "call_2" "Atlantis"]
              outcomes)
    as (_ & Hrun).
  - reflexivity.
  - reflexivity.
  - reflexivity.
  - vm_compute. reflexivity.
  - reflexivity.
  - exact Hsettle.
  - vm_compute in Hsettle. injection Hsettle as <- _.
    eexists. right. left. reflexivity.
  - exists s2. split.
    + rewrite Hrun. f_equal.
    + vm_compute in Hsettle. injection Hsettle as _ <-. vm_compute. reflexivity.
Defined.

(** C7, as amended.  When the first completion asks for N tool calls, all
    N lookups succeed and the second, formatting completion succeeds too,
    the response carries [toolsUsed = N], [multiCity] true exactly when
    N > 1, and N observations; observation [i] is what the lookup on the
    arguments of call [i] returned.  The second request is the last thing
    logged; its messages end with one tool message per result, in the
    order of the calls, each tagged with the identifier of its call. *)
Theorem all_lookups_succeed {X} (w : World) (s s1 s2 : St X)
    (req : ChatRequest) (k : N) (key : Js.str) (m : ChatMessage)
    (message : AssistantMessage) (toolCall : ToolCall) (more : list ToolCall)
    (results : list (Js.str * WeatherToolResponse))
    (status : Z) (final : AssistantMessage) (others : list AssistantMessage) :
  apiKey w = Some (k :: key) ->
  list.last (req_messages req) = Some m ->
  role m = user ->
  chatFirstRound req w s = (Ok message, s1) ->
  tool_calls message = Some (toolCall :: more) ->
  settle_all (map Chat.runToolCall (toolCall :: more)) w s1
  = (Ok (map Ok results), s2) ->
  completions w (Chat.finalRequest (req_language req) (req_messages req)
                                   message results)
  = Reply true status (Some {| choices := final :: others |}) ->
  let calls := toolCall :: more in
  let n := Z.of_nat (length calls) in
  exists resp s3,
    Chat.POST req w s = (Ok resp, s3)
    /\ http_status resp = 200%Z
    /\ error (body resp) = None
    /\ response (body resp) = a_content final
    /\ toolsUsed (body resp) = Some n
    /\ multiCity (body resp) = Some (1 <? n)%Z
    /\ weatherData (body resp) = Some (Many (map snd results))
    /\ length results = length calls
    /\ Forall2 (fun call r =>
                  fst r = id call
                  /\ exists toolArgs (sa sb : St X),
                       arguments call = Some toolArgs
                       /\ WeatherTools.executeWeatherTool toolArgs w sa
                          = (Ok (snd r), sb))
               calls results
    /\ log s3
       = log s2 ++ [EvCompletion (Chat.finalRequest (req_language req)
                                    (req_messages req) message results)]
    /\ Wire.messages (Chat.finalRequest (req_language req) (req_messages req)
                                        message results)
       = MSystem (ComparisonFormattingPrompt (japanese (req_language req)))
         :: map MChat (req_messages req) ++ [MAssistant message]
         ++ map (fun r => MTool (fst r) (snd r)) results.
Proof.
  intros Hkey Hlast Hrole Hfirst Htools Hsettle Hfinal calls n.
  assert (Hlen : length results = length calls).
  { destruct (settle_all_total w (map Chat.runToolCall calls) s1)
      as (rs & s' & Hrs & Hl).
    subst calls. rewrite Hsettle in Hrs. injection Hrs as <- <-.
    rewrite !length_map in Hl. exact Hl. }
  assert (Hpoint : Forall2 (fun call r =>
                      fst r = id call
                      /\ exists toolArgs (sa sb : St X),
                           arguments call = Some toolArgs
                           /\ WeatherTools.executeWeatherTool toolArgs w sa
                              = (Ok (snd r), sb))
                     calls results).
  { exact (settled_calls w calls s1 s2 results Hsettle). }
  eexists. eexists. split.
  - rewrite (POST_after_first_round w s s1 req k key m message toolCall more)
      by assumption.
    unfold try_catch.
    assert (Hall : Promise_all (map Chat.runToolCall (toolCall :: more)) w s1
                   = (Ok results, s2)).
    { unfold Promise_all. step Hsettle.
      rewrite (proj2 (join_ok (map Ok results) results) eq_refl). reflexivity. }
    step Hall. unfold fetchCompletion, bind, emit, ask, ret. cbn [log ticks data].
    rewrite Hfinal. cbn. reflexivity.
  - cbn [http_status body json error response toolsUsed multiCity weatherData log].
    subst n. rewrite Hlen.
    repeat split; try reflexivity; assumption.
Qed.

(** Tokyo and London, both on the table, and a provider that formats. *)
Lemma all_lookups_succeed_witness :
  exists resp s',
    Chat.POST (userAsks "Tokyo and London weather") (online "London" true)
              (initial tt) = (Ok resp, s')
    /\ toolsUsed (body resp) = Some 2%Z
    /\ multiCity (body resp) = Some true
    /\ response (body resp) = Some (js"Tokyo is sunny.").
Proof.
  destruct (settle_all (map Chat.runToolCall [call "call_1" "Tokyo"; call "call_2" "London"])
              (online "London" true)
              (snd (chatFirstRound (userAsks "Tokyo and London weather")
                      (online "London" true) (initial tt))))
    as [outcomes s2] eqn:Hsettle.
  assert (Hok : exists results, outcomes = Ok (map Ok results)).
  { vm_compute in Hsettle. injection Hsettle as <- _.
    eexists [(_, _); (_, _)]. reflexivity. }
  destruct Hok as [results ->].
  destruct (all_lookups_succeed (online "London" true) (initial tt)
              (snd (chatFirstRound (userAsks "Tokyo and London weather")
                      (online "London" true) (initial tt)))
              s2 (userAsks "Tokyo and London weather")
              115%N (tl (js"sk-test"))
              {| role := user; content := js"Tokyo and London weather" |}
              (asksFor "London") (call "call_1" "Tokyo") [call "call_2" "London"]
              results 200%Z formatted [])
    as (resp & s3 & Hrun & _ & _ & Hresp & Hused & Hmulti & _).
  - reflexivity.
  - reflexivity.
  - reflexivity.
  - vm_compute. reflexivity.
  - reflexivity.
  - exact Hsettle.
  - reflexivity.
  - exists resp, s3. repeat split; assumption.
Defined.

(** The unamended claim fails: both lookups succeed, the formatting completion
    comes back with status 500, and the response is the error body, which
    carries no [toolsUsed], [multiCity] or observations. *)
Lemma lookups_succeed_formatting_fails :
  let w := online "London" false in
  let req := userAsks "Tokyo and London weather" in
  exists message s1 results s2,
    chatFirstRound req w (initial tt) = (Ok message, s1)
    /\ tool_calls message = Some [call "call_1" "Tokyo"; call "call_2" "London"]
    /\ settle_all (map Chat.runToolCall [call "call_1" "Tokyo"; call "call_2" "London"])
                  w s1 = (Ok (map Ok results), s2)
    /\ length results = 2
    /\ fst (Chat.POST req w (initial tt))
       = Ok (failed (Chat.errorMessage None))
    /\ toolsUsed (body (failed (Chat.errorMessage None))) = None
    /\ multiCity (body (failed (Chat.errorMessage None))) = None
    /\ weatherData (body (failed (Chat.errorMessage None))) = None.
Proof.
  cbv zeta.
  eexists. eexists. eexists [(_, _); (_, _)]. eexists.
  split; [vm_compute; reflexivity|].
  split; [reflexivity|].
  split; [vm_compute; reflexivity|].
  split; [reflexivity|].
  split; [vm_compute; reflexivity|].
  repeat split.
Qed.

End ChatClaims.

(* ===================================================================== *)
(** ** Which lookups a run performs *)
(* ===================================================================== *)

Module LookupFacts.
Import Wire Eff Route Rounds EffFacts.

Lemma lookups_app (a b : list Event) : lookups (a ++ b) = lookups a ++ lookups b.
Proof.
  induction a as [|e a IH]; [reflexivity|].
  destruct e; cbn [app lookups]; rewrite IH; reflexivity.
Qed.

Lemma quiet_ret {X A} (a : A) : quiet (X := X) (ret a).
Proof. intros w s s' r H. injection H as _ <-. reflexivity. Qed.

Lemma quiet_throw {X A} (e : Error) : quiet (X := X) (A := A) (throw e).
Proof. intros w s s' r H. injection H as _ <-. reflexivity. Qed.

Lemma quiet_now {X} : quiet (X := X) now.
Proof. intros w s s' r H. injection H as _ <-. reflexivity. Qed.

Lemma quiet_ask {X} : quiet (X := X) ask.
Proof. intros w s s' r H. injection H as _ <-. reflexivity. Qed.

Lemma quiet_emit {X} (e : Event) : lookups [e] = [] -> quiet (X := X) (emit e).
Proof.
  intros He w s s' r H. injection H as _ <-. cbn [log].
  rewrite lookups_app, He. apply app_nil_r.
Qed.

Lemma quiet_bind {X A B} (m : M X A) (k : A -> M X B) :
  quiet m -> (forall a, quiet (k a)) -> quiet (bind m k).
Proof.
  intros Hm Hk w s s' r H. unfold bind in H.
  destruct (m w s) as [[a|e] s1] eqn:E.
  - rewrite (Hk a w s1 s' r H). eapply Hm, E.
  - injection H as _ <-. eapply Hm, E.
Qed.

Lemma quiet_try_catch {X A} (m : M X A) (h : Error -> M X A) :
  quiet m -> (forall e, quiet (h e)) -> quiet (try_catch m h).
Proof.
  intros Hm Hh w s s' r H. unfold try_catch in H.
  destruct (m w s) as [[a|e] s1] eqn:E.
  - injection H as _ <-. eapply Hm, E.
  - rewrite (Hh e w s1 s' r H). eapply Hm, E.
Qed.

(** Solve [quiet] goals by following the structure of the code. *)
Ltac quiet_step :=
  first
    [ apply quiet_ret | apply quiet_throw | apply quiet_now | apply quiet_ask
    | apply quiet_emit; reflexivity
    | apply quiet_bind; [|intros ?]
    | apply quiet_try_catch; [|intros ?]
    | match goal with
      | |- quiet (match ?x with _ => _ end) => destruct x
      | |- quiet (if ?b then _ else _) => destruct b
      end ].

Ltac quiet_all := repeat quiet_step.

Lemma quiet_fetchCompletion {X} (req : CompletionRequest) :
  quiet (X := X) (fetchCompletion req).
Proof. unfold fetchCompletion. quiet_all. Qed.

Lemma quiet_checked {X B} (notOk : Z -> Error) (r : Fetched B) :
  quiet (X := X) (checked notOk r).
Proof. unfold checked. quiet_all. Qed.

Lemma quiet_firstChoice {X} (c : CompletionBody) : quiet (X := X) (firstChoice c).
Proof. unfold firstChoice. quiet_all. Qed.

Lemma quiet_getCoordinates {X} (location : Js.str) :
  quiet (X := X) (WeatherTools.getCoordinates location).
Proof.
  unfold WeatherTools.getCoordinates, WeatherTools.fetchGeocode. quiet_all.
Qed.

Lemma quiet_optimizedFirstRound {X} (req : ChatRequest) :
  quiet (X := X) (optimizedFirstRound req).
Proof.
  unfold optimizedFirstRound.
  apply quiet_bind; [apply quiet_fetchCompletion|intros response].
  apply quiet_bind; [apply quiet_checked|intros completion].
  apply quiet_firstChoice.
Qed.

(** [executeWeatherTool] records its own call, once, and no other. *)
Lemma executeWeatherTool_lookups {X} (w : World) (s s' : St X)
    (params : WeatherToolParams) r :
  WeatherTools.executeWeatherTool params w s = (r, s') ->
  lookups (log s') = lookups (log s) ++ [params].
Proof.
  unfold WeatherTools.executeWeatherTool. intros H.
  unfold bind at 1, emit in H.
  match type of H with
  | ?body w ?s0 = _ =>
      assert (Hq : quiet body);
      [|rewrite (Hq w s0 s' r H); cbn [log]; rewrite lookups_app; reflexivity]
  end.
  apply quiet_try_catch; [|intros e; apply quiet_throw].
  apply quiet_bind; [apply quiet_getCoordinates|intros coords].
  unfold WeatherTools.fetchWeather. quiet_all.
Qed.

End LookupFacts.

(* ===================================================================== *)
(** ** The single-tool handler *)
(* ===================================================================== *)

Module ChatOptimizedFacts.
Import Wire Eff Route Rounds EffFacts LookupFacts.

(** The handler from the inspection of the first completion on. *)
Lemma optimized_after_first_round {X} (w : World) (s s1 : St X)
    (req : ChatRequest) (k : N) (key : Js.str) (message : AssistantMessage)
    (toolCall : ToolCall) (more : list ToolCall) :
  apiKey w = Some (k :: key) ->
  optimizedFirstRound req w s = (Ok message, s1) ->
  tool_calls message = Some (toolCall :: more) ->
  ChatOptimized.POST req w s =
  match
    match arguments toolCall with
    | None => throw SyntaxError
    | Some toolArgs =>
        try_catch
          (bind (WeatherTools.executeWeatherTool toolArgs)
             (fun weatherResult =>
              bind (fetchCompletion
                      (optimizedFinalRequest req message toolCall weatherResult))
                (fun finalResponse =>
                 bind (checked OpenAIFinalError finalResponse)
                   (fun finalCompletion =>
                    bind (firstChoice finalCompletion)
                      (fun finalMessage =>
                       ret (json {| response := a_content finalMessage;
                                    weatherData := Some (Single weatherResult);
                                    toolsUsed := None; multiCity := None;
                                    toolUsed := Some true; error := None |}))))))
          (fun _ => ret (failed (ChatOptimized.errorMessage (req_language req) toolArgs)))
    end w s1
  with
  | (Ok a, s') => (Ok a, s')
  | (Throw e, s') => (Ok (fallback (req_language req)), s')
  end.
Proof.
  intros Hkey Hfirst Htools.
  unfold optimizedFirstRound in Hfirst.
  apply bind_inv_ok in Hfirst as (response & sa & Hfetch & Hfirst).
  apply bind_inv_ok in Hfirst as (completion & sb & Hchecked & Hchoice).
  unfold ChatOptimized.POST. step (ask_run w s). rewrite Hkey.
  unfold try_catch at 1.
  step Hfetch. step Hchecked. step Hchoice.
  rewrite Htools. reflexivity.
Qed.

(** What follows a lookup in the single-tool handler performs none. *)
Lemma quiet_formatting {X} (req : ChatRequest) (message : AssistantMessage)
    (toolCall : ToolCall) (weatherResult : WeatherToolResponse) :
  quiet (X := X)
    (bind (fetchCompletion (optimizedFinalRequest req message toolCall weatherResult))
       (fun finalResponse =>
        bind (checked OpenAIFinalError finalResponse)
          (fun finalCompletion =>
           bind (firstChoice finalCompletion)
             (fun finalMessage =>
              ret (json {| response := a_content finalMessage;
                           weatherData := Some (Single weatherResult);
                           toolsUsed := None; multiCity := None;
                           toolUsed := Some true; error := None |}))))).
Proof.
  apply quiet_bind; [apply quiet_fetchCompletion|intros finalResponse].
  apply quiet_bind; [apply quiet_checked|intros finalCompletion].
  apply quiet_bind; [apply quiet_firstChoice|intros finalMessage].
  apply quiet_ret.
Qed.

End ChatOptimizedFacts.

Module ChatOptimizedClaims.
Import Wire Eff Route Rounds EffFacts LookupFacts ChatOptimizedFacts Samples.

(** C8, as amended.  When the first completion carries one or more tool
    calls and the arguments of the first one parse, the handler performs
    exactly one lookup, with those arguments, whatever the other calls are
    and however the turn ends.  When that lookup and the formatting
    completion both succeed, the response carries the one observation (not
    an array) and [toolUsed: true]. *)
Theorem first_tool_call_only {X} (w : World) (s s1 : St X) (req : ChatRequest)
    (k : N) (key : Js.str) (message : AssistantMessage)
    (toolCall : ToolCall) (more : list ToolCall) (toolArgs : WeatherToolParams) :
  apiKey w = Some (k :: key) ->
  optimizedFirstRound req w s = (Ok message, s1) ->
  tool_calls message = Some (toolCall :: more) ->
  arguments toolCall = Some toolArgs ->
  (exists resp s',
      ChatOptimized.POST req w s = (Ok resp, s')
      /\ lookups (log s') = lookups (log s) ++ [toolArgs])
  /\ (forall weatherResult (s2 : St X) status final others,
        WeatherTools.executeWeatherTool toolArgs w s1 = (Ok weatherResult, s2) ->
        completions w (optimizedFinalRequest req message toolCall weatherResult)
        = Reply true status (Some {| choices := final :: others |}) ->
        exists s3,
          ChatOptimized.POST req w s
          = (Ok (json {| response := a_content final;
                         weatherData := Some (Single weatherResult);
                         toolsUsed := None; multiCity := None;
                         toolUsed := Some true; error := None |}), s3)).
Proof.
  intros Hkey Hfirst Htools Hargs.
  rewrite (optimized_after_first_round w s s1 req k key message toolCall more)
    by assumption.
  rewrite Hargs. unfold try_catch.
  assert (Hquiet1 : lookups (log s1) = lookups (log s)).
  { eapply quiet_optimizedFirstRound, Hfirst. }
  split.
  - destruct (WeatherTools.executeWeatherTool toolArgs w s1) as [[obs|e] s2] eqn:Hexec.
    + step Hexec.
      pose proof (executeWeatherTool_lookups w s1 s2 toolArgs _ Hexec) as Hone.
      pose proof (quiet_formatting (X := X) req message toolCall obs) as Hq.
      destruct (bind (fetchCompletion
                        (optimizedFinalRequest req message toolCall obs)) _ w s2)
        as [[resp|e] s3] eqn:Hrest.
      * exists resp, s3. split; [reflexivity|].
        rewrite (Hq w s2 s3 _ Hrest), Hone, Hquiet1. reflexivity.
      * eexists. exists s3. split; [reflexivity|].
        rewrite (Hq w s2 s3 _ Hrest), Hone, Hquiet1. reflexivity.
    + rewrite (run_bind_throw _ _ w s1 s2 e Hexec).
      pose proof (executeWeatherTool_lookups w s1 s2 toolArgs _ Hexec) as Hone.
      eexists. exists s2. split; [reflexivity|].
      rewrite Hone, Hquiet1. reflexivity.
  - intros weatherResult s2 status final others Hexec Hfinal.
    step Hexec. unfold fetchCompletion, bind, emit, ask, ret. cbn [log ticks data].
    rewrite Hfinal. cbn. eexists. reflexivity.
Qed.

(** The assistant asks for Tokyo and London; only Tokyo is looked up. *)
Lemma first_tool_call_only_witness :
  exists resp s',
    ChatOptimized.POST (userAsks "Tokyo and London weather") (online "London" true)
                       (initial tt) = (Ok resp, s')
    /\ lookups (log s') = [ {| location := js"Tokyo"; date := None |} ].
Proof.
  destruct (first_tool_call_only (online "London" true) (initial tt)
              (snd (optimizedFirstRound (userAsks "Tokyo and London weather")
                      (online "London" true) (initial tt)))
              (userAsks "Tokyo and London weather") 115%N (tl (js"sk-test"))
              (asksFor "London") (call "call_1" "Tokyo") [call "call_2" "London"]
              {| location := js"Tokyo"; date := None |})
    as [(resp & s' & Hrun & Hlookups) _].
  - reflexivity.
  - vm_compute. reflexivity.
  - reflexivity.
  - reflexivity.
  - exists resp, s'. split; [exact Hrun|exact Hlookups].
Defined.

(** The unamended claim fails: the completion carries a tool call, its arguments
    are not JSON, and the handler performs no lookup at all before it
    answers with the generic error and status 500. *)
Lemma unparsable_arguments_no_lookup :
  exists s1 s',
    optimizedFirstRound (userAsks "Tokyo weather") garbling (initial tt)
    = (Ok garbled, s1)
    /\ (exists toolCall, tool_calls garbled = Some [toolCall])
    /\ ChatOptimized.POST (userAsks "Tokyo weather") garbling (initial tt)
       = (Ok (fallback None), s')
    /\ lookups (log s') = [].
Proof.
  eexists. eexists.
  split; [vm_compute; reflexivity|].
  split; [eexists; reflexivity|].
  split; [vm_compute; reflexivity|].
  reflexivity.
Qed.

End ChatOptimizedClaims.

(* ===================================================================== *)
(** ** Dates written and read back *)
(* ===================================================================== *)

Module DateRoundTrip.
Import JsDate WeatherTools Vocabulary Further.
Local Open Scope Z_scope.

(** The month and the day of the month of any day number are in range. *)
Lemma civil_of_day_range z :
  let '(y, m, d) := civil_of_day z in 1 <= m <= 12 /\ 1 <= d <= 31.
Proof.
  unfold civil_of_day.
  set (doe := (z + 719468) mod 146097).
  assert (Hdoe : 0 <= doe < 146097) by (apply Z.mod_pos_bound; lia).
  destruct (CalendarFacts.era_bounds doe Hdoe) as [_ Hdoy].
  set (doy := dayOfYear doe) in *.
  destruct (CalendarFacts.month_index_inverse doy Hdoy) as [Hmp _].
  set (mp := (5 * doy + 2) / 153) in *.
  split.
  - destruct (mp <? 10) eqn:E; [apply Z.ltb_lt in E|apply Z.ltb_ge in E]; lia.
  - subst mp. Z.to_euclidean_division_equations. lia.
Qed.

Lemma digit_isDigit x : Js.isDigit (Z.to_N (48 + x mod 10)) = true.
Proof.
  pose proof (Z.mod_pos_bound x 10).
  unfold Js.isDigit. apply andb_true_intro. split; apply N.leb_le; lia.
Qed.

Lemma digit_digitVal x : Js.digitVal (Z.to_N (48 + x mod 10)) = x mod 10.
Proof.
  pose proof (Z.mod_pos_bound x 10). unfold Js.digitVal.
  rewrite Z2N.id by lia. lia.
Qed.

(** A calendar date with a four-digit year is a strict date literal, and
    reading it back gives the midnight (UTC) of its day. *)
Lemma calendarDate_parse day :
  fourDigitYear day ->
  isDateLiteral (calendarDate day) = true
  /\ parseDateLiteral (calendarDate day) = Some (day * msPerDay).
Proof.
  unfold fourDigitYear, calendarDate. intros Hy.
  pose proof (civil_of_day_range day) as Hr.
  pose proof (CalendarFacts.day_of_civil_of_day day) as Hrt.
  destruct (civil_of_day day) as [[y m] d]. cbn [fst] in Hy.
  destruct Hr as [Hm Hd]. unfold isoYear.
  replace ((0 <=? y) && (y <=? 9999)) with true
    by (symmetry; apply andb_true_intro; split; apply Z.leb_le; lia).
  cbn [digits app]. split.
  - cbn [isDateLiteral forallb]. rewrite !digit_isDigit. reflexivity.
  - cbn [parseDateLiteral]. rewrite !digit_digitVal.
    replace (1000 * (y / 10 / 10 / 10 mod 10) + 100 * (y / 10 / 10 mod 10)
             + 10 * (y / 10 mod 10) + y mod 10) with y
      by (Z.to_euclidean_division_equations; lia).
    replace (10 * (m / 10 mod 10) + m mod 10) with m
      by (Z.to_euclidean_division_equations; lia).
    replace (10 * (d / 10 mod 10) + d mod 10) with d
      by (Z.to_euclidean_division_equations; lia).
    replace ((1 <=? m) && (m <=? 12) && (1 <=? d) && (d <=? 31)) with true
      by (symmetry; repeat (apply andb_true_intro; split); apply Z.leb_le; lia).
    f_equal. unfold MakeDate, MakeDay.
    rewrite Z.div_small by lia. rewrite Z.mod_small by lia.
    replace (y + 0) with y by lia. replace (m - 1 + 1) with m by lia.
    assert (Hlin : day_of_civil y m 1 = day_of_civil y m d - d + 1)
      by (unfold day_of_civil; lia).
    lia.
Qed.

End DateRoundTrip.

Module ParseDateFurther.
Import JsDate WeatherTools Vocabulary Further ParseDateFacts DateRoundTrip.
Local Open Scope Z_scope.

Lemma keyword_dec (k : Js.str) : {In k dateKeywords} + {~ In k dateKeywords}.
Proof. apply in_dec. intros a b. destruct (decide (a = b)); [left|right]; assumption. Defined.

Lemma keyword_cases k :
  In k dateKeywords ->
  (k = js"today" \/ k = js"now") \/ k = js"tomorrow" \/ k = js"yesterday".
Proof.
  cbn [dateKeywords In]. intros [H|[H|[H|[H|[]]]]]; subst; auto.
Qed.

Lemma Day_bounds today :
  Day today * msPerDay <= today < (Day today + 1) * msPerDay.
Proof. unfold Day, msPerDay. Z.to_euclidean_division_equations. lia. Qed.

(** A calendar date is classified by comparing its midnight with now. *)
Lemma parseDate_calendarDate tza today day :
  fourDigitYear day ->
  parseDate tza today (Some (calendarDate day))
  = {| targetDate := Some (calendarDate day);
       dateType := if day * msPerDay <? today then Historical else Forecast |}.
Proof.
  intros Hy. destruct (calendarDate_parse day Hy) as [Hlit Hparse].
  rewrite (parseDate_literal tza today _ Hlit), Hparse. reflexivity.
Qed.

Lemma calendarDate_nonempty day : calendarDate day <> [].
Proof.
  unfold calendarDate. destruct (civil_of_day day) as [[y m] d].
  destruct (isoYear y); discriminate.
Qed.

(** The target date of a parsed date: there exactly when the type is not
    current, and never the empty string. *)
Lemma parseDate_target (tza today : Z) (dateStr : option Js.str) :
  let r := parseDate tza today dateStr in
  (dateType r = Current <-> targetDate r = None)
  /\ (forall d, targetDate r = Some d -> d <> []).
Proof.
  cbv zeta. destruct dateStr as [s|].
  2:{ rewrite parseDate_default. cbn. split; [tauto|discriminate]. }
  destruct (keyword_dec (Js.toLowerCase s)) as [Hk|Hk].
  - apply keyword_cases in Hk as [Hk|[Hk|Hk]].
    + rewrite (parseDate_today tza today s Hk). cbn. split; [tauto|discriminate].
    + rewrite (parseDate_tomorrow tza today s Hk). cbn [targetDate dateType].
      split; [split; discriminate|].
      intros d [= <-]. apply calendarDate_nonempty.
    + rewrite (parseDate_yesterday tza today s Hk). cbn [targetDate dateType].
      split; [split; discriminate|].
      intros d [= <-]. apply calendarDate_nonempty.
  - destruct (isDateLiteral s) eqn:Hlit.
    + rewrite (parseDate_literal tza today s Hlit). cbn [targetDate dateType].
      split; [destruct (dateLt _ _); split; discriminate|].
      intros d [= <-] ->. discriminate Hlit.
    + rewrite (parseDate_other tza today s Hk Hlit). cbn.
      split; [tauto|discriminate].
Qed.



(** X2.  Today's own date, written as a literal, is never current weather: it
    is historical data from the first millisecond after midnight (UTC)
    on, and a forecast at midnight sharp. *)
Theorem parseDate_todays_date (tza today : Z) :
  fourDigitYear (Day today) ->
  parseDate tza today (Some (isoDate today))
  = {| targetDate := Some (isoDate today);
       dateType := if TimeWithinDay today =? 0 then Forecast else Historical |}.
Proof.
  intros Hy. rewrite IsoFacts.isoDate_calendarDate.
  rewrite (parseDate_calendarDate tza today _ Hy). f_equal.
  unfold Day, TimeWithinDay, msPerDay.
  destruct (today mod 86400000 =? 0) eqn:E;
    [apply Z.eqb_eq in E|apply Z.eqb_neq in E].
  - replace (today / 86400000 * 86400000 <? today) with false; [reflexivity|].
    symmetry. apply Z.ltb_ge. Z.to_euclidean_division_equations. lia.
  - replace (today / 86400000 * 86400000 <? today) with true; [reflexivity|].
    symmetry. apply Z.ltb_lt. Z.to_euclidean_division_equations. lia.
Qed.

Lemma parseDate_todays_date_witness :
  parseDate 0 1748779200000 (Some js"2025-06-01")
  = {| targetDate := Some js"2025-06-01"; dateType := Historical |}.
Proof.
  apply (parseDate_todays_date 0 1748779200000).
  unfold fourDigitYear; vm_compute; split; discriminate.
Defined.

(** X3.  What [parseDate] hands to the request builder: a target date exactly
    when the type is not current, and then always a strict YYYY-MM-DD
    literal. *)
Theorem parseDate_shape (tza today : Z) (dateStr : option Js.str) :
  fourDigitYear (Day today - 1) -> fourDigitYear (Day today + 1) ->
  let r := parseDate tza today dateStr in
  (dateType r = Current <-> targetDate r = None)
  /\ (forall d, targetDate r = Some d -> isDateLiteral d = true).
Proof.
  intros Hy Ht. cbv zeta.
  destruct dateStr as [s|].
  2:{ rewrite parseDate_default. cbn. split; [tauto|discriminate]. }
  destruct (keyword_dec (Js.toLowerCase s)) as [Hk|Hk].
  - apply keyword_cases in Hk as [Hk|[Hk|Hk]].
    + rewrite (parseDate_today tza today s Hk). cbn. split; [tauto|discriminate].
    + rewrite (parseDate_tomorrow tza today s Hk). cbn [targetDate dateType].
      split; [split; discriminate|].
      intros d [= <-]. apply (calendarDate_parse _ Ht).
    + rewrite (parseDate_yesterday tza today s Hk). cbn [targetDate dateType].
      split; [split; discriminate|].
      intros d [= <-]. apply (calendarDate_parse _ Hy).
  - destruct (isDateLiteral s) eqn:Hlit.
    + rewrite (parseDate_literal tza today s Hlit). cbn [targetDate dateType].
      split; [|intros d [= <-]; exact Hlit].
      destruct (dateLt _ _); split; discriminate.
    + rewrite (parseDate_other tza today s Hk Hlit). cbn.
      split; [tauto|discriminate].
Qed.

Lemma parseDate_shape_witness :
  let r := parseDate 0 1748779200000 (Some js"Tomorrow") in
  (dateType r = Current <-> targetDate r = None)
  /\ (forall d, targetDate r = Some d -> isDateLiteral d = true).
Proof.
  apply (parseDate_shape 0 1748779200000 (Some js"Tomorrow"));
    unfold fourDigitYear; vm_compute; split; discriminate.
Defined.

End ParseDateFurther.

(* ===================================================================== *)
(** ** What a run adds to the log *)
(* ===================================================================== *)

Module TraceFacts.
Import Wire Eff Route Further EffFacts.

Lemma selected_app {T} (sel : Event -> option T) (a b : list Event) :
  selected sel (a ++ b) = selected sel a ++ selected sel b.
Proof. unfold selected. apply omap_app. Qed.

Lemma count_app {T} (sel : Event -> option T) (a b : list Event) :
  count sel (a ++ b) = count sel a + count sel b.
Proof. unfold count. rewrite selected_app, length_app. reflexivity. Qed.

End TraceFacts.

(* ===================================================================== *)
(** ** The weather tool *)
(* ===================================================================== *)

Module WeatherToolFacts.
Import Wire Eff WeatherTools Vocabulary Further Runs EffFacts ParseDateFacts.

(** [getCoordinates], run. *)
Lemma getCoordinates_run {X} (w : World) (s : St X) (location : Js.str) :
  getCoordinates location w s =
  match table_get (Js.trim (Js.toLowerCase location)) with
  | Own e => (Ok (Known (lat e) (lng e) location (entry_country e)), s)
  | Inherited => (Ok (Hollow location), s)
  | Undefined =>
      (match geocoder w location with
       | Reply _ _ (Some {| results := Some (result :: _) |}) =>
           Ok (Known (geo_latitude result) (geo_longitude result)
                     (geo_name result) (geo_country result))
       | _ => Throw (CoordinatesNotFound location)
       end,
       logged s [EvGeocode location])
  end.
Proof.
  unfold getCoordinates. destruct (table_get _); try reflexivity.
  cbv [try_catch bind fetchGeocode emit ask ret throw logged].
  destruct (geocoder w location) as [|ok st [[[[|result rest]|]]|]]; reflexivity.
Qed.

(** [executeWeatherTool], run: what follows each outcome of
    [getCoordinates]. *)
Lemma executeWeatherTool_cases {X} (w : World) (s : St X)
    (params : WeatherToolParams) :
  match getCoordinates (location params) w (logged s [EvExecuteTool params]) with
  | (Throw e, s1) => executeWeatherTool params w s = (Throw e, s1)
  | (Ok (Hollow _), s1) =>
      executeWeatherTool params w s = (Throw TypeError, ticked s1)
  | (Ok (Known la ln cty ctry), s1) =>
      let parsed := parseDate (tza w) (reading w s1) (date params) in
      let url := weatherRequest la ln parsed in
      exists r,
        executeWeatherTool params w s = (r, logged (ticked s1) [EvWeather url])
        /\ (forall res, r = Ok res ->
            (exists st b, weatherApi w url = Reply true st b)
            /\ city res = cty /\ country res = ctry
            /\ Wire.dateType res = dateType parsed
            /\ Wire.targetDate res = targetDate parsed)
        /\ (forall e, r = Throw e ->
            match e with
            | FetchRejected => weatherApi w url = Rejected
            | WeatherApiError st => exists b, weatherApi w url = Reply false st b
            | SyntaxError => exists st, weatherApi w url = Reply true st None
            | NoWeatherData => dateType parsed <> Current
            | TypeError => dateType parsed = Current
            | _ => False
            end)
  end.
Proof.
  unfold executeWeatherTool.
  cbv [bind emit try_catch].
  change {| ticks := ticks s; log := log s ++ [EvExecuteTool params];
            data := data s |} with (logged s [EvExecuteTool params]).
  destruct (getCoordinates (location params) w (logged s [EvExecuteTool params]))
    as [[[la ln cty ctry|l]|e] s1]; [|reflexivity|reflexivity].
  cbv [ask now throw ret fetchWeather bind emit].
  change (clock w (ticks s1)) with (reading w s1).
  pose proof (ParseDateFurther.parseDate_target (tza w) (reading w s1) (date params))
    as [Hcur Hne].
  cbv zeta in Hcur, Hne.
  set (parsed := parseDate (tza w) (reading w s1) (date params)) in *.
  cbv zeta. fold (weatherRequest la ln parsed).
  set (url := weatherRequest la ln parsed).
  destruct (weatherApi w url) as [|[|] st [body|]] eqn:Hw.
  - eexists. split; [reflexivity|]. split; [discriminate|].
    intros e [= <-]. reflexivity.
  - destruct (dateType parsed) eqn:Hty.
    + destruct (current body) as [cur|].
      * eexists. split; [reflexivity|]. split; [|discriminate].
        intros res [= <-]. cbn. split; [eauto|].
        repeat split. symmetry. apply Hcur. reflexivity.
      * eexists. split; [reflexivity|]. split; [discriminate|].
        intros e [= <-]. reflexivity.
    + destruct (daily body) as [[[[|t0 ts]|] ? ? ? ? ? ? ?]|];
        eexists; (split; [reflexivity|]);
        (split; [try discriminate|try discriminate]).
      all: try (intros e [= <-]; discriminate).
      intros res [= <-]. cbn. split; [eauto|]. repeat split.
    + destruct (daily body) as [[[[|t0 ts]|] ? ? ? ? ? ? ?]|];
        eexists; (split; [reflexivity|]);
        (split; [try discriminate|try discriminate]).
      all: try (intros e [= <-]; discriminate).
      intros res [= <-]. cbn. split; [eauto|]. repeat split.
  - eexists. split; [reflexivity|]. split; [discriminate|].
    intros e [= <-]. eauto.
  - eexists. split; [reflexivity|]. split; [discriminate|].
    intros e [= <-]. eauto.
  - eexists. split; [reflexivity|]. split; [discriminate|].
    intros e [= <-]. eauto.
Qed.

(** What one lookup adds to the log. *)
Lemma executeWeatherTool_events {X} (w : World) (s : St X)
    (params : WeatherToolParams) :
  exists r s' geo wx,
    executeWeatherTool params w s = (r, s')
    /\ log s' = log s ++ EvExecuteTool params :: geo ++ wx
    /\ (geo = []
        \/ geo = [EvGeocode (location params)]
           /\ table_get (Js.trim (Js.toLowerCase (location params))) = Undefined)
    /\ (wx = [] /\ (forall res, r <> Ok res) \/ exists url, wx = [EvWeather url])
    /\ ticks s <= ticks s' <= S (ticks s)
    /\ data s' = data s.
Proof.
  pose proof (executeWeatherTool_cases w s params) as Hc.
  rewrite getCoordinates_run in Hc.
  destruct (table_get _) as [e| |] eqn:Ht.
  - cbv zeta in Hc. destruct Hc as (r & Hr & _).
    eexists r, _, [], [_]. split; [exact Hr|]. cbn.
    rewrite <- app_assoc.
    split; [reflexivity|]. split; [auto|]. split; [eauto|].
    split; [lia|reflexivity].
  - eexists _, _, [], []. split; [exact Hc|]. cbn.
    split; [reflexivity|]. split; [auto|].
    split; [left; split; [reflexivity|discriminate]|]. split; [lia|reflexivity].
  - destruct (geocoder w (location params)) as [|ok st0 [[[[|g rest]|]]|]].
    3:{ cbv zeta in Hc. destruct Hc as (r & Hr & _).
        eexists r, _, [EvGeocode (location params)], [_].
        split; [exact Hr|]. cbn.
        rewrite <- !app_assoc.
        split; [reflexivity|]. split; [auto|]. split; [eauto|].
        split; [lia|reflexivity]. }
    all: eexists _, _, [EvGeocode (location params)], []; (split; [exact Hc|]);
      cbn; rewrite <- !app_assoc;
      (split; [reflexivity|]); (split; [auto|]);
      (split; [left; split; [reflexivity|discriminate]|]);
      (split; [lia|reflexivity]).
Qed.

End WeatherToolFacts.

Module WeatherToolFurther.
Import Wire Eff WeatherTools Vocabulary Further Runs EffFacts WeatherToolFacts Samples.

(** X4.  Whatever goes wrong while geocoding (the request rejected, a body
    that is no JSON, no results), [getCoordinates] throws one error,
    "Could not find coordinates", naming the caller's string; it does so
    only for a name off the table, and reads no clock. *)
Theorem getCoordinates_failure {X} (w : World) (s s' : St X)
    (location : Js.str) (e : Error) :
  getCoordinates location w s = (Throw e, s') ->
  e = CoordinatesNotFound location
  /\ table_get (Js.trim (Js.toLowerCase location)) = Undefined
  /\ (forall ok st g rest,
        geocoder w location <> Reply ok st (Some {| results := Some (g :: rest) |}))
  /\ ticks s' = ticks s /\ data s' = data s.
Proof.
  rewrite getCoordinates_run.
  destruct (table_get _); try discriminate.
  destruct (geocoder w location) as [|ok st [[[[|result rest]|]]|]];
    intros [= <- <-]; repeat split; try discriminate; reflexivity.
Qed.

Lemma getCoordinates_failure_witness :
  CoordinatesNotFound js"Osaka" = CoordinatesNotFound js"Osaka"
  /\ table_get (Js.trim (Js.toLowerCase js"Osaka")) = Undefined.
Proof.
  destruct (getCoordinates_failure offline (initial tt)
              {| ticks := 0; log := [EvGeocode js"Osaka"]; data := tt |}
              js"Osaka" (CoordinatesNotFound js"Osaka"))
    as (H1 & H2 & _).
  - vm_compute. reflexivity.
  - split; [exact H1|exact H2].
Defined.

(** X5.  A successful lookup read the clock once and made exactly one weather
    request, the last event of the run: the one built from the parsed
    date of that reading.  The observation carries that parsed date's
    type and target date, and at most one geocoding request, under the
    caller's spelling, came before. *)
Theorem executeWeatherTool_success {X} (w : World) (s s' : St X)
    (params : WeatherToolParams) (res : WeatherToolResponse) :
  executeWeatherTool params w s = (Ok res, s') ->
  let parsed := parseDate (tza w) (reading w s) (date params) in
  Wire.dateType res = dateType parsed
  /\ Wire.targetDate res = targetDate parsed
  /\ ticks s' = S (ticks s)
  /\ data s' = data s
  /\ exists la ln geo st b,
       log s' = log s ++ EvExecuteTool params :: geo
                ++ [EvWeather (weatherRequest la ln parsed)]
       /\ (geo = [] \/ geo = [EvGeocode (location params)])
       /\ weatherApi w (weatherRequest la ln parsed) = Reply true st b.
Proof.
  intros Hrun. pose proof (executeWeatherTool_cases w s params) as Hc.
  rewrite getCoordinates_run in Hc.
  destruct (table_get _) as [e| |].
  - cbv zeta in Hc. destruct Hc as (r & Hr & Hok & _).
    rewrite Hrun in Hr. injection Hr as <- ->.
    destruct (Hok res eq_refl) as ((st & b & Hw) & _ & _ & Hty & Htd).
    cbv zeta. repeat split; try assumption.
    exists (lat e), (lng e), [], st, b. cbn.
    rewrite <- app_assoc. auto.
  - rewrite Hrun in Hc. discriminate Hc.
  - destruct (geocoder w (location params)) as [|ok st0 [[[[|g rest]|]]|]];
      try (rewrite Hrun in Hc; discriminate Hc).
    cbv zeta in Hc. destruct Hc as (r & Hr & Hok & _).
    rewrite Hrun in Hr. injection Hr as <- ->.
    destruct (Hok res eq_refl) as ((st & b & Hw) & _ & _ & Hty & Htd).
    cbv zeta. repeat split; try assumption.
    exists (geo_latitude g), (geo_longitude g), [EvGeocode (location params)], st, b.
    cbn. rewrite <- !app_assoc. auto.
Qed.

Lemma executeWeatherTool_success_witness :
  exists res s',
    executeWeatherTool {| location := js"Tokyo"; date := Some js"NOW" |}
      (online "London" true) (initial tt) = (Ok res, s')
    /\ Wire.dateType res = Current
    /\ ticks s' = 1.
Proof.
  destruct (executeWeatherTool {| location := js"Tokyo"; date := Some js"NOW" |}
              (online "London" true) (initial tt)) as [[res|e] s'] eqn:E.
  - exists res, s'. split; [reflexivity|].
    destruct (executeWeatherTool_success _ _ _ _ _ E) as (H1 & _ & H3 & _).
    split; [rewrite H1; vm_compute; reflexivity|exact H3].
  - vm_compute in E. discriminate E.
Defined.

(** X6.  What one lookup may add to the log, however it ends: its own line,
    then at most one geocoding request (under the caller's spelling, and
    only for a name off the table), then at most one weather request.  It
    reads the clock at most once and leaves the program's data alone. *)
Theorem executeWeatherTool_footprint {X} (w : World) (s : St X)
    (params : WeatherToolParams) :
  let s' := snd (executeWeatherTool params w s) in
  exists geo wx,
    log s' = log s ++ EvExecuteTool params :: geo ++ wx
    /\ (geo = []
        \/ geo = [EvGeocode (location params)]
           /\ table_get (Js.trim (Js.toLowerCase (location params))) = Undefined)
    /\ (wx = [] \/ exists url, wx = [EvWeather url])
    /\ ticks s <= ticks s' <= S (ticks s)
    /\ data s' = data s.
Proof.
  cbv zeta.
  destruct (executeWeatherTool_events w s params)
    as (r & s' & geo & wx & -> & Hlog & Hgeo & Hwx & Hticks & Hdata).
  exists geo, wx. cbn [snd]. repeat split; try assumption; try lia.
  destruct Hwx as [[-> _]|Hwx]; auto.
Qed.

(** X7.  A location that lowercases and trims to a name every JavaScript
    object inherits ([constructor], [toString], ...) passes for a city of
    the table: no geocoding and no weather request is made, and the
    lookup ends in a TypeError. *)
Theorem executeWeatherTool_inherited_name {X} (w : World) (s : St X)
    (params : WeatherToolParams) :
  In (Js.trim (Js.toLowerCase (location params))) inherited_names ->
  executeWeatherTool params w s
  = (Throw TypeError, ticked (logged s [EvExecuteTool params])).
Proof.
  intros Hin. pose proof (executeWeatherTool_cases w s params) as Hc.
  rewrite getCoordinates_run in Hc.
  assert (Ht : table_get (Js.trim (Js.toLowerCase (location params))) = Inherited).
  { revert Hin. generalize (Js.trim (Js.toLowerCase (location params))).
    intros key. cbn [inherited_names In]. intros Hin.
    repeat (destruct Hin as [<-|Hin]; [vm_compute; reflexivity|]).
    destruct Hin. }
  rewrite Ht in Hc. exact Hc.
Qed.

Lemma executeWeatherTool_inherited_name_witness :
  executeWeatherTool {| location := js" Constructor"; date := None |}
    offline (initial tt)
  = (Throw TypeError,
     {| ticks := 1;
        log := [EvExecuteTool {| location := js" Constructor"; date := None |}];
        data := tt |}).
Proof.
  apply (executeWeatherTool_inherited_name offline (initial tt)
           {| location := js" Constructor"; date := None |}).
  vm_compute. left. reflexivity.
Defined.

(** X8.  The errors a lookup can end in, and what each one says about the
    run.  A place that cannot be geocoded gives "Could not find
    coordinates" for the caller's string, and then no weather request
    was made; a weather reply that is not OK gives the error of its
    status, whatever its body; "No weather data" is only said of a
    forecast or of historical data.  No other error than these and a
    rejected fetch, a body that is no JSON and a TypeError leaves the
    tool. *)
Theorem executeWeatherTool_failure {X} (w : World) (s s' : St X)
    (params : WeatherToolParams) (e : Error) :
  executeWeatherTool params w s = (Throw e, s') ->
  let parsed := parseDate (tza w) (reading w s) (date params) in
  match e with
  | CoordinatesNotFound l =>
      l = location params /\ count asWeather (log s') = count asWeather (log s)
  | WeatherApiError st =>
      exists url b, weatherApi w url = Reply false st b
                    /\ list.last (log s') = Some (EvWeather url)
  | FetchRejected =>
      exists url, weatherApi w url = Rejected
                  /\ list.last (log s') = Some (EvWeather url)
  | SyntaxError =>
      exists url st, weatherApi w url = Reply true st None
                     /\ list.last (log s') = Some (EvWeather url)
  | NoWeatherData => dateType parsed <> Current
  | TypeError => True
  | _ => False
  end.
Proof.
  intros Hrun. cbv zeta.
  pose proof (executeWeatherTool_cases w s params) as Hc.
  rewrite getCoordinates_run in Hc.
  assert (Hlast : forall Y (t : St Y) ev, list.last (log (logged t [ev])) = Some ev).
  { intros. cbn. apply last_snoc. }
  destruct (table_get _) as [c| |] eqn:Ht.
  - cbv zeta in Hc. destruct Hc as (r & Hr & _ & Herr).
    rewrite Hrun in Hr. injection Hr as <- ->.
    specialize (Herr e eq_refl).
    change (reading w (logged s [EvExecuteTool params])) with (reading w s) in Herr.
    destruct e; try exact Herr; try (destruct Herr); eauto.
  - rewrite Hrun in Hc. injection Hc as -> _. exact I.
  - destruct (geocoder w (location params)) as [|ok st0 [[[[|g rest]|]]|]].
    3:{ cbv zeta in Hc. destruct Hc as (r & Hr & _ & Herr).
        rewrite Hrun in Hr. injection Hr as <- ->.
        specialize (Herr e eq_refl).
        change (reading w (logged (logged s [EvExecuteTool params])
                                  [EvGeocode (location params)]))
          with (reading w s) in Herr.
        destruct e; try exact Herr; try (destruct Herr); eauto. }
    all: rewrite Hrun in Hc; injection Hc as -> ->; split; [reflexivity|];
      unfold logged; cbn [log]; rewrite !TraceFacts.count_app; cbn; lia.
Qed.

Lemma executeWeatherTool_failure_witness :
  count asWeather
    (log (snd (executeWeatherTool {| location := js"Osaka"; date := None |}
                 offline (initial tt)))) = 0.
Proof.
  destruct (executeWeatherTool {| location := js"Osaka"; date := None |}
              offline (initial tt)) as [[res|e] s'] eqn:E.
  - vm_compute in E. discriminate E.
  - pose proof (executeWeatherTool_failure _ _ _ _ _ E) as H.
    assert (He : e = CoordinatesNotFound js"Osaka")
      by (vm_compute in E; injection E as <- _; reflexivity).
    subst e. cbv zeta in H. destruct H as [_ H]. exact H.
Defined.

End WeatherToolFurther.

(* ===================================================================== *)
(** ** The handlers, run *)
(* ===================================================================== *)

Module HandlerFacts.
Import Wire Eff Route Further Runs EffFacts TraceFacts WeatherToolFacts.

(** The counts of what one lookup adds. *)
Lemma executeWeatherTool_counts {X} (w : World) (s : St X)
    (params : WeatherToolParams) :
  exists r s' evs,
    WeatherTools.executeWeatherTool params w s = (r, s')
    /\ log s' = log s ++ evs
    /\ data s' = data s
    /\ selected asLookup evs = [params]
    /\ count asCompletion evs = 0
    /\ count asWeather evs <= 1
    /\ count asGeocode evs <= 1
    /\ (forall res, r = Ok res -> count asWeather evs = 1).
Proof.
  destruct (executeWeatherTool_events w s params)
    as (r & s' & geo & wx & Hrun & Hlog & Hgeo & Hwx & _ & Hdata).
  exists r, s', (EvExecuteTool params :: geo ++ wx).
  split; [exact Hrun|]. split; [exact Hlog|]. split; [exact Hdata|].
  destruct Hgeo as [->|[-> _]]; destruct Hwx as [[-> Hno]|[url ->]];
    cbn; repeat split; try lia; try reflexivity;
    intros res ->; exfalso; apply (Hno res); reflexivity.
Qed.

(** The system prompt of the multi-tool handler reads the clock five
    times and logs nothing. *)
Lemma datedPrompt_run {X} (language : option Js.str) (w : World) (s : St X) :
  exists p,
    Chat.datedPrompt language w s
    = (Ok p, {| ticks := 5 + ticks s; log := log s; data := data s |}).
Proof.
  unfold Chat.datedPrompt, Chat.currentYear.
  cbv [bind now ask ret]. eexists. reflexivity.
Qed.

(** All tool calls of a message, run to the end: every call whose
    arguments parse is looked up, in order, whatever the others do. *)
Lemma runToolCalls_run {X} (w : World) (calls : list ToolCall) :
  forall s : St X, exists rs s' evs,
    settle_all (map Chat.runToolCall calls) w s = (Ok rs, s')
    /\ length rs = length calls
    /\ log s' = log s ++ evs
    /\ data s' = data s
    /\ selected asLookup evs = omap arguments calls
    /\ count asCompletion evs = 0
    /\ count asWeather evs <= count asLookup evs
    /\ count asGeocode evs <= count asLookup evs
    /\ (forall l, join rs = Ok l ->
        length l = length calls
        /\ count asLookup evs = length calls
        /\ count asWeather evs = length calls).
Proof.
  induction calls as [|c calls IH]; intros s.
  - exists [], s, []. cbn. rewrite app_nil_r.
    do 8 (split; [reflexivity || lia|]). intros l [= <-]. repeat split.
  - cbn [map settle_all]. unfold bind at 1, settle.
    assert (Hc : exists r s1 evs,
               Chat.runToolCall c w s = (r, s1)
               /\ log s1 = log s ++ evs /\ data s1 = data s
               /\ selected asLookup evs
                  = match arguments c with Some a => [a] | None => [] end
               /\ count asCompletion evs = 0
               /\ count asWeather evs <= count asLookup evs
               /\ count asGeocode evs <= count asLookup evs
               /\ (forall a, r = Ok a ->
                   count asLookup evs = 1 /\ count asWeather evs = 1)).
    { unfold Chat.runToolCall. destruct (arguments c) as [toolArgs|] eqn:Ha.
      - destruct (executeWeatherTool_counts w s toolArgs)
          as (r & s1 & evs & Hrun & Hlog & Hdata & Hl & Hcomp & Hw & Hg & Hok).
        unfold bind. rewrite Hrun.
        assert (Hn : count asLookup evs = 1) by (unfold count; rewrite Hl; reflexivity).
        destruct r as [res|e].
        + exists (Ok (id c, res)), s1, evs.
          do 7 (split; [assumption || lia || reflexivity|]).
          intros a _. split; [exact Hn|apply (Hok res eq_refl)].
        + exists (Throw e), s1, evs.
          do 7 (split; [assumption || lia || reflexivity|]). discriminate.
      - exists (Throw SyntaxError), s, []. rewrite app_nil_r. cbn.
        do 7 (split; [reflexivity || lia|]). discriminate. }
    destruct Hc as (r & s1 & e1 & Hrun & Hlog1 & Hdata1 & Hl1 & Hc1 & Hw1 & Hg1 & Hok1).
    rewrite Hrun.
    destruct (IH s1) as (rs & s2 & e2 & Hrs & Hlen & Hlog2 & Hdata2 & Hl2 & Hc2
                         & Hw2 & Hg2 & Hok2).
    unfold bind. rewrite Hrs. cbn [ret].
    exists (r :: rs), s2, (e1 ++ e2).
    split; [reflexivity|]. split; [cbn; lia|].
    split; [rewrite Hlog2, Hlog1, app_assoc; reflexivity|].
    split; [congruence|].
    split.
    { rewrite selected_app, Hl1, Hl2. cbn.
      destruct (arguments c); reflexivity. }
    rewrite !count_app. do 3 (split; [lia|]).
    intros l Hj. cbn [join] in Hj. destruct r as [a|e]; [|discriminate].
    destruct (join rs) as [l'|] eqn:Hjr; [|discriminate].
    injection Hj as <-. destruct (Hok1 a eq_refl) as [Hn1 Hx1].
    destruct (Hok2 l' eq_refl) as (Hn2 & Hm2 & Hx2). cbn [length]. lia.
Qed.

(** The first round of the multi-tool handler sends one completion
    request and nothing else. *)
Lemma chatFirstRound_log {X} (req : ChatRequest) (w : World) (s s1 : St X) r :
  Rounds.chatFirstRound req w s = (r, s1) ->
  exists first, log s1 = log s ++ [EvCompletion first] /\ data s1 = data s.
Proof.
  unfold Rounds.chatFirstRound. unfold bind at 1.
  destruct (datedPrompt_run (req_language req) w s) as (prompt & ->).
  unfold bind at 1, fetchCompletion. cbv [bind emit ask ret].
  cbn [ticks log data].
  destruct (completions w _) as [|[|] st [[[|message others]]|]];
    cbn [checked firstChoice choices throw ret];
    intros [= <- <-]; eexists; split; reflexivity.
Qed.

(** The two handlers when their first round ends the turn: it fails, or
    the assistant asks for no tool. *)
Lemma optimized_POST_first_round {X} (w : World) (s s1 : St X) (req : ChatRequest)
    (k : N) (key : Js.str) (r : Result AssistantMessage) :
  apiKey w = Some (k :: key) ->
  Rounds.optimizedFirstRound req w s = (r, s1) ->
  (forall message toolCall more,
      r = Ok message -> tool_calls message <> Some (toolCall :: more)) ->
  ChatOptimized.POST req w s
  = (Ok match r with
        | Ok message => direct message
        | Throw _ => fallback (req_language req)
        end, s1).
Proof.
  intros Hkey Hfirst Hnone. revert Hfirst. unfold Rounds.optimizedFirstRound.
  unfold ChatOptimized.POST. step (ask_run w s). rewrite Hkey.
  unfold try_catch at 1. unfold fetchCompletion at 1 2.
  cbv [bind emit ask ret]. cbn [ticks log data].
  destruct (completions w _) as [|[|] st [[[|message others]]|]];
    cbn [checked firstChoice choices throw ret];
    intros [= <- <-]; try reflexivity.
  destruct (tool_calls message) as [[|toolCall more]|] eqn:Ht; try reflexivity.
  exfalso. exact (Hnone message toolCall more eq_refl Ht).
Qed.

Lemma chat_POST_first_round {X} (w : World) (s s1 : St X) (req : ChatRequest)
    (k : N) (key : Js.str) (m : ChatMessage) (r : Result AssistantMessage) :
  apiKey w = Some (k :: key) ->
  list.last (req_messages req) = Some m ->
  role m = user ->
  Rounds.chatFirstRound req w s = (r, s1) ->
  (forall message toolCall more,
      r = Ok message -> tool_calls message <> Some (toolCall :: more)) ->
  Chat.POST req w s
  = (Ok match r with
        | Ok message => direct message
        | Throw _ => fallback (req_language req)
        end, s1).
Proof.
  intros Hkey Hlast Hrole Hfirst Hnone. destruct m as [ro c]. cbn in Hrole. subst ro.
  revert Hfirst. unfold Rounds.chatFirstRound.
  unfold Chat.POST. step (ask_run w s). rewrite Hkey, Hlast.
  unfold try_catch at 1. unfold fetchCompletion at 1 2.
  cbv [bind emit ask ret].
  destruct (datedPrompt_run (req_language req) w s) as (prompt & Hp). rewrite Hp.
  cbn [ticks log data].
  destruct (completions w _) as [|[|] st [[[|message others]]|]];
    cbn [checked firstChoice choices throw ret];
    intros [= <- <-]; try reflexivity.
  destruct (tool_calls message) as [[|toolCall more]|] eqn:Ht; try reflexivity.
  exfalso. exact (Hnone message toolCall more eq_refl Ht).
Qed.

(** Among settled tool calls, one whose arguments are no JSON is a
    rejection. *)
Lemma unparsable_call_throws {X} (w : World) (calls : list ToolCall)
    (rs : list (Result (Js.str * WeatherToolResponse))) (c : ToolCall) :
  Forall2 (fun c r => exists sa sb : St X, Chat.runToolCall c w sa = (r, sb))
          calls rs ->
  In c calls -> arguments c = None ->
  exists e, In (Throw e) rs.
Proof.
  intros Hpt. induction Hpt as [|c' r calls' rs' Hc _ IH]; intros Hin Hargs.
  - destruct Hin.
  - destruct Hin as [->|Hin].
    + destruct Hc as (sa & sb & Hc). unfold Chat.runToolCall in Hc.
      rewrite Hargs in Hc. injection Hc as <- _. exists SyntaxError. left.
      reflexivity.
    + destruct (IH Hin Hargs) as (e & He). exists e. right. exact He.
Qed.

End HandlerFacts.

Module HandlerFurther.
Import Wire Eff Route Rounds Further Runs EffFacts TraceFacts WeatherToolFacts.
Import HandlerFacts Samples.



(** X11.  Once the assistant asks for tools, the multi-tool handler starts a
    lookup for every call whose arguments parse, in the order of the
    calls: a call that fails, or whose arguments are no JSON, stops none
    of the others. *)
Theorem chat_POST_starts_every_lookup {X} (w : World) (s s1 : St X)
    (req : ChatRequest) (k : N) (key : Js.str) (m : ChatMessage)
    (message : AssistantMessage) (toolCall : ToolCall) (more : list ToolCall) :
  apiKey w = Some (k :: key) ->
  list.last (req_messages req) = Some m ->
  role m = user ->
  chatFirstRound req w s = (Ok message, s1) ->
  tool_calls message = Some (toolCall :: more) ->
  exists resp s',
    Chat.POST req w s = (Ok resp, s')
    /\ selected asLookup (log s')
       = selected asLookup (log s) ++ omap arguments (toolCall :: more).
Proof.
  intros Hkey Hlast Hrole Hfirst Htools.
  rewrite (ChatFacts.POST_after_first_round w s s1 req k key m message toolCall
             more Hkey Hlast Hrole Hfirst Htools).
  destruct (chatFirstRound_log req w s s1 _ Hfirst) as (first & Hlog1 & _).
  unfold try_catch, Promise_all.
  destruct (runToolCalls_run w (toolCall :: more) s1)
    as (rs & s2 & evs & Hrun & _ & Hlog & _ & Hl & Hcomp & _).
  do 2 (unfold bind at 1). rewrite Hrun.
  assert (Hsel : selected asLookup (log s2)
                 = selected asLookup (log s) ++ omap arguments (toolCall :: more)).
  { rewrite Hlog, Hlog1, !selected_app, Hl. cbn [selected asLookup omap].
    rewrite app_nil_r. reflexivity. }
  destruct (join rs) as [toolResults|e].
  - cbv [fetchCompletion bind emit ask ret].
    set (final := Chat.finalRequest _ _ _ _).
    assert (Hsel3 : selected asLookup (log s2 ++ [EvCompletion final])
                    = selected asLookup (log s) ++ omap arguments (toolCall :: more)).
    { rewrite selected_app, Hsel. cbn. rewrite app_nil_r. reflexivity. }
    destruct (completions w final) as [|[|] st' [[[|finalMessage others']]|]];
      cbn [checked firstChoice choices throw ret];
      eexists _, _; (split; [reflexivity|exact Hsel3]).
  - cbv [throw ret]. eexists _, _. split; [reflexivity|exact Hsel].
Qed.

Lemma chat_POST_starts_every_lookup_witness :
  exists resp s',
    Chat.POST (userAsks "Atlantis and Tokyo weather") Cases.mixing (initial tt)
    = (Ok resp, s')
    /\ selected asLookup (log s')
       = [ {| location := js"Atlantis"; date := None |};
           {| location := js"Tokyo"; date := None |} ].
Proof.
  destruct (chat_POST_starts_every_lookup Cases.mixing (initial tt)
              (snd (chatFirstRound (userAsks "Atlantis and Tokyo weather")
                      Cases.mixing (initial tt)))
              (userAsks "Atlantis and Tokyo weather") 115%N (tl (js"sk-test"))
              {| role := user; content := js"Atlantis and Tokyo weather" |}
              Cases.mixed
              {| id := js"call_1"; function_name := js"get_weather";
                 arguments := None |}
              [call "call_2" "Atlantis"; call "call_3" "Tokyo"])
    as (resp & s' & Hrun & Hsel).
  - reflexivity.
  - reflexivity.
  - reflexivity.
  - vm_compute. reflexivity.
  - reflexivity.
  - exists resp, s'. split; [exact Hrun|exact Hsel].
Defined.



(** X13.  When the assistant asks for no tool (no list of tool calls, or an
    empty one), both handlers end the turn with the first round: the
    assistant's text is handed back as it is, with status 200 and
    [toolUsed: false]. *)
Theorem direct_answer {X} (w : World) (s s1 : St X) (req : ChatRequest)
    (k : N) (key : Js.str) (message : AssistantMessage) :
  apiKey w = Some (k :: key) ->
  tool_calls message = None \/ tool_calls message = Some [] ->
  (optimizedFirstRound req w s = (Ok message, s1) ->
   ChatOptimized.POST req w s = (Ok (direct message), s1))
  /\ (forall m,
        list.last (req_messages req) = Some m -> role m = user ->
        chatFirstRound req w s = (Ok message, s1) ->
        Chat.POST req w s = (Ok (direct message), s1))
  /\ http_status (direct message) = 200%Z
  /\ response (body (direct message)) = a_content message
  /\ toolUsed (body (direct message)) = Some false
  /\ weatherData (body (direct message)) = None
  /\ error (body (direct message)) = None.
Proof.
  intros Hkey Hnone.
  assert (Hno : forall message' toolCall more,
             Ok message = Ok message' ->
             tool_calls message' <> Some (toolCall :: more)).
  { intros message' toolCall more [= <-]. destruct Hnone as [->| ->]; discriminate. }
  split; [|split; [|repeat split]].
  - intros Hfirst.
    exact (optimized_POST_first_round w s s1 req k key (Ok message) Hkey Hfirst Hno).
  - intros m Hlast Hrole Hfirst.
    exact (chat_POST_first_round w s s1 req k key m (Ok message) Hkey Hlast Hrole
             Hfirst Hno).
Qed.

Lemma direct_answer_witness :
  exists s1,
    ChatOptimized.POST (userAsks "Hi") Cases.chatting (initial tt)
    = (Ok (direct Cases.plain), s1)
    /\ Chat.POST (userAsks "Hi") Cases.chatting (initial tt)
       = (Ok (direct Cases.plain),
          snd (chatFirstRound (userAsks "Hi") Cases.chatting (initial tt))).
Proof.
  exists (snd (optimizedFirstRound (userAsks "Hi") Cases.chatting (initial tt))).
  split.
  - apply (direct_answer Cases.chatting (initial tt)
             (snd (optimizedFirstRound (userAsks "Hi") Cases.chatting (initial tt)))
             (userAsks "Hi") 115%N (tl (js"sk-test")) Cases.plain).
    + reflexivity.
    + right. reflexivity.
    + vm_compute. reflexivity.
  - apply (direct_answer Cases.chatting (initial tt)
             (snd (chatFirstRound (userAsks "Hi") Cases.chatting (initial tt)))
             (userAsks "Hi") 115%N (tl (js"sk-test")) Cases.plain)
      with (m := {| role := user; content := js"Hi" |}).
    + reflexivity.
    + right. reflexivity.
    + reflexivity.
    + reflexivity.
    + vm_compute. reflexivity.
Defined.

(** X14.  When the first completion cannot be used (the request is rejected,
    the status is not OK, the body is no JSON or holds no choice), both
    handlers answer with status 500 and the same apology in the language
    of the request, whatever the cause, and do nothing more. *)
Theorem first_round_failure {X} (w : World) (s s1 : St X) (req : ChatRequest)
    (k : N) (key : Js.str) (e : Error) :
  apiKey w = Some (k :: key) ->
  (optimizedFirstRound req w s = (Throw e, s1) ->
   ChatOptimized.POST req w s = (Ok (fallback (req_language req)), s1))
  /\ (forall m,
        list.last (req_messages req) = Some m -> role m = user ->
        chatFirstRound req w s = (Throw e, s1) ->
        Chat.POST req w s = (Ok (fallback (req_language req)), s1))
  /\ http_status (fallback (req_language req)) = 500%Z
  /\ error (body (fallback (req_language req))) = Some ErrorTrue
  /\ response (body (fallback (req_language req)))
     = Some (fallbackMessage (req_language req))
  /\ weatherData (body (fallback (req_language req))) = None.
Proof.
  intros Hkey.
  assert (Hno : forall message' toolCall more,
             Throw e = Ok message' ->
             tool_calls message' <> Some (toolCall :: more)) by discriminate.
  split; [|split; [|repeat split]].
  - intros Hfirst.
    exact (optimized_POST_first_round w s s1 req k key (Throw e) Hkey Hfirst Hno).
  - intros m Hlast Hrole Hfirst.
    exact (chat_POST_first_round w s s1 req k key m (Throw e) Hkey Hlast Hrole
             Hfirst Hno).
Qed.

Lemma first_round_failure_witness :
  exists s1,
    ChatOptimized.POST (userAsks "Tokyo weather") server (initial tt)
    = (Ok (fallback None), s1).
Proof.
  exists (snd (optimizedFirstRound (userAsks "Tokyo weather") server (initial tt))).
  apply (first_round_failure server (initial tt)
           (snd (optimizedFirstRound (userAsks "Tokyo weather") server (initial tt)))
           (userAsks "Tokyo weather") 115%N (tl (js"sk-test")) FetchRejected).
  - reflexivity.
  - vm_compute. reflexivity.
Defined.

(** X15.  Tool arguments that are no JSON are answered differently by the two
    handlers.  The single-tool handler parses them outside its inner
    [try]: the turn ends with the 500 apology.  The multi-tool handler
    parses them inside: the turn ends with status 200 and the message
    about weather information, as for a failed lookup, even when every
    other call succeeds. *)
Theorem unparsable_arguments {X} (w : World) (s s1 : St X) (req : ChatRequest)
    (k : N) (key : Js.str) (message : AssistantMessage)
    (toolCall : ToolCall) (more : list ToolCall) :
  apiKey w = Some (k :: key) ->
  tool_calls message = Some (toolCall :: more) ->
  (optimizedFirstRound req w s = (Ok message, s1) ->
   arguments toolCall = None ->
   ChatOptimized.POST req w s = (Ok (fallback (req_language req)), s1))
  /\ (forall m c,
        list.last (req_messages req) = Some m -> role m = user ->
        chatFirstRound req w s = (Ok message, s1) ->
        In c (toolCall :: more) -> arguments c = None ->
        exists s',
          Chat.POST req w s
          = (Ok (failed (Chat.errorMessage (req_language req))), s')).
Proof.
  intros Hkey Htools. split.
  - intros Hfirst Hargs.
    rewrite (ChatOptimizedFacts.optimized_after_first_round w s s1 req k key message
               toolCall more Hkey Hfirst Htools).
    rewrite Hargs. reflexivity.
  - intros m c Hlast Hrole Hfirst Hin Hargs.
    rewrite (ChatFacts.POST_after_first_round w s s1 req k key m message toolCall
               more Hkey Hlast Hrole Hfirst Htools).
    unfold try_catch, Promise_all. do 2 (unfold bind at 1).
    destruct (settle_all (map Chat.runToolCall (toolCall :: more)) w s1)
      as [[rs|e] s2] eqn:Hsettle.
    2:{ destruct (settle_all_total w (map Chat.runToolCall (toolCall :: more)) s1)
          as (rs & s2' & Hrs & _). congruence. }
    pose proof (ChatFacts.settle_all_pointwise Chat.runToolCall w (toolCall :: more)
                  s1 s2 rs Hsettle) as Hpt.
    destruct (unparsable_call_throws w (toolCall :: more) rs c Hpt Hin Hargs)
      as (e0 & Hthrow).
    assert (Hj : exists e, join rs = Throw e)
      by (apply join_throw; exists e0; exact Hthrow).
    destruct Hj as (e & He). rewrite He.
    eexists. reflexivity.
Qed.

Lemma unparsable_arguments_witness :
  exists s1 s',
    ChatOptimized.POST (userAsks "Tokyo weather") garbling (initial tt)
    = (Ok (fallback None), s1)
    /\ Chat.POST (userAsks "Tokyo weather") garbling (initial tt)
       = (Ok (failed (Chat.errorMessage None)), s').
Proof.
  destruct (unparsable_arguments garbling (initial tt)
              (snd (optimizedFirstRound (userAsks "Tokyo weather") garbling (initial tt)))
              (userAsks "Tokyo weather") 115%N (tl (js"sk-test")) garbled
              {| id := js"call_1"; function_name := js"get_weather";
                 arguments := None |} [])
    as [Hone _]; [reflexivity|reflexivity|].
  destruct (unparsable_arguments garbling (initial tt)
              (snd (chatFirstRound (userAsks "Tokyo weather") garbling (initial tt)))
              (userAsks "Tokyo weather") 115%N (tl (js"sk-test")) garbled
              {| id := js"call_1"; function_name := js"get_weather";
                 arguments := None |} [])
    as [_ Hmany]; [reflexivity|reflexivity|].
  destruct (Hmany {| role := user; content := js"Tokyo weather" |}
              {| id := js"call_1"; function_name := js"get_weather";
                 arguments := None |}) as (s' & Hrun).
  - reflexivity.
  - reflexivity.
  - vm_compute. reflexivity.
  - left. reflexivity.
  - reflexivity.
  - eexists _, s'. split; [apply Hone; [vm_compute; reflexivity|reflexivity]|exact Hrun].
Defined.

End HandlerFurther.

(* ===================================================================== *)
(** ** The session store, operation by operation *)
(* ===================================================================== *)

Module StoreFacts.
Import Eff Context SessionStore Vocabulary Further Runs EffFacts SessionFacts.
Local Open Scope Z_scope.

(** What an operation on a stored session amounts to: the session is
    found expired and deleted, or it is returned, or it is replaced by
    its update. *)
Lemma perform_cases (w : World) (s : St Sessions) (sid : Js.str) (op : Operation) :
  (data s !! sid = None /\ perform sid op w s = (Ok None, s))
  \/ (exists old s',
        data s !! sid = Some old
        /\ perform sid op w s = (Ok None, s')
        /\ data s' = delete sid (data s)
        /\ log s' = log s)
  \/ (exists old s',
        data s !! sid = Some old
        /\ op = GetSession
        /\ reading w s <= expiresAt old
        /\ perform sid op w s = (Ok (Some old), s')
        /\ data s' = data s
        /\ log s' = log s)
  \/ (exists old x s' s1 updates,
        data s !! sid = Some old
        /\ op <> GetSession
        /\ perform sid op w s = (Ok (Some x), s')
        /\ data s' = <[sid := x]> (data s)
        /\ log s' = log s
        /\ x = updated w s1 old updates
        /\ (ticks s <= ticks s1)%nat
        /\ match op with
           | GetSession => False
           | UpdateSession u => updates = u
           | UpdateLocation l =>
               p_location updates
               = Some {| current := Some l;
                         recent := take 5 (l :: filter (fun q => negb (samePlace l q) = true)
                                                       (recent (location (context old))));
                         location_preferences :=
                           location_preferences (location (context old)) |}
               /\ p_temporal updates = None /\ p_conversation updates = None
               /\ p_preferences updates = None
           | UpdateTemporal timeframe targetDate =>
               (exists tc,
                   p_temporal updates = Some tc
                   /\ currentTimeframe tc = timeframe
                   /\ Context.targetDate tc = Js.orNull targetDate
                   /\ match targetDate with
                      | Some (u :: d) =>
                          exists stamp,
                            recentDates tc
                            = take 10 ({| date := u :: d; type := timeframe;
                                          date_lastUsed := stamp |}
                                       :: filter (fun r => negb (Js.eqb (date r) (u :: d)) = true)
                                                 (recentDates (temporal (context old))))
                      | _ => recentDates tc = recentDates (temporal (context old))
                      end)
               /\ p_location updates = None /\ p_conversation updates = None
               /\ p_preferences updates = None
           | UpdateConversation query intent =>
               (exists cv stamp,
                   p_conversation updates = Some cv
                   /\ lastWeatherQuery cv = query
                   /\ queryIntent cv = intent
                   /\ conversationFlow cv
                      = lastN 20 (conversationFlow (conversation (context old))
                                  ++ [{| flow_type := FlowIntent;
                                         value := intentName intent;
                                         timestamp := stamp |}]))
               /\ p_location updates = None /\ p_temporal updates = None
               /\ p_preferences updates = None
           end).
Proof.
  destruct (data s !! sid) as [old|] eqn:Hs.
  2:{ left. split; [reflexivity|].
      destruct op; cbn [perform];
        [rewrite getSession_run|rewrite updateSession_run
        |unfold updateLocation, bind; rewrite getSession_run
        |unfold updateTemporal, bind; rewrite getSession_run
        |unfold updateConversation, bind; rewrite getSession_run];
        rewrite Hs; reflexivity. }
  right.
  assert (Hupd : forall (s1 : St Sessions) updates,
             data s1 = data s -> log s1 = log s ->
             (exists s', updateSession sid updates w s1 = (Ok None, s')
                         /\ data s' = delete sid (data s) /\ log s' = log s)
             \/ (exists s', updateSession sid updates w s1
                            = (Ok (Some (updated w s1 old updates)), s')
                            /\ data s' = <[sid := updated w s1 old updates]> (data s)
                            /\ log s' = log s)).
  { intros s1 updates Hd Hl. rewrite updateSession_run, Hd, Hs.
    destruct (expiresAt old <? reading w s1).
    - left. eexists. split; [reflexivity|]. cbn. auto.
    - right. eexists. split; [reflexivity|]. cbn. auto. }
  destruct op as [|u|l|timeframe targetDate|query intent]; cbn [perform].
  - rewrite getSession_run, Hs.
    destruct (expiresAt old <? reading w s) eqn:E.
    + left. eexists old, _. repeat split; reflexivity.
    + right. left. apply Z.ltb_ge in E.
      eexists old, _. repeat split; try reflexivity. exact E.
  - destruct (Hupd s u eq_refl eq_refl) as [(s' & Hr & Hd & Hl)|(s' & Hr & Hd & Hl)].
    + left. exists old, s'. auto.
    + right. right. exists old, (updated w s old u), s', s, u.
      repeat split; auto; discriminate.
  - unfold updateLocation, bind. rewrite getSession_run, Hs.
    destruct (expiresAt old <? reading w s).
    { left. eexists old, _. repeat split; reflexivity. }
    match goal with
    | |- context [updateSession sid ?u w ?s1] =>
        destruct (Hupd s1 u eq_refl eq_refl)
          as [(s' & Hr & Hd & Hl)|(s' & Hr & Hd & Hl)]; rewrite Hr
    end.
    + left. exists old, s'. auto.
    + right. right. eexists old, _, s', _, _.
      split; [reflexivity|]. split; [discriminate|]. split; [reflexivity|].
      split; [exact Hd|]. split; [exact Hl|]. split; [reflexivity|].
      split; [cbn; lia|]. repeat split.
  - unfold updateTemporal, bind. rewrite getSession_run, Hs.
    destruct (expiresAt old <? reading w s).
    { left. eexists old, _. repeat split; reflexivity. }
    destruct targetDate as [[|c d]|]; cbv [now ret];
      match goal with
      | |- context [updateSession sid ?u w ?s1] =>
          destruct (Hupd s1 u eq_refl eq_refl)
            as [(s' & Hr & Hd & Hl)|(s' & Hr & Hd & Hl)]; rewrite Hr
      end;
      try (left; exists old, s'; auto; fail);
      right; right; eexists old, _, s', _, _;
      (split; [reflexivity|]); (split; [discriminate|]); (split; [reflexivity|]);
      (split; [exact Hd|]); (split; [exact Hl|]); (split; [reflexivity|]);
      (split; [cbn; lia|]);
      (split; [|repeat split]);
      eexists; (split; [reflexivity|]); (split; [reflexivity|]);
      (split; [reflexivity|]); cbn [recentDates]; try reflexivity;
      eexists; reflexivity.
  - unfold updateConversation, bind. rewrite getSession_run, Hs.
    destruct (expiresAt old <? reading w s).
    { left. eexists old, _. repeat split; reflexivity. }
    cbv [now].
    match goal with
    | |- context [updateSession sid ?u w ?s1] =>
        destruct (Hupd s1 u eq_refl eq_refl)
          as [(s' & Hr & Hd & Hl)|(s' & Hr & Hd & Hl)]; rewrite Hr
    end.
    + left. exists old, s'. auto.
    + right. right. eexists old, _, s', _, _.
      split; [reflexivity|]. split; [discriminate|]. split; [reflexivity|].
      split; [exact Hd|]. split; [exact Hl|]. split; [reflexivity|].
      split; [cbn; lia|]. split; [|repeat split].
      eexists _, _. repeat split.
Qed.

(** Filtering recent dates by date is filtering their dates. *)
Lemma dates_filter (d : Js.str) (l : list RecentDate) :
  dates (filter (fun r => negb (Js.eqb (date r) d) = true) l)
  = filter (fun q => q <> d) (dates l).
Proof.
  induction l as [|x l IH]; [reflexivity|].
  cbn [dates map]. rewrite !filter_cons.
  destruct (decide (negb (Js.eqb (date x) d) = true)) as [H|H];
    destruct (decide (date x <> d)) as [H'|H'].
  - cbn [dates map]. f_equal. exact IH.
  - rewrite negb_true_iff, JsFacts.eqb_neq in H. contradiction.
  - rewrite negb_true_iff, JsFacts.eqb_neq in H. contradiction.
  - exact IH.
Qed.

Lemma NoDup_touchDate d order : NoDup order -> NoDup (touchDate d order).
Proof.
  intros H. unfold touchDate. apply list.NoDup_cons. split.
  - rewrite list_elem_of_filter. tauto.
  - apply list.NoDup_filter. exact H.
Qed.

Lemma dates_take n (l : list RecentDate) : dates (take n l) = take n (dates l).
Proof. unfold dates. symmetry. apply firstn_map. Qed.

(** The sessions [getStats] counts as active are those [cleanup] keeps. *)
Lemma active_count (t : Z) (m : Sessions) :
  map_fold (fun _ session n => if t <=? expiresAt session then n + 1 else n) 0 m
  = Z.of_nat (size (filter (fun kv : Js.str * WeatherSession =>
                              ~ (expiresAt (snd kv) < t)) m)).
Proof.
  apply (map_fold_weak_ind
           (fun r m => r = Z.of_nat (size (filter
                          (fun kv : Js.str * WeatherSession =>
                             ~ (expiresAt (snd kv) < t)) m)))).
  - rewrite map_filter_empty, map_size_empty. reflexivity.
  - intros i x m0 r Hi ->. rewrite map_filter_insert. cbn [snd].
    destruct (t <=? expiresAt x) eqn:E;
      [apply Z.leb_le in E|apply Z.leb_gt in E].
    + rewrite decide_True by lia.
      rewrite map_size_insert_None; [lia|].
      apply map_lookup_filter_None. left. exact Hi.
    + rewrite decide_False by lia. rewrite delete_id by exact Hi. reflexivity.
Qed.

(** Appending an item and keeping the last twenty. *)
Lemma flow_cap {A} (l : list A) (item : A) :
  let after := lastN 20 (l ++ [item]) in
  length after = Nat.min 20 (S (length l))
  /\ list.last after = Some item
  /\ after `suffix_of` l ++ [item].
Proof.
  cbv zeta. unfold lastN. rewrite length_app. cbn [length].
  split; [rewrite length_drop, length_app; cbn [length]; lia|].
  split; [|apply suffix_drop].
  rewrite drop_app_le by lia. apply last_snoc.
Qed.

End StoreFacts.

Module StoreFurther.
Import Eff Context SessionStore Vocabulary Further Runs EffFacts SessionFacts.
Import StoreFacts Samples.
Local Open Scope Z_scope.

(** X16.  No operation of the store throws, and each one answers with exactly
    what the store then holds under the id: a session that is returned is
    the stored one, and after [null] the id is gone.  The log is left
    alone, and for an unknown id so is the whole state: not even the
    clock is read. *)
Theorem perform_mirrors_store (w : World) (s : St Sessions) (sid : Js.str)
    (op : Operation) :
  exists o s',
    perform sid op w s = (Ok o, s')
    /\ data s' !! sid = o
    /\ log s' = log s
    /\ (data s !! sid = None -> s' = s).
Proof.
  destruct (perform_cases w s sid op)
    as [[Hs Hr]|[(old & s' & Hs & Hr & Hd & Hl)
       |[(old & s' & Hs & _ & _ & Hr & Hd & Hl)
        |(old & x & s' & s1 & u & Hs & _ & Hr & Hd & Hl & _)]]].
  - exists None, s. auto.
  - exists None, s'. rewrite Hd, lookup_delete_eq, Hs. repeat split; auto; discriminate.
  - exists (Some old), s'. rewrite Hd, Hs. repeat split; auto; discriminate.
  - exists (Some x), s'. rewrite Hd, lookup_insert_eq, Hs.
    repeat split; auto; discriminate.
Qed.

Lemma perform_mirrors_store_witness :
  perform (js"session_9") (UpdateLocation tokyo) server (registry freshSession)
  = (Ok None, registry freshSession).
Proof.
  destruct (perform_mirrors_store server (registry freshSession) (js"session_9")
              (UpdateLocation tokyo)) as (o & s' & Hr & Ho & _ & Hsame).
  rewrite Hr. rewrite (Hsame ltac:(vm_compute; reflexivity)) in *.
  rewrite <- Ho. vm_compute. reflexivity.
Defined.

(** X17.  An operation on one session leaves every other session of the store
    as it was. *)
Theorem perform_frame (w : World) (s : St Sessions) (sid sid' : Js.str)
    (op : Operation) :
  sid' <> sid ->
  data (snd (perform sid op w s)) !! sid' = data s !! sid'.
Proof.
  intros Hne.
  destruct (perform_cases w s sid op)
    as [[Hs Hr]|[(old & s' & Hs & Hr & Hd & Hl)
       |[(old & s' & Hs & _ & _ & Hr & Hd & Hl)
        |(old & x & s' & s1 & u & Hs & _ & Hr & Hd & Hl & _)]]];
    rewrite Hr; cbn [snd]; try rewrite Hd.
  - reflexivity.
  - apply lookup_delete_ne. congruence.
  - reflexivity.
  - apply lookup_insert_ne. congruence.
Qed.

Lemma perform_frame_witness :
  data (snd (perform (js"session_0") GetSession server
               (initial (<[js"session_0" := staleSession]>
                           {[js"session_1" := freshSession]}))))
    !! js"session_1"
  = Some freshSession.
Proof.
  rewrite (perform_frame server _ (js"session_0") (js"session_1") GetSession).
  - vm_compute. reflexivity.
  - vm_compute. discriminate.
Defined.

(** X18.  Every successful update, of whichever kind, counts as one message:
    the counter goes up by one, and the id and the start time stay.  An
    update of the location rewrites the location part of the context
    only, one of the date the temporal part only, one of the
    conversation the conversation part only; a general update replaces
    the parts it names and cannot touch the session record. *)
Theorem update_bookkeeping (w : World) (s s' : St Sessions) (sid : Js.str)
    (op : Operation) (old x : WeatherSession) :
  data s !! sid = Some old ->
  op <> GetSession ->
  perform sid op w s = (Ok (Some x), s') ->
  sessionId x = sessionId old
  /\ messageCount (Context.session (context x))
     = messageCount (Context.session (context old)) + 1
  /\ startTime (Context.session (context x))
     = startTime (Context.session (context old))
  /\ preferences (context x)
     = match op with
       | UpdateSession u => default (preferences (context old)) (p_preferences u)
       | _ => preferences (context old)
       end
  /\ match op with
     | GetSession => True
     | UpdateSession u =>
         location (context x) = default (location (context old)) (p_location u)
         /\ temporal (context x) = default (temporal (context old)) (p_temporal u)
         /\ conversation (context x)
            = default (conversation (context old)) (p_conversation u)
     | UpdateLocation _ =>
         temporal (context x) = temporal (context old)
         /\ conversation (context x) = conversation (context old)
     | UpdateTemporal _ _ =>
         location (context x) = location (context old)
         /\ conversation (context x) = conversation (context old)
     | UpdateConversation _ _ =>
         location (context x) = location (context old)
         /\ temporal (context x) = temporal (context old)
     end.
Proof.
  intros Hs Hop Hrun.
  destruct (perform_cases w s sid op)
    as [[Hs' _]|[(old' & s2 & _ & Hr & _)
       |[(old' & s2 & _ & Hget & _)
        |(old' & x' & s2 & s1 & u & Hs' & _ & Hr & _ & _ & Hx & _ & Hu)]]];
    try congruence.
  rewrite Hs in Hs'. injection Hs' as <-.
  rewrite Hrun in Hr. injection Hr as <- <-. subst x.
  destruct op as [|u0|l|timeframe targetDate|query intent]; [contradiction| | | |].
  - subst u. cbn. repeat split.
  - destruct Hu as (Hloc & Ht & Hc & Hp). unfold updated, spread. cbn.
    rewrite Ht, Hc, Hp. repeat split.
  - destruct Hu as (_ & Hl & Hc & Hp). unfold updated, spread. cbn.
    rewrite Hl, Hc, Hp. repeat split.
  - destruct Hu as (_ & Hl & Ht & Hp). unfold updated, spread. cbn.
    rewrite Hl, Ht, Hp. repeat split.
Qed.

Lemma update_bookkeeping_witness :
  exists x s',
    updateConversation (js"session_1") (js"Tokyo weather") weather server
      (registry varanasiSession) = (Ok (Some x), s')
    /\ messageCount (Context.session (context x)) = 1
    /\ location (context x) = location (context varanasiSession).
Proof.
  assert (E : exists x s',
             updateConversation (js"session_1") (js"Tokyo weather") weather server
               (registry varanasiSession) = (Ok (Some x), s'))
    by (vm_compute; eexists _, _; reflexivity).
  destruct E as (x & s' & E).
  destruct (update_bookkeeping server (registry varanasiSession) s' (js"session_1")
              (UpdateConversation (js"Tokyo weather") weather) varanasiSession x)
    as (_ & Hcount & _ & _ & Hloc & _).
  - vm_compute. reflexivity.
  - discriminate.
  - exact E.
  - exists x, s'. split; [exact E|]. split; [rewrite Hcount; reflexivity|exact Hloc].
Defined.

(** X19.  [getSession], [cleanup] and [getStats] agree on what is expired: at
    one and the same clock reading, the sessions [cleanup] keeps are
    exactly those [getSession] still returns, and their number is what
    [getStats] reports as active.  [getStats] itself removes nothing. *)
Theorem expiry_agreement (w : World) (s : St Sessions) :
  let kept := data (snd (cleanup w s)) in
  getStats w s
  = (Ok {| totalSessions := Z.of_nat (size (data s));
           activeSessions := Z.of_nat (size kept) |}, ticked s)
  /\ (forall sid x,
        kept !! sid = Some x <-> fst (getSession sid w s) = Ok (Some x)).
Proof.
  cbv zeta. split.
  - unfold getStats, cleanup. cbv [bind now get ret modify]. cbn [snd data].
    rewrite active_count. reflexivity.
  - intros sid x. unfold cleanup. cbv [bind now modify]. cbn [snd data].
    rewrite map_lookup_filter_Some, getSession_run. cbn [snd].
    change (clock w (ticks s)) with (reading w s).
    destruct (data s !! sid) as [session|]; [|split; [intros [? _]|]; discriminate].
    destruct (expiresAt session <? reading w s) eqn:E;
      [apply Z.ltb_lt in E|apply Z.ltb_ge in E]; cbn [fst].
    + split; [intros [[= ->] H]; lia|discriminate].
    + split; [intros [[= ->] _]; reflexivity|intros [= ->]; split; [reflexivity|lia]].
Qed.

(** X20.  A session just created is found again under its id, unchanged, as
    long as the clock has not passed its expiry, which is set 24 hours
    after its last activity; creating it leaves every session stored
    under another id alone. *)
Theorem createSession_getSession (w : World) (s : St Sessions)
    (suffix : Js.str) (initialContext : PartialContext) :
  clock w (2 + ticks s) <= clock w (S (ticks s)) + SESSION_TIMEOUT ->
  exists x s1,
    createSession suffix initialContext w s = (Ok x, s1)
    /\ getSession (sessionId x) w s1 = (Ok (Some x), ticked s1)
    /\ expiresAt x = lastActivity x + 86400000
    /\ context x
       = spread (emptyContext en (JsDate.toISOString (lastActivity x))
                              (JsDate.toISOString (lastActivity x)))
                initialContext
    /\ (forall sid, sid <> sessionId x -> data s1 !! sid = data s !! sid).
Proof.
  intros Hclock.
  cbv [createSession generateSessionId bind now modify ret].
  eexists _, _. split; [reflexivity|]. cbn [sessionId data ticks].
  split.
  - rewrite getSession_run. cbn [data]. rewrite lookup_insert_eq. cbn [expiresAt].
    unfold reading. cbn [ticks].
    replace (_ <? _) with false by (symmetry; apply Z.ltb_ge; exact Hclock).
    reflexivity.
  - split; [reflexivity|]. split; [reflexivity|].
    intros sid Hne. apply lookup_insert_ne. congruence.
Qed.

Lemma createSession_getSession_witness :
  exists x s1,
    createSession (js"k3j9x0q2a") nothing server (initial ∅) = (Ok x, s1)
    /\ getSession (sessionId x) server s1 = (Ok (Some x), ticked s1).
Proof.
  destruct (createSession_getSession server (initial ∅) (js"k3j9x0q2a") nothing)
    as (x & s1 & Hc & Hg & _).
  - vm_compute. discriminate.
  - exists x, s1. split; [exact Hc|exact Hg].
Defined.

(** X21.  The recent dates of a session are a most-recently-used list of at
    most ten: a date that is given moves to the front, tagged with the
    timeframe of the call (whichever it is) and listed once; without a
    date, or with an empty one, the list stays as it is. *)
Theorem updateTemporal_recent_dates (w : World) (s s' : St Sessions)
    (sid : Js.str) (timeframe : DateType) (targetDate : option Js.str)
    (old x : WeatherSession) :
  data s !! sid = Some old ->
  updateTemporal sid timeframe targetDate w s = (Ok (Some x), s') ->
  let before := recentDates (temporal (context old)) in
  let after := recentDates (temporal (context x)) in
  match targetDate with
  | Some (u :: d) =>
      dates after = take 10 (touchDate (u :: d) (dates before))
      /\ (exists r, head after = Some r /\ date r = u :: d /\ type r = timeframe)
  | _ => after = before
  end
  /\ (NoDup (dates before) -> NoDup (dates after))
  /\ (length before <= 10 -> length after <= 10)%nat.
Proof.
  intros Hs Hrun. cbv zeta.
  destruct (perform_cases w s sid (UpdateTemporal timeframe targetDate))
    as [[Hs' _]|[(old' & s2 & _ & Hr & _)
       |[(old' & s2 & _ & Hget & _)
        |(old' & x' & s2 & s1 & u & Hs' & _ & Hr & _ & _ & Hx & _ & Hu)]]];
    cbn [perform] in *; try congruence.
  rewrite Hs in Hs'. injection Hs' as <-.
  rewrite Hrun in Hr. injection Hr as <- <-. subst x.
  destruct Hu as ((tc & Ht & _ & _ & Hdates) & _).
  unfold updated, spread. cbn. rewrite Ht. cbn.
  destruct targetDate as [[|c d]|].
  - rewrite Hdates. auto.
  - destruct Hdates as (stamp & ->).
    assert (Hd : dates (take 10 ({| date := c :: d; type := timeframe;
                                    date_lastUsed := stamp |}
                                 :: filter (fun r => negb (Js.eqb (date r) (c :: d)) = true)
                                           (recentDates (temporal (context old)))))
                 = take 10 (touchDate (c :: d)
                              (dates (recentDates (temporal (context old)))))).
    { rewrite dates_take. cbn [dates map]. unfold touchDate.
      f_equal. f_equal. apply dates_filter. }
    split; [split; [exact Hd|]|split].
    + eexists. split; [reflexivity|]. split; reflexivity.
    + intros Hnd. rewrite Hd. apply MruFacts.NoDup_take_of, NoDup_touchDate, Hnd.
    + intros _. rewrite length_take. lia.
  - rewrite Hdates. auto.
Qed.

Lemma updateTemporal_recent_dates_witness :
  exists x s',
    updateTemporal (js"session_1") Current (Some js"2025-06-01") server
      (registry freshSession) = (Ok (Some x), s')
    /\ dates (recentDates (temporal (context x))) = [js"2025-06-01"].
Proof.
  assert (E : exists x s',
             updateTemporal (js"session_1") Current (Some js"2025-06-01") server
               (registry freshSession) = (Ok (Some x), s'))
    by (vm_compute; eexists _, _; reflexivity).
  destruct E as (x & s' & E).
  destruct (updateTemporal_recent_dates server (registry freshSession) s'
              (js"session_1") Current (Some js"2025-06-01") freshSession x)
    as ((Hd & _) & _).
  - vm_compute. reflexivity.
  - exact E.
  - exists x, s'. split; [exact E|]. rewrite Hd. reflexivity.
Defined.

(** X22.  The conversation flow of a session never holds more than twenty
    items after an update: the new intent is appended, and only the
    oldest items are dropped, the rest keeping their order. *)
Theorem updateConversation_flow (w : World) (s s' : St Sessions)
    (sid query : Js.str) (intent : QueryIntent) (old x : WeatherSession) :
  data s !! sid = Some old ->
  updateConversation sid query intent w s = (Ok (Some x), s') ->
  let before := conversationFlow (conversation (context old)) in
  let after := conversationFlow (conversation (context x)) in
  length after = Nat.min 20 (S (length before))
  /\ lastWeatherQuery (conversation (context x)) = query
  /\ queryIntent (conversation (context x)) = intent
  /\ exists item,
       list.last after = Some item
       /\ flow_type item = FlowIntent
       /\ value item = intentName intent
       /\ after `suffix_of` before ++ [item].
Proof.
  intros Hs Hrun. cbv zeta.
  destruct (perform_cases w s sid (UpdateConversation query intent))
    as [[Hs' _]|[(old' & s2 & _ & Hr & _)
       |[(old' & s2 & _ & Hget & _)
        |(old' & x' & s2 & s1 & u & Hs' & _ & Hr & _ & _ & Hx & _ & Hu)]]];
    cbn [perform] in *; try congruence.
  rewrite Hs in Hs'. injection Hs' as <-.
  rewrite Hrun in Hr. injection Hr as <- <-. subst x.
  destruct Hu as ((cv & stamp & Hc & Hq & Hi & Hflow) & _).
  unfold updated, spread. cbn. rewrite Hc. cbn. rewrite Hflow.
  destruct (flow_cap (conversationFlow (conversation (context old)))
              {| flow_type := FlowIntent; value := intentName intent;
                 timestamp := stamp |}) as (Hlen & Hlast & Hsuf).
  split; [exact Hlen|]. split; [exact Hq|]. split; [exact Hi|].
  eexists. split; [exact Hlast|]. split; [reflexivity|]. split; [reflexivity|exact Hsuf].
Qed.

Lemma updateConversation_flow_witness :
  exists x s',
    updateConversation (js"session_1") (js"Tokyo weather") weather server
      (registry freshSession) = (Ok (Some x), s')
    /\ length (conversationFlow (conversation (context x))) = 1%nat.
Proof.
  assert (E : exists x s',
             updateConversation (js"session_1") (js"Tokyo weather") weather server
               (registry freshSession) = (Ok (Some x), s'))
    by (vm_compute; eexists _, _; reflexivity).
  destruct E as (x & s' & E).
  destruct (updateConversation_flow server (registry freshSession) s'
              (js"session_1") (js"Tokyo weather") weather freshSession x)
    as (Hlen & _).
  - vm_compute. reflexivity.
  - exact E.
  - exists x, s'. split; [exact E|]. rewrite Hlen. reflexivity.
Defined.

End StoreFurther.

(* ===================================================================== *)
(** ** The client-side manager, update by update *)
(* ===================================================================== *)

Module MutationFacts.
Import Eff Context ContextManager Vocabulary Further Runs EffFacts ManagerFacts.
Local Open Scope Z_scope.

Lemma lastN_if_longer {A} (n : nat) (l : list A) :
  (if (n <? length l)%nat then lastN n l else l) = lastN n l.
Proof.
  destruct (n <? length l)%nat eqn:E; [reflexivity|].
  apply Nat.ltb_ge in E. unfold lastN.
  replace (length l - n)%nat with 0%nat by lia. reflexivity.
Qed.

Lemma persistContext_run (w : World) (s : St Manager) :
  persistContext w s
  = if hasWindow w
    then (Ok tt,
          {| ticks := S (ticks s); log := log s;
             data :=
               let c' := with_session
                           {| startTime := startTime (session (context (data s)));
                              lastActivity := JsDate.toISOString (reading w s);
                              messageCount := messageCount (session (context (data s))) |}
                           (context (data s)) in
               {| context := c'; stored := Some c' |} |})
    else (Ok tt, s).
Proof.
  unfold persistContext, bind, ask. destruct (hasWindow w); reflexivity.
Qed.

Lemma addToConversationFlow_run (w : World) (s : St Manager) ty v :
  addToConversationFlow ty v w s
  = (Ok tt,
     {| ticks := S (ticks s); log := log s;
        data :=
          {| context :=
               with_conversation
                 {| lastWeatherQuery := lastWeatherQuery (conversation (context (data s)));
                    queryIntent := queryIntent (conversation (context (data s)));
                    followUpContext := followUpContext (conversation (context (data s)));
                    conversationFlow :=
                      lastN 20 (conversationFlow (conversation (context (data s)))
                                ++ [{| flow_type := ty; value := v;
                                       timestamp := JsDate.toISOString (reading w s) |}]);
                    lastResponse := lastResponse (conversation (context (data s))) |}
                 (context (data s));
             stored := stored (data s) |} |}).
Proof.
  unfold addToConversationFlow.
  step (now_run w s). step (getContext_run w (ticked s)).
  rewrite setContext_run, lastN_if_longer. reflexivity.
Qed.

(** Every update of the manager is a change of the context followed by
    [persistContext]. *)
Lemma mutate_run (w : World) (s : St Manager) (m : Mutation) :
  exists s1,
    mutate m w s = persistContext w s1
    /\ stored (data s1) = stored (data s)
    /\ log s1 = log s
    /\ preferences (context (data s1)) = preferences (context (data s))
    /\ startTime (session (context (data s1)))
       = startTime (session (context (data s)))
    /\ messageCount (session (context (data s1)))
       = messageCount (session (context (data s)))
         + match m with SetConversation _ _ _ => 1 | _ => 0 end
    /\ match m with
       | SetLocation l =>
           temporal (context (data s1)) = temporal (context (data s))
           /\ exists item,
                conversationFlow (conversation (context (data s1)))
                = lastN 20 (conversationFlow (conversation (context (data s))) ++ [item])
                /\ flow_type item = FlowLocation
                /\ value item = city l ++ js", " ++ country l
       | SetTemporal timeframe targetDate relativeDateContext =>
           location (context (data s1)) = location (context (data s))
           /\ currentTimeframe (temporal (context (data s1))) = timeframe
           /\ Context.targetDate (temporal (context (data s1))) = Js.orNull targetDate
           /\ Context.relativeDateContext (temporal (context (data s1)))
              = relativeDateContext
           /\ if recorded timeframe targetDate
              then (exists stamp,
                       recentDates (temporal (context (data s1)))
                       = take 10 ({| date := default [] targetDate; type := timeframe;
                                     date_lastUsed := stamp |}
                                  :: filter (fun r => negb (Js.eqb (date r)
                                                              (default [] targetDate)) = true)
                                            (recentDates (temporal (context (data s))))))
                   /\ (exists item,
                          conversationFlow (conversation (context (data s1)))
                          = lastN 20 (conversationFlow (conversation (context (data s)))
                                      ++ [item])
                          /\ flow_type item = FlowDate
                          /\ value item = if Js.truthy relativeDateContext
                                          then default [] relativeDateContext
                                          else default [] targetDate)
              else recentDates (temporal (context (data s1)))
                   = recentDates (temporal (context (data s)))
                   /\ conversation (context (data s1)) = conversation (context (data s))
       | SetConversation query intent followUp =>
           location (context (data s1)) = location (context (data s))
           /\ temporal (context (data s1)) = temporal (context (data s))
           /\ lastWeatherQuery (conversation (context (data s1))) = query
           /\ queryIntent (conversation (context (data s1))) = intent
           /\ followUpContext (conversation (context (data s1))) = Js.orNull followUp
           /\ exists item,
                conversationFlow (conversation (context (data s1)))
                = lastN 20 (conversationFlow (conversation (context (data s))) ++ [item])
                /\ flow_type item = FlowIntent
                /\ value item = intentName intent
       end.
Proof.
  destruct m as [l|timeframe targetDate relativeDateContext|query intent followUp];
    cbn [mutate].
  - unfold updateLocation.
    step (now_run w s). step (getContext_run w (ticked s)).
    match goal with
    | |- context [setContext ?c] => step (setContext_run w (ticked s) c)
    end.
    match goal with
    | |- context [addToConversationFlow ?ty ?v] =>
        match goal with
        | |- context [bind _ _ w ?s0] => step (addToConversationFlow_run w s0 ty v)
        end
    end.
    eexists. split; [reflexivity|]. cbn.
    repeat split; try lia. eexists. repeat split.
  - unfold updateTemporalContext.
    step (getContext_run w s).
    match goal with
    | |- context [setContext ?c] => step (setContext_run w s c)
    end.
    unfold recorded.
    destruct targetDate as [[|u d]|]; cbn [Js.truthy andb].
    1,3: cbv [bind ret]; eexists;
      (split; [reflexivity|]); cbn -[Js.orNull]; repeat split; lia.
    destruct (bool_decide (timeframe <> Current)).
    + unfold bind at 1. unfold bind at 1.
      rewrite now_run. unfold bind at 1. rewrite getContext_run.
      rewrite ManagerFacts.take_if_longer.
      unfold bind at 1. rewrite setContext_run.
      rewrite addToConversationFlow_run.
      eexists. split; [reflexivity|]. cbn -[Js.orNull Js.truthy].
      repeat split; try lia.
      * eexists. reflexivity.
      * eexists. repeat split.
    + cbv [bind ret]. eexists.
      split; [reflexivity|]. cbn -[Js.orNull]. repeat split; lia.
  - unfold updateConversationContext.
    step (getContext_run w s).
    match goal with
    | |- context [setContext ?c] => step (setContext_run w s c)
    end.
    match goal with
    | |- context [addToConversationFlow ?ty ?v] =>
        match goal with
        | |- context [bind _ _ w ?s0] => step (addToConversationFlow_run w s0 ty v)
        end
    end.
    eexists. split; [reflexivity|]. cbn -[Js.orNull].
    repeat split; try lia. eexists. repeat split.
Qed.

End MutationFacts.

Module ManagerFurther.
Import Eff Context ContextManager Vocabulary Further Runs EffFacts ManagerFacts.
Import MutationFacts StoreFacts Samples.
Local Open Scope Z_scope.


(** X24.  The manager lists a date among the recent ones only when it is given
    with a timeframe other than current: then the date moves to the
    front of a most-recently-used list of at most ten, listed once.
    Otherwise the list stays as it is, so that no entry of type current
    ever enters it. *)
Theorem updateTemporalContext_recent_dates (w : World) (s : St Manager)
    (timeframe : DateType) (targetDate relativeDateContext : option Js.str) :
  exists s',
    updateTemporalContext timeframe targetDate relativeDateContext w s = (Ok tt, s')
    /\ let before := recentDates (temporal (context (data s))) in
       let after := recentDates (temporal (context (data s'))) in
       (if recorded timeframe targetDate
        then dates after = take 10 (touchDate (default [] targetDate) (dates before))
             /\ exists r, head after = Some r /\ type r = timeframe
        else after = before)
       /\ (Forall (fun r => type r <> Current) before ->
           Forall (fun r => type r <> Current) after)
       /\ (NoDup (dates before) -> NoDup (dates after))
       /\ (length before <= 10 -> length after <= 10)%nat.
Proof.
  destruct (mutate_run w s (SetTemporal timeframe targetDate relativeDateContext))
    as (s1 & Hrun & _ & _ & _ & _ & _ & _ & _ & _ & _ & Hrec).
  cbn [mutate] in Hrun. rewrite Hrun, persistContext_run.
  assert (Hgoal :
            let before := recentDates (temporal (context (data s))) in
            let after := recentDates (temporal (context (data s1))) in
            (if recorded timeframe targetDate
             then dates after = take 10 (touchDate (default [] targetDate) (dates before))
                  /\ exists r, head after = Some r /\ type r = timeframe
             else after = before)
            /\ (Forall (fun r => type r <> Current) before ->
                Forall (fun r => type r <> Current) after)
            /\ (NoDup (dates before) -> NoDup (dates after))
            /\ (length before <= 10 -> length after <= 10)%nat).
  { cbv zeta. destruct (recorded timeframe targetDate) eqn:Hr.
    - destruct Hrec as [(stamp & Hdates) _]. rewrite Hdates.
      assert (Hd : dates (take 10 ({| date := default [] targetDate; type := timeframe;
                                      date_lastUsed := stamp |}
                                   :: filter (fun r => negb (Js.eqb (date r)
                                                       (default [] targetDate)) = true)
                                             (recentDates (temporal (context (data s))))))
                   = take 10 (touchDate (default [] targetDate)
                                (dates (recentDates (temporal (context (data s))))))).
      { rewrite dates_take. cbn [dates map]. unfold touchDate.
        f_equal. f_equal. apply dates_filter. }
      split; [split; [exact Hd|]|split; [|split]].
      + eexists. split; reflexivity.
      + intros Hall. apply Forall_take. constructor.
        * cbn. unfold recorded in Hr. apply andb_prop in Hr as [_ Hr].
          apply bool_decide_eq_true in Hr. exact Hr.
        * apply list.Forall_forall. intros r Hin.
          apply list_elem_of_filter in Hin as [_ Hin].
          rewrite list.Forall_forall in Hall. apply Hall, Hin.
      + intros Hnd. rewrite Hd. apply MruFacts.NoDup_take_of, NoDup_touchDate, Hnd.
      + intros _. rewrite length_take. lia.
    - destruct Hrec as [-> _]. auto. }
  destruct (hasWindow w); eexists; (split; [reflexivity|exact Hgoal]).
Qed.

(** X25.  Resolving a query never changes the manager and never drops the
    user's words: the query it hands on contains the original one.  It
    asks for a location exactly when the query names none and none is
    stored, and it rewrites the query only to add the stored city. *)
Theorem resolveImplicitContext_extends_query (w : World) (s : St Manager)
    (query : Js.str) (language : option Js.str) :
  exists r,
    resolveImplicitContext query language w s = (Ok r, s)
    /\ Js.includes query (contextualQuery r) = true
    /\ needsTimeInput r = false
    /\ res_location r = current (location (context (data s)))
    /\ (needsLocationInput r = true <->
        hasExplicitLocation query language = false
        /\ current (location (context (data s))) = None)
    /\ (contextualQuery r <> query ->
        hasExplicitLocation query language = false
        /\ exists l,
             current (location (context (data s))) = Some l
             /\ Js.includes (city l) (contextualQuery r) = true).
Proof.
  unfold resolveImplicitContext. step (getContext_run w s).
  assert (Hself : Js.includes query query = true).
  { replace query with ([] ++ query ++ []) at 2 by (cbn; apply app_nil_r).
    apply JsFacts.includes_app. }
  eexists. split; [reflexivity|]. cbn.
  destruct (current (location (context (data s)))) as [l|];
    destruct (hasExplicitLocation query language); cbn.
  - repeat split; auto; try discriminate; try tauto. intros [_ H]. discriminate H.
  - split.
    + unfold withCity. destruct (Js.eqb _ _).
      * replace (city l ++ js"の" ++ query)
          with ((city l ++ js"の") ++ query ++ [])
          by (rewrite app_nil_r, app_assoc; reflexivity).
        apply JsFacts.includes_app.
      * apply (JsFacts.includes_app query [] (js" in " ++ city l)).
    + repeat split; auto; try discriminate.
      * intros [_ H]. discriminate H.
      * exists l. split; [reflexivity|].
        unfold withCity. destruct (Js.eqb _ _).
        -- apply (JsFacts.includes_app (city l) [] (js"の" ++ query)).
        -- replace (query ++ js" in " ++ city l)
             with ((query ++ js" in ") ++ city l ++ [])
             by (rewrite app_nil_r, app_assoc; reflexivity).
           apply JsFacts.includes_app.
  - repeat split; auto; try discriminate; try tauto. intros [H _]. discriminate H.
  - repeat split; auto; try discriminate; try tauto.
Qed.

(** X26.  The location given to [updateLocation] is the one read back:
    [getCurrentLocation] returns it, stamped with the time of the call,
    and it heads [getRecentLocations].  Its confidence is the caller's
    when that is a number other than zero, and 1 otherwise (absent, zero
    or NaN): a stored confidence is never zero. *)
Theorem updateLocation_getCurrentLocation (w : World) (s : St Manager)
    (l : LocationData) :
  exists s1 cur rest c,
    updateLocation l w s = (Ok tt, s1)
    /\ getCurrentLocation w s1 = (Ok (Some cur), s1)
    /\ getRecentLocations w s1 = (Ok (cur :: rest), s1)
    /\ city cur = city l /\ country cur = country l
    /\ latitude cur = latitude l /\ longitude cur = longitude l
    /\ timezone cur = timezone l
    /\ lastUsed cur = Some (JsDate.toISOString (reading w s))
    /\ confidence cur = Some c
    /\ (c =? 0)%float = false
    /\ match confidence l with
       | Some x =>
           if ((x =? 0) || negb (x =? x))%float then c = 1%float else c = x
       | None => c = 1%float
       end.
Proof.
  unfold updateLocation.
  step (now_run w s). step (getContext_run w (ticked s)).
  rewrite take_if_longer.
  match goal with
  | |- context [setContext ?c] => step (setContext_run w (ticked s) c)
  end.
  match goal with
  | |- context [addToConversationFlow ?ty ?v] =>
      match goal with
      | |- context [bind _ _ w ?s0] => step (addToConversationFlow_run w s0 ty v)
      end
  end.
  rewrite persistContext_run.
  assert (Hc : (confidenceOr1 (confidence l) =? 0)%float = false
               /\ match confidence l with
                  | Some x =>
                      if ((x =? 0) || negb (x =? x))%float
                      then confidenceOr1 (confidence l) = 1%float
                      else confidenceOr1 (confidence l) = x
                  | None => confidenceOr1 (confidence l) = 1%float
                  end).
  { unfold confidenceOr1. destruct (confidence l) as [x|]; [|split; reflexivity].
    destruct (x =? 0)%float eqn:E0; [split; reflexivity|].
    destruct (x =? x)%float; cbn [negb orb]; split; auto. }
  destruct Hc as [Hc0 Hc1].
  destruct (hasWindow w); eexists _, _, _, _;
    (split; [reflexivity|]); (split; [reflexivity|]);
    cbn [MAX_RECENT_LOCATIONS take];
    (split; [reflexivity|]); cbn;
    repeat (split; [reflexivity|]); (split; [exact Hc0|exact Hc1]).
Qed.


End ManagerFurther.
